(** * go-func-logger: a shallow embedding of [main.go] and its specification

    The program parses one Go source file, records every top-level function
    declaration that has a body, decides where an entry trace and the exit
    traces go, renders them as text and merges them with the lines of the
    file.  The parser ([go/parser], [go/ast], [go/token]), [path/filepath]
    and [bufio] are libraries: their data and behaviour are modelled here as
    far as [main.go] depends on them. *)

From Stdlib Require Import ZArith Ascii String List Lia.
From stdpp Require Import base gmap strings list pretty.

Local Open Scope Z_scope.
Set Warnings "-register-all".

(** ** Go's [int] *)

(** [int] is a 64-bit two's complement integer; [+] and [-] wrap around. *)
Module GoInt.
Definition min_int : Z := - 2 ^ 63.
Definition max_int : Z := 2 ^ 63 - 1.

Definition wrap (z : Z) : Z := (z + 2 ^ 63) mod 2 ^ 64 - 2 ^ 63.

Definition add (a b : Z) : Z := wrap (a + b).
Definition sub (a b : Z) : Z := wrap (a - b).

Definition is_int (z : Z) : Prop := min_int <= z <= max_int.
Definition is_intb (z : Z) : bool := (min_int <=? z) && (z <=? max_int).

(** [len] of a slice: slices never hold more than [max_int] elements. *)
Definition len {A} (l : list A) : Z := Z.of_nat (length l).
End GoInt.

(** ** Outcomes of fallible code *)

(** [log.Fatal] prints its message and exits the process with status 1; a
    run-time panic (index out of range, negative repeat count) crashes it. *)
Inductive Result (A : Type) : Type :=
  | Ok (a : A)
  | Fatal (msg : string)
  | Panic (msg : string).
Arguments Ok {A} a.
Arguments Fatal {A} msg.
Arguments Panic {A} msg.

Global Instance Result_bind : MBind Result := fun A B k r =>
  match r with
  | Ok a => k a
  | Fatal msg => Fatal msg
  | Panic msg => Panic msg
  end.

(** [for _, x := range xs { ys = append(ys, f(x)) }] with a fallible [f]. *)
Fixpoint mapR {A B} (f : A -> Result B) (xs : list A) : Result (list B) :=
  match xs with
  | [] => Ok []
  | x :: xs' => y ← f x; ys ← mapR f xs'; Ok (y :: ys)
  end.

(** ** Strings *)

Module strings.
Fixpoint repeat_nat (s : string) (n : nat) : string :=
  match n with
  | O => ""
  | S n' => s +:+ repeat_nat s n'
  end.

(** [strings.Repeat]: panics when the count is negative. *)
Definition Repeat (s : string) (count : Z) : Result string :=
  if count <? 0 then Panic "strings: negative Repeat count"
  else Ok (repeat_nat s (Z.to_nat count)).

(** [strings.HasPrefix]. *)
Fixpoint HasPrefix (s p : string) {struct p} : bool :=
  match p, s with
  | EmptyString, _ => true
  | String c p', String d s' => if Ascii.eqb c d then HasPrefix s' p' else false
  | String _ _, EmptyString => false
  end.

(** [strings.HasSuffix]. *)
Definition HasSuffix (s suffix : string) : bool :=
  HasPrefix (String.rev s) (String.rev suffix).

Fixpoint take (n : nat) (s : string) : string :=
  match n, s with
  | S n', String c s' => String c (take n' s')
  | _, _ => ""
  end.

(** [strings.TrimSuffix]: [s] without the suffix, or [s] itself when it
    does not end with it. *)
Definition TrimSuffix (s suffix : string) : string :=
  if HasSuffix s suffix
  then take (String.length s - String.length suffix)%nat s
  else s.

(** [strings.Contains]. *)
Fixpoint Contains (s substr : string) : bool :=
  HasPrefix s substr
  || match s with
     | EmptyString => false
     | String _ s' => Contains s' substr
     end.

(** [strings.Join]. *)
Fixpoint Join (elems : list string) (sep : string) : string :=
  match elems with
  | [] => ""
  | [e] => e
  | e :: rest => e +:+ sep +:+ Join rest sep
  end.
End strings.

(** [%d] of [fmt]: decimal digits, with a minus sign when negative. *)
Definition fmt_d (z : Z) : string := pretty z.

(** ** [bufio]: reading lines, writing through a buffer *)

(** A text file is kept as the sequence of its lines: the pieces of text
    between its newline characters. *)
Module bufio.
Definition cr : string := String (ascii_of_nat 13) "".

(** [MaxScanTokenSize]: the size up to which a [Scanner] grows its buffer.
    A line is delivered when it fits in the buffer with its newline, or
    alone when the file ends unterminated, the buffer not being full. *)
Definition MaxScanTokenSize : Z := 64 * 1024.

Definition ErrTooLong : string := "bufio.Scanner: token too long".

(** [dropCR]: a line without the carriage return that ends it. *)
Definition dropCR (data : string) : string := strings.TrimSuffix data cr.

(** [for scanner.Scan() { ... scanner.Text() ... }] with the split function
    [ScanLines], followed by [scanner.Err()]: the lines delivered, and the
    error that stopped the scan when a line fills the buffer. *)
Fixpoint Scan (text : list string) : list string * option string :=
  match text with
  | [] => ([], None)
  | line :: rest =>
      if MaxScanTokenSize <=? Z.of_nat (String.length line)
      then ([], Some ErrTooLong)
      else let '(tokens, err) := Scan rest in (dropCR line :: tokens, err)
  end.

Definition defaultBufSize : Z := 4096.

(** A [Writer] on a file.  [room] stands for the file [wr]: whether it
    takes the bytes written to it (a full device takes none and fails every
    write).  [taken] counts the bytes the file has taken, [buffered] (the
    field [n]) those waiting in the buffer, and [failed] says that the
    field [err] is set. *)
Record Writer := MkWriter {
  room : bool;
  taken : Z;
  buffered : Z;
  failed : bool
}.

Definition NewWriter (room : bool) : Writer := MkWriter room 0 0 false.

Definition Available (b : Writer) : Z := defaultBufSize - buffered b.

(** [Flush]: the buffered bytes go to the file; an error of the file is
    kept, and returned by every later call. *)
Definition Flush (b : Writer) : Writer :=
  if failed b then b
  else if buffered b =? 0 then b
  else if room b then MkWriter (room b) (taken b + buffered b) 0 false
  else MkWriter (room b) (taken b) (buffered b) true.

(** One turn of the loop of [Write], [len] being the length of what is
    left of [p]: a large write into an empty buffer goes to the file
    directly, otherwise [p] fills the buffer, which is flushed. *)
Definition Write_turn (st : Writer * Z) : Writer * Z :=
  let '(b, len) := st in
  if (Available b <? len) && negb (failed b) then
    if buffered b =? 0 then
      if room b then (MkWriter (room b) (taken b + len) 0 false, 0)
      else (MkWriter (room b) (taken b) 0 true, len)
    else
      let k := Available b in
      (Flush (MkWriter (room b) (taken b) (buffered b + k) false), len - k)
  else st.

(** [Write(p)] for [p] of [len] bytes.  The loop turns at most twice: a
    turn leaves the buffer empty or the writer failed.  What is left
    after the loop is copied into the buffer. *)
Definition Write (b : Writer) (len : Z) : Writer :=
  let '(b, len) := Write_turn (Write_turn (b, len)) in
  if failed b then b
  else MkWriter (room b) (taken b) (buffered b + len) false.

(** [fmt.Fprintln(wr, line)]: one [Write] of the line and its newline; the
    error it returns is ignored by the program. *)
Definition Fprintln (b : Writer) (line : string) : Writer :=
  Write b (Z.of_nat (String.length line) + 1).

(** The writer after the lines [out] have been printed to it. *)
Definition printed (b : Writer) (out : list string) : Writer :=
  fold_left Fprintln out b.

(** The first [k] bytes of the text of [out], as lines: the lines that
    passed whole, then the piece of a line cut short. *)
Fixpoint cut (k : Z) (out : list string) : list string :=
  match out with
  | [] => []
  | line :: rest =>
      if k <=? 0 then []
      else if Z.of_nat (String.length line) <? k
      then line :: cut (k - Z.of_nat (String.length line) - 1) rest
      else [strings.take (Z.to_nat k) line]
  end.

(** What the file holds when the writer, to which [out] has been printed,
    has reached the state [b]. *)
Definition on_file (b : Writer) (out : list string) : list string :=
  cut (taken b) out.
End bufio.

(** ** [go/token]: positions *)

Module token.
(** A [Pos] is an offset into the file set; [NoPos] is the zero value. *)
Definition Pos := Z.
Definition NoPos : Pos := 0.

Definition IsValid (p : Pos) : bool := negb (p =? NoPos).

Record Position := MkPosition {
  Filename : string;
  Offset : Z;
  Line : Z;
  Column : Z
}.

Definition zeroPosition : Position := MkPosition "" 0 0 0.

(** What a line directive ([//line file:line] or [//line file:line:col])
    tells about the text from [InfoOffset] on: the file name and the line
    to report, and the column, 0 when the directive gives none. *)
Record lineInfo := MkLineInfo {
  InfoOffset : Z;
  InfoFilename : string;
  InfoLine : Z;
  InfoColumn : Z
}.

(** A file of the set: its name, the range [base, base + size] of [Pos]
    values it owns, the table of the offsets at which its lines start
    (always beginning with offset 0) and the line directives the scanner
    met, by ascending offset. *)
Record File := MkFile {
  name : string;
  base : Z;
  size : Z;
  lines : list Z;
  infos : list lineInfo
}.

Record FileSet := MkFileSet { files : list File }.

(** Index of the last entry of the (ascending) table that is [<= x], or
    [-1] when there is none. *)
Fixpoint searchInts (a : list Z) (x : Z) : Z :=
  match a with
  | [] => -1
  | y :: a' => if y <=? x then 1 + searchInts a' x else -1
  end.

(** The same search among the offsets of the line directives. *)
Definition searchLineInfos (a : list lineInfo) (x : Z) : Z :=
  searchInts (map InfoOffset a) x.

(** [unpack]: file name, line and column of an offset.  With [adjusted]
    the last line directive at or before the offset renames the file,
    shifts the line, and decides the column: 0 when the directive has no
    column, counted from the directive's column on the directive's own
    line, and the plain column on later lines. *)
Definition File_unpack (f : File) (offset : Z) (adjusted : bool)
    : string * Z * Z :=
  let i := searchInts (lines f) offset in
  let '(line, column) :=
    match (if 0 <=? i then lines f !! Z.to_nat i else None) with
    | Some start => (i + 1, offset - start + 1)
    | None => (0, 0)
    end in
  if adjusted && (0 <? GoInt.len (infos f)) then
    let i := searchLineInfos (infos f) offset in
    match (if 0 <=? i then infos f !! Z.to_nat i else None) with
    | Some alt =>
        let i := searchInts (lines f) (InfoOffset alt) in
        if 0 <=? i then
          (* i + 1 is the line at which the alternative position was recorded *)
          let d := line - (i + 1) in
          (InfoFilename alt, InfoLine alt + d,
           if InfoColumn alt =? 0 then 0
           else if d =? 0 then InfoColumn alt + (offset - InfoOffset alt)
           else column)
        else (InfoFilename alt, line, column)
    | None => (name f, line, column)
    end
  else (name f, line, column).

(** [f.position(p, adjusted)]. *)
Definition File_position (f : File) (p : Pos) (adjusted : bool) : Position :=
  let offset := p - base f in
  let '(filename, line, column) := File_unpack f offset adjusted in
  MkPosition filename offset line column.

Definition owns (f : File) (p : Pos) : bool :=
  (base f <=? p) && (p <=? base f + size f).

Definition FileSet_file (s : FileSet) (p : Pos) : option File :=
  find (fun f => owns f p) (files s).

(** [fset.PositionFor(p, adjusted)]: the zero position for [NoPos] and for
    a [Pos] that no file of the set owns. *)
Definition FileSet_PositionFor (s : FileSet) (p : Pos) (adjusted : bool)
    : Position :=
  if p =? NoPos then zeroPosition
  else match FileSet_file s p with
       | Some f => File_position f p adjusted
       | None => zeroPosition
       end.

(** [fset.Position(p)] is [fset.PositionFor(p, true)]: line directives
    are taken into account. *)
Definition FileSet_Position (s : FileSet) (p : Pos) : Position :=
  FileSet_PositionFor s p true.

Definition with_Column (p : Position) (c : Z) : Position :=
  MkPosition (Filename p) (Offset p) (Line p) c.
End token.

(** ** [go/ast]: the syntax tree as [main.go] reads it *)

Module ast.
(** Statements and expressions: the kind of the node, the position its
    [Pos()] method reports and its children in source order.  Only the
    kind [ReturnStmt] is ever tested by the program. *)
Inductive Kind :=
  | ReturnStmt | ExprStmt | AssignStmt | IfStmt | ForStmt | BlockStmtK
  | FuncLit | CallExpr | IdentK | BasicLit | ArrayType | OtherNode.

Inductive Node := MkNode (kind : Kind) (pos : token.Pos) (children : list Node).

Definition Node_kind (n : Node) : Kind := let 'MkNode k _ _ := n in k.
Definition Node_Pos (n : Node) : token.Pos := let 'MkNode _ p _ := n in p.
Definition Node_children (n : Node) : list Node := let 'MkNode _ _ c := n in c.

Definition is_ReturnStmt (n : Node) : bool :=
  match Node_kind n with ReturnStmt => true | _ => false end.

Record Ident := MkIdent { NamePos : token.Pos; Name : string }.

(** A parameter or result declaration: the names it binds (none for an
    unnamed parameter, several for [a, b int]) and its type expression. *)
Record Field := MkField { Names : list Ident; FieldType : option Node }.

Record FieldList := MkFieldList { List : list Field }.

Record FuncType := MkFuncType {
  Func : token.Pos;
  TypeParams : option FieldList;
  Params : option FieldList;
  Results : option FieldList
}.

(** [Stmts] is the field [List] of [ast.BlockStmt]. *)
Record BlockStmt := MkBlockStmt {
  Lbrace : token.Pos;
  Stmts : list Node;
  Rbrace : token.Pos
}.

(** [FName] and [FType] are the fields [Name] and [Type]. *)
Record FuncDecl := MkFuncDecl {
  Recv : option FieldList;
  FName : option Ident;
  FType : option FuncType;
  Body : option BlockStmt
}.

Inductive Decl :=
  | FuncDeclD (fn : FuncDecl)
  | GenDecl (pos : token.Pos).

Record File := MkFile { Decls : list Decl }.

(** The nodes [ast.Inspect] reaches from a node with a visitor that always
    answers [true]: the node, then its children, depth first. *)
Fixpoint preorder (n : Node) : list Node :=
  match n with
  | MkNode _ _ cs =>
      n :: (fix go (l : list Node) : list Node :=
              match l with
              | [] => []
              | c :: l' => preorder c ++ go l'
              end) cs
  end.

Definition preorder_list (l : list Node) : list Node := flat_map preorder l.

Definition Field_nodes (f : Field) : list Node :=
  match FieldType f with Some t => preorder t | None => [] end.

Definition FieldList_nodes (fl : option FieldList) : list Node :=
  match fl with
  | Some l => flat_map Field_nodes (List l)
  | None => []
  end.

Definition FuncType_nodes (t : option FuncType) : list Node :=
  match t with
  | Some ft =>
      FieldList_nodes (TypeParams ft) ++ FieldList_nodes (Params ft)
        ++ FieldList_nodes (Results ft)
  | None => []
  end.

Definition Body_nodes (b : option BlockStmt) : list Node :=
  match b with Some blk => preorder_list (Stmts blk) | None => [] end.

(** The statement and expression nodes [ast.Inspect(fn, ...)] visits, in
    the order of [ast.Walk] on a [FuncDecl]: receiver, name, type
    (type parameters, parameters, results), body. *)
Definition Inspect (fn : FuncDecl) : list Node :=
  FieldList_nodes (Recv fn) ++ FuncType_nodes (FType fn) ++ Body_nodes (Body fn).
End ast.

(** ** [path/filepath] on a Unix system *)

Module filepath.
Definition is_sep (c : ascii) : bool := Ascii.eqb c "/".

(** The elements between the separators: [strings.Split(path, "/")]. *)
Fixpoint Split (s : string) : list string :=
  match s with
  | EmptyString => [""]
  | String c s' =>
      if is_sep c then "" :: Split s'
      else match Split s' with
           | [] => [String c ""]
           | e :: r => String c e :: r
           end
  end.

(** One element of the path read by [Clean]; [out] holds the elements kept
    so far, the last one first. *)
Definition clean_step (rooted : bool) (out : list string) (elem : string)
    : list string :=
  if String.eqb elem "" then out
  else if String.eqb elem "." then out
  else if String.eqb elem ".." then
    match out with
    | [] => if rooted then [] else [".."]
    | e :: out' => if String.eqb e ".." then ".." :: out else out'
    end
  else elem :: out.

(** [filepath.Clean]: the shortest path naming the same place lexically. *)
Definition Clean (path : string) : string :=
  let rooted := strings.HasPrefix path "/" in
  let out := fold_left (clean_step rooted) (Split path) [] in
  let body := strings.Join (rev out) "/" in
  if rooted then "/" +:+ body
  else if String.eqb body "" then "." else body.

Fixpoint take_while {A} (f : A -> bool) (l : list A) : list A :=
  match l with
  | [] => []
  | x :: l' => if f x then x :: take_while f l' else []
  end.

Fixpoint drop_while {A} (f : A -> bool) (l : list A) : list A :=
  match l with
  | [] => []
  | x :: l' => if f x then drop_while f l' else l
  end.

Definition rev_list (s : string) : list ascii := rev (String.list_ascii_of_string s).

Definition no_sep (c : ascii) : bool := negb (is_sep c).

(** [filepath.Base]: the last element of the path, trailing separators
    removed first; ["."] for the empty path, ["/"] for a path of
    separators only. *)
Definition Base (path : string) : string :=
  if String.eqb path "" then "."
  else
    let stripped := drop_while is_sep (rev_list path) in
    let elem := String.string_of_list_ascii (rev (take_while no_sep stripped)) in
    if String.eqb elem "" then "/" else elem.

(** [filepath.Dir]: everything up to the last separator, cleaned. *)
Definition Dir (path : string) : string :=
  Clean (String.string_of_list_ascii (rev (drop_while no_sep (rev_list path)))).

(** [filepath.Ext]: the suffix of the last element that starts at its
    last dot, empty when there is none. *)
Fixpoint ext_go (r : list ascii) (acc : list ascii) : list ascii :=
  match r with
  | [] => []
  | c :: r' =>
      if is_sep c then []
      else if Ascii.eqb c "." then c :: acc
      else ext_go r' (c :: acc)
  end.

Definition Ext (path : string) : string :=
  String.string_of_list_ascii (ext_go (rev_list path) []).
End filepath.

(** ** The program: data *)

Record FuncInfo := MkFuncInfo {
  Name : string;
  Params : list string;
  Returns : list string;
  EntryLogPos : token.Position;        (* only one entry point of a func *)
  ExitLogPos : list token.Position     (* there can be multiple exit points *)
}.

Record LogInfo := MkLogInfo {
  Log : string;
  Col : Z
}.

Definition NewFuncInfo (fset : token.FileSet) : FuncInfo :=
  MkFuncInfo "" [] [] (token.FileSet_Position fset token.NoPos) [].

(** The field names of the struct types that [HasField] is asked about. *)
Class Struct (A : Type) := struct_fields : list string.
Global Instance Struct_Field : Struct ast.Field :=
  ["Doc"; "Names"; "Type"; "Tag"; "Comment"].
Global Instance Struct_FieldList : Struct ast.FieldList :=
  ["Opening"; "List"; "Closing"].
Global Instance Struct_FuncType : Struct ast.FuncType :=
  ["Func"; "TypeParams"; "Params"; "Results"].

(** [HasField] looks through the pointer [s]: a nil pointer has no struct
    behind it and so no field. *)
Definition HasField {A} `{Struct A} (s : option A) (field : string) : bool :=
  match s with
  | Some _ => bool_decide (field ∈ struct_fields (A:=A))
  | None => false
  end.

Definition IsFuncBodyValid (body : option ast.BlockStmt) : bool :=
  match body with
  | None => false
  | Some b =>
      if (ast.Lbrace b =? token.NoPos) || negb (token.IsValid (ast.Lbrace b)) then false
      else if (ast.Rbrace b =? token.NoPos) || negb (token.IsValid (ast.Rbrace b)) then false
      else true
  end.

Definition ExtractNameFromField (field : ast.Field) : Result string :=
  if negb (HasField (Some field) "Names") || negb (HasField (Some field) "Type")
     || (GoInt.len (ast.Names field) =? 0)
  then Ok ""
  else if 1 <? GoInt.len (ast.Names field)
  then Fatal "unknown parameter type"
  else match ast.Names field with
       | id :: _ => Ok (ast.Name id)
       | [] => Panic "index out of range"
       end.

Definition GetParamNames (params : option ast.FieldList) : Result (list string) :=
  if negb (HasField params "List") then Ok []
  else match params with
       | Some l =>
           if GoInt.len (ast.List l) =? 0 then Ok []
           else mapR ExtractNameFromField (ast.List l)
       | None => Panic "nil pointer dereference"
       end.

Definition FindReturnStmts (fn : ast.FuncDecl) (fset : token.FileSet)
    : list token.Position :=
  map (fun ret => token.FileSet_Position fset (ast.Node_Pos ret))
      (filter (fun n => ast.is_ReturnStmt n = true) (ast.Inspect fn)).

(** The second component says whether the first is to be kept: [false]
    means "ignore". *)
Definition ExtractFuncInfo (fn : ast.FuncDecl) (fset : token.FileSet)
    : Result (FuncInfo * bool) :=
  let result := NewFuncInfo fset in
  if negb (IsFuncBodyValid (ast.Body fn)) then Ok (result, false)
  else match ast.Body fn with
  | None => Panic "nil pointer dereference"
  | Some body =>
      let name :=
        match ast.FName fn with Some id => ast.Name id | None => Name result end in
      params ←
        (if HasField (ast.FType fn) "Params"
         then match ast.FType fn with
              | Some t => GetParamNames (ast.Params t)
              | None => Panic "nil pointer dereference"
              end
         else Ok (Params result));
      returns ←
        (if HasField (ast.FType fn) "Results"
         then match ast.FType fn with
              | Some t => GetParamNames (ast.Results t)
              | None => Panic "nil pointer dereference"
              end
         else Ok (Returns result));
      let entryLogPos :=
        match ast.Stmts body with
        | [] => token.FileSet_Position fset (ast.Lbrace body)
        | first :: _ => token.FileSet_Position fset (ast.Node_Pos first)
        end in
      let exits := FindReturnStmts fn fset in
      (* assume the last stmt in the func body is not a return stmt; in that
         case the exit log should be just before the func rbrace *)
      let rbracePos := token.FileSet_Position fset (ast.Rbrace body) in
      let '(exitLogPos, lastRet) :=
        match last (ast.Stmts body) with
        | None => (rbracePos, false)
        | Some stmt =>
            (* the indentation of the last statement in the func body *)
            let tempPos := token.FileSet_Position fset (ast.Node_Pos stmt) in
            (token.with_Column rbracePos (token.Column tempPos),
             ast.is_ReturnStmt stmt)
        end in
      let exits' :=
        if (GoInt.len exits =? 0) || negb lastRet
        then exits ++ [exitLogPos]
        else exits in
      Ok (MkFuncInfo name params returns entryLogPos exits', true)
  end.

Fixpoint GetAllFuncInfo_loop (decls : list ast.Decl) (fset : token.FileSet)
    (fnInfo : list FuncInfo) : Result (list FuncInfo) :=
  match decls with
  | [] => Ok fnInfo
  | ast.GenDecl _ :: rest => GetAllFuncInfo_loop rest fset fnInfo
  | ast.FuncDeclD fn :: rest =>
      r ← ExtractFuncInfo fn fset;
      let '(info, ok) := r in
      if negb ok then GetAllFuncInfo_loop rest fset fnInfo
      else GetAllFuncInfo_loop rest fset (fnInfo ++ [info])
  end.

Definition GetAllFuncInfo (root : ast.File) (fset : token.FileSet)
    : Result (list FuncInfo) :=
  GetAllFuncInfo_loop (ast.Decls root) fset [].

(** ** The program: rendering the traces *)

Definition dquote : string := String (ascii_of_nat 34) "".
Definition tab : string := String (ascii_of_nat 9) "".
Definition nl : string := String (ascii_of_nat 10) "".

Fixpoint GetParamLog_loop (params : list string) (st : string * string * Z)
    : string * string * Z :=
  match params with
  | [] => st
  | param :: rest =>
      if String.eqb param "" then
        (* not sure how to print unnamed param values *)
        GetParamLog_loop rest st
      else
        let '(paramLog, paramValLog, count) := st in
        GetParamLog_loop rest
          (paramLog +:+ (param +:+ ": " +:+ "%+v, "),
           paramValLog +:+ (param +:+ ","),
           GoInt.add count 1)
  end.

Definition GetParamLog (params : list string) : string * string * Z :=
  let '(paramLog, paramValLog, count) := GetParamLog_loop params ("", "", 0) in
  (strings.TrimSuffix paramLog ", ", strings.TrimSuffix paramValLog ",", count).

Definition GetEntryLogInfo (info : FuncInfo) : LogInfo :=
  let entryLog := "Starting func " +:+ Name info in
  let '(paramLog, paramValLog, count) := GetParamLog (Params info) in
  let log :=
    if negb (count =? 0) then
      let entryLog := entryLog +:+ (" with values: " +:+ paramLog) in
      "fmt.Printf(" +:+ dquote +:+ entryLog +:+ "\n" +:+ dquote +:+ ", "
        +:+ paramValLog +:+ ")"
    else
      "fmt.Println(" +:+ dquote +:+ entryLog +:+ dquote +:+ ")" in
  MkLogInfo log (token.Column (EntryLogPos info)).

Definition GetExitLogInfo (info : FuncInfo) (idx : nat) (line : Z) : Result LogInfo :=
  match ExitLogPos info !! idx with
  | Some p =>
      Ok (MkLogInfo
            ("fmt.Println(" +:+ dquote +:+ "Exiting func " +:+ Name info
               +:+ " from line " +:+ fmt_d line +:+ dquote +:+ ")")
            (token.Column p))
  | None => Panic "index out of range"
  end.

(** [logs[line] = append(logs[line], l)]: a missing key reads as nil. *)
Definition append_log (logs : gmap Z (list LogInfo)) (line : Z) (l : LogInfo)
    : gmap Z (list LogInfo) :=
  <[line := default [] (logs !! line) ++ [l]]> logs.

Fixpoint GenerateLogs_exits (info : FuncInfo) (idx : nat)
    (exits : list token.Position) (logs : gmap Z (list LogInfo)) (count : Z)
    : Result (gmap Z (list LogInfo) * Z) :=
  match exits with
  | [] => Ok (logs, count)
  | exitLog :: rest =>
      l ← GetExitLogInfo info idx (GoInt.add (token.Line exitLog) count);
      GenerateLogs_exits info (S idx) rest
        (append_log logs (token.Line exitLog) l) (GoInt.add count 1)
  end.

Fixpoint GenerateLogs_loop (fnInfo : list FuncInfo)
    (logs : gmap Z (list LogInfo)) (count : Z)
    : Result (gmap Z (list LogInfo) * Z) :=
  match fnInfo with
  | [] => Ok (logs, count)
  | info :: rest =>
      let logs := append_log logs (token.Line (EntryLogPos info)) (GetEntryLogInfo info) in
      let count := GoInt.add count 1 in
      r ← GenerateLogs_exits info 0 (ExitLogPos info) logs count;
      GenerateLogs_loop rest r.1 r.2
  end.

Definition GenerateLogs (fnInfo : list FuncInfo) : Result (gmap Z (list LogInfo)) :=
  r ← GenerateLogs_loop fnInfo ∅ 0; Ok r.1.

(** ** The program: files *)

(** The part of the machine the program touches: the text files, each as the
    sequence of its lines, keyed by path; the paths at which no file can be
    created; what was printed on standard output; and the paths on a device
    without room, where a file can be created but takes no data. *)
Record World := MkWorld {
  files : gmap string (list string);
  denied : gset string;
  stdout : list string;
  full : gset string
}.

(** How a run ends: it returns, it exits through [log.Fatal], or it crashes
    with a panic; each time with the world as it is at that moment. *)
Inductive Outcome :=
  | Finished (w : World)
  | Exited (msg : string) (w : World)
  | Crashed (msg : string) (w : World).

Definition world_of (o : Outcome) : World :=
  match o with
  | Finished w => w
  | Exited _ w => w
  | Crashed _ w => w
  end.

Definition ReadFileLines (path : string) (w : World) : Result (list string) :=
  match files w !! path with
  | None => Fatal ("open " +:+ path +:+ ": no such file or directory")
  | Some text =>
      let '(lines, err) := bufio.Scan text in
      match err with
      | Some msg => Fatal msg
      | None => Ok lines
      end
  end.

(** How the loops of [WriteLogsToFile] end: at the end of their slice, or
    in a panic; [wr] is what has been printed to the writer by then. *)
Inductive Written :=
  | Done (wr : list string)
  | Panicked (msg : string) (wr : list string).

(** The inner loop of [WriteLogsToFile]: one indented trace line per entry. *)
Fixpoint WriteLogsToFile_infos (infos : list LogInfo) (wr : list string)
    : Written :=
  match infos with
  | [] => Done wr
  | info :: rest =>
      (* go uses tabs for indentation *)
      match strings.Repeat tab (GoInt.sub (Col info) 1) with
      | Ok indent =>
          let logLine := indent +:+ Log info in
          WriteLogsToFile_infos rest (wr ++ [logLine])
      | Fatal msg | Panic msg => Panicked msg wr
      end
  end.

(** The outer loop: [idx] is the index of the first line of [contents] in
    the file. *)
Fixpoint WriteLogsToFile_loop (logs : gmap Z (list LogInfo)) (idx : Z)
    (contents : list string) (wr : list string) : Written :=
  match contents with
  | [] => Done wr
  | line :: rest =>
      match (match logs !! GoInt.add idx 1 with
             | Some infos => WriteLogsToFile_infos infos wr
             | None => Done wr
             end) with
      | Done wr => WriteLogsToFile_loop logs (idx + 1) rest (wr ++ [line])
      | Panicked msg wr => Panicked msg wr
      end
  end.

(** The world in which the file at [path] holds [lines]. *)
Definition store (path : string) (lines : list string) (w : World) : World :=
  MkWorld (<[path := lines]> (files w)) (denied w) (stdout w) (full w).

(** [os.Create] truncates the file; from then on it holds what the writer
    has passed on.  A panic in the loop ends the run before [Flush]. *)
Definition WriteLogsToFile (path : string) (contents : list string)
    (logs : gmap Z (list LogInfo)) (w : World) : Outcome :=
  if bool_decide (path ∈ denied w)
  then Exited ("open " +:+ path +:+ ": permission denied") w
  else
    let wr := bufio.NewWriter (negb (bool_decide (path ∈ full w))) in
    match WriteLogsToFile_loop logs 0 contents [] with
    | Panicked msg out =>
        Crashed msg (store path (bufio.on_file (bufio.printed wr out) out) w)
    | Done out =>
        let wr := bufio.Flush (bufio.printed wr out) in
        if bufio.failed wr
        then Exited ("write " +:+ path +:+ ": no space left on device")
                    (store path (bufio.on_file wr out) w)
        else Finished (store path (bufio.on_file wr out) w)
    end.

Definition GetNewPath (path : string) : string :=
  let name := filepath.Base path in
  let dir := filepath.Dir path in
  let newName := "debug_" +:+ name in
  dir +:+ "/" +:+ newName.

Definition print (s : string) (w : World) : World :=
  MkWorld (files w) (denied w) (stdout w ++ [s]) (full w).

Definition AddLogsToFile (root : ast.File) (fset : token.FileSet)
    (filePath : string) (w : World) : Outcome :=
  match GetAllFuncInfo root fset with
  | Fatal msg => Exited msg w
  | Panic msg => Crashed msg w
  | Ok allFuncInfo =>
      match GenerateLogs allFuncInfo with
      | Fatal msg => Exited msg w
      | Panic msg => Crashed msg w
      | Ok logs =>
          let newFilePath := GetNewPath filePath in
          let w := print (nl +:+ nl +:+ "old path: " +:+ filePath +:+ ", new path: "
                            +:+ newFilePath +:+ nl +:+ nl) w in
          match ReadFileLines filePath w with
          | Fatal msg => Exited msg w
          | Panic msg => Crashed msg w
          | Ok contents =>
              match WriteLogsToFile newFilePath contents logs w with
              | Finished w => Finished (print ("finished writing to file" +:+ nl) w)
              | other => other
              end
          end
      end
  end.

(** ** Notions of the specification *)

(** The [return] statements among the nodes of a traversal. *)
Definition returns_in (l : list ast.Node) : list ast.Node :=
  filter (fun n => ast.is_ReturnStmt n = true) l.

(** What [ast.Inspect] visits before it reaches the body: the type
    expressions of the receiver, type parameters, parameters and results. *)
Definition signature_nodes (fn : ast.FuncDecl) : list ast.Node :=
  ast.FieldList_nodes (ast.Recv fn) ++ ast.FuncType_nodes (ast.FType fn).

Definition last_is_return (body : ast.BlockStmt) : bool :=
  match last (ast.Stmts body) with
  | Some s => ast.is_ReturnStmt s
  | None => false
  end.

(** A field that binds several names, as in [a, b int]. *)
Definition grouped (f : ast.Field) : bool := 1 <? GoInt.len (ast.Names f).

Definition FieldList_grouped (fl : option ast.FieldList) : bool :=
  match fl with
  | Some l => existsb grouped (ast.List l)
  | None => false
  end.

Definition has_grouped_field (fn : ast.FuncDecl) : bool :=
  match ast.FType fn with
  | Some t => FieldList_grouped (ast.Params t) || FieldList_grouped (ast.Results t)
  | None => false
  end.

(** The declarations that are recorded: functions with a valid body. *)
Definition recordable (d : ast.Decl) : bool :=
  match d with
  | ast.FuncDeclD fn => IsFuncBodyValid (ast.Body fn)
  | ast.GenDecl _ => false
  end.

(** [logs[n]] read as a slice: empty when the key is missing. *)
Definition logs_at (logs : gmap Z (list LogInfo)) (n : Z) : list LogInfo :=
  default [] (logs !! n).

(** The trace lines in the order in which [GenerateLogs] makes them:
    functions in declaration order, the entry trace of a function before
    its exit traces. *)
Inductive Trace :=
  | EntryTrace (info : FuncInfo)
  | ExitTrace (info : FuncInfo) (p : token.Position).

Definition traces_of (info : FuncInfo) : list Trace :=
  EntryTrace info :: map (ExitTrace info) (ExitLogPos info).

Definition generation_order (fnInfo : list FuncInfo) : list Trace :=
  flat_map traces_of fnInfo.

(** The original line before which a trace is inserted. *)
Definition trace_line (t : Trace) : Z :=
  match t with
  | EntryTrace info => token.Line (EntryLogPos info)
  | ExitTrace _ p => token.Line p
  end.

Definition exit_text (name : string) (line : Z) : string :=
  "fmt.Println(" +:+ dquote +:+ "Exiting func " +:+ name
    +:+ " from line " +:+ fmt_d line +:+ dquote +:+ ")".

(** The [k]-th trace of the generation order (counting from 0), with the
    line number of an exit computed by [plus] from the raw line and the
    number [k] of traces made before it. *)
Definition render_with (plus : Z -> Z -> Z) (k : nat) (t : Trace) : LogInfo :=
  match t with
  | EntryTrace info => GetEntryLogInfo info
  | ExitTrace info p =>
      MkLogInfo (exit_text (Name info) (plus (token.Line p) (Z.of_nat k)))
                (token.Column p)
  end.

(** The compensated line number of the specification: raw line plus the
    number of traces generated so far. *)
Definition displayed : nat -> Trace -> LogInfo := render_with Z.add.

(** Each trace with its line and its text, the first one numbered [k]. *)
Fixpoint numbered_from (render : nat -> Trace -> LogInfo) (k : nat)
    (ts : list Trace) : list (Z * LogInfo) :=
  match ts with
  | [] => []
  | t :: ts' => (trace_line t, render k t) :: numbered_from render (S k) ts'
  end.

Definition numbered (render : nat -> Trace -> LogInfo) (ts : list Trace)
    : list (Z * LogInfo) :=
  numbered_from render 0 ts.

(** The traces attached to line [n], in generation order. *)
Definition line_index (evs : list (Z * LogInfo)) (n : Z) : list LogInfo :=
  map snd (filter (fun e => e.1 = n) evs).

(** No compensated line number leaves the range of [int]. *)
Fixpoint fits_from (k : nat) (ts : list Trace) : bool :=
  match ts with
  | [] => true
  | t :: ts' =>
      match t with
      | EntryTrace _ => true
      | ExitTrace _ p => GoInt.is_intb (token.Line p + Z.of_nat k)
      end && fits_from (S k) ts'
  end.

Definition fits_int (fnInfo : list FuncInfo) : bool :=
  fits_from 0 (generation_order fnInfo).

(** The line index built from a sequence of traces. *)
Definition add_event (logs : gmap Z (list LogInfo)) (e : Z * LogInfo)
    : gmap Z (list LogInfo) :=
  append_log logs e.1 e.2.

Definition index_into (logs : gmap Z (list LogInfo)) (evs : list (Z * LogInfo))
    : gmap Z (list LogInfo) :=
  fold_left add_event evs logs.

(** A trace line as the merger writes it: [Col - 1] tabs, then the text. *)
Definition indent_line (l : LogInfo) : string :=
  strings.repeat_nat tab (Z.to_nat (Col l - 1)) +:+ Log l.

(** The merged file: before each line its traces, in the order of the
    index, then the line itself; [n] is the number of the first line. *)
Fixpoint merged_from (logs : gmap Z (list LogInfo)) (n : Z)
    (contents : list string) : list string :=
  match contents with
  | [] => []
  | line :: rest =>
      map indent_line (logs_at logs n) ++ line :: merged_from logs (n + 1) rest
  end.

Definition merged (logs : gmap Z (list LogInfo)) (contents : list string)
    : list string :=
  merged_from logs 1 contents.

(** Columns the merger can indent: at least 1 and an [int]. *)
Definition col_ok (l : LogInfo) : bool := (1 <=? Col l) && (Col l <=? GoInt.max_int).

Fixpoint cols_ok_from (logs : gmap Z (list LogInfo)) (n : Z)
    (contents : list string) : bool :=
  match contents with
  | [] => true
  | _ :: rest => forallb col_ok (logs_at logs n) && cols_ok_from logs (n + 1) rest
  end.

Definition cols_ok (logs : gmap Z (list LogInfo)) (contents : list string) : bool :=
  cols_ok_from logs 1 contents.

(** The name a field contributes: its single name, or the empty
    placeholder of an unnamed parameter. *)
Definition field_name (f : ast.Field) : string :=
  match ast.Names f with
  | id :: _ => ast.Name id
  | [] => ""
  end.

Definition param_names (fl : option ast.FieldList) : list string :=
  match fl with
  | Some l => map field_name (ast.List l)
  | None => []
  end.

Definition node_position (fset : token.FileSet) (n : ast.Node) : token.Position :=
  token.FileSet_Position fset (ast.Node_Pos n).

(** The record of a function with a valid body, field by field. *)
Definition record_name (fn : ast.FuncDecl) : string :=
  match ast.FName fn with Some id => ast.Name id | None => "" end.

Definition record_params (fn : ast.FuncDecl) : list string :=
  match ast.FType fn with Some t => param_names (ast.Params t) | None => [] end.

Definition record_returns (fn : ast.FuncDecl) : list string :=
  match ast.FType fn with Some t => param_names (ast.Results t) | None => [] end.

Definition entry_position (fset : token.FileSet) (body : ast.BlockStmt)
    : token.Position :=
  match ast.Stmts body with
  | [] => token.FileSet_Position fset (ast.Lbrace body)
  | first :: _ => node_position fset first
  end.

Definition synthetic_exit (fset : token.FileSet) (body : ast.BlockStmt)
    : token.Position :=
  let rbrace := token.FileSet_Position fset (ast.Rbrace body) in
  match last (ast.Stmts body) with
  | None => rbrace
  | Some s => token.with_Column rbrace (token.Column (node_position fset s))
  end.

Definition exit_positions (fset : token.FileSet) (fn : ast.FuncDecl)
    (body : ast.BlockStmt) : list token.Position :=
  let exits := FindReturnStmts fn fset in
  if (GoInt.len exits =? 0) || negb (last_is_return body)
  then exits ++ [synthetic_exit fset body] else exits.

Definition record_of (fset : token.FileSet) (fn : ast.FuncDecl)
    (body : ast.BlockStmt) : FuncInfo :=
  MkFuncInfo (record_name fn) (record_params fn) (record_returns fn)
    (entry_position fset body) (exit_positions fset fn body).

(** The records a declaration contributes: one for a function with a valid
    body, none otherwise. *)
Definition records_of (fset : token.FileSet) (d : ast.Decl) : list FuncInfo :=
  match d with
  | ast.FuncDeclD fn =>
      match ast.Body fn with
      | Some body => if IsFuncBodyValid (ast.Body fn) then [record_of fset fn body] else []
      | None => []
      end
  | ast.GenDecl _ => []
  end.

(** The declarations on which the run stops: a function with a valid body
    and a grouped parameter or result. *)
Definition aborts (d : ast.Decl) : bool :=
  match d with
  | ast.FuncDeclD fn => IsFuncBodyValid (ast.Body fn) && has_grouped_field fn
  | ast.GenDecl _ => false
  end.

Definition concat_strings (l : list string) : string := foldr String.app "" l.

(** The parameters an entry trace can print: those with a name. *)
Definition named_params (params : list string) : list string :=
  filter (fun p => p <> "") params.

(** The text of the entry trace of a function, given its printable
    parameters: a plain print without them, a formatted print with one
    [verb] placeholder for each otherwise. *)
Definition entry_text (verb name : string) (named : list string) : string :=
  match named with
  | [] => "fmt.Println(" +:+ dquote +:+ "Starting func " +:+ name +:+ dquote +:+ ")"
  | _ :: _ =>
      "fmt.Printf(" +:+ dquote +:+ "Starting func " +:+ name +:+ " with values: "
        +:+ strings.Join (map (fun p => p +:+ ": " +:+ verb) named) ", "
        +:+ "\n" +:+ dquote +:+ ", " +:+ strings.Join named "," +:+ ")"
  end.

(** The texts that start an entry trace and an exit trace. *)
Definition entry_println : string := "fmt.Println(" +:+ dquote +:+ "Starting func ".
Definition entry_printf : string := "fmt.Printf(" +:+ dquote +:+ "Starting func ".
Definition exit_println : string := "fmt.Println(" +:+ dquote +:+ "Exiting func ".

Definition is_entry_text (s : string) : bool :=
  strings.HasPrefix s entry_println || strings.HasPrefix s entry_printf.

Definition entries_in (infos : list LogInfo) : nat :=
  length (filter (fun l => is_entry_text (Log l) = true) infos).

(** The number of entry traces in a line index. *)
Definition entry_count (logs : gmap Z (list LogInfo)) : nat :=
  sum_list_with (fun kv => entries_in kv.2) (map_to_list logs).

(** A text that starts like a generated trace. *)
Definition starts_like_trace (s : string) : bool :=
  strings.HasPrefix s entry_println || strings.HasPrefix s entry_printf
  || strings.HasPrefix s exit_println.

(** [s] without its leading tabs. *)
Fixpoint trim_tabs (s : string) : string :=
  match s with
  | EmptyString => ""
  | String c s' => if Ascii.eqb c (ascii_of_nat 9) then trim_tabs s' else s
  end.

(** The lines matching the generated entry and exit patterns: indentation
    by tabs, then the start of an entry or an exit trace. *)
Definition is_trace_line (s : string) : bool := starts_like_trace (trim_tabs s).

(** Removing every line that matches a trace pattern. *)
Definition strip_traces (lines : list string) : list string :=
  filter (fun l => is_trace_line l = false) lines.

(** What a successful parse guarantees.  A file of the set starts at a
    positive base, fits the range of [int] and has a line table that begins
    at offset 0.  Its line directives lie inside the file and carry a line
    of at least 1 and a column that is 0 (none given) or positive; the
    scanner caps both at [2 ^ 30], so that no column computed from one
    leaves the range of [int].  The braces of a body and every node of a
    function declaration sit at positions of the parsed file. *)
Definition wf_lineInfo (f : token.File) (a : token.lineInfo) : bool :=
  (0 <=? token.InfoOffset a) && (token.InfoOffset a <? token.size f)
  && (1 <=? token.InfoLine a) && (0 <=? token.InfoColumn a)
  && (token.InfoColumn a + token.size f <=? GoInt.max_int).

Definition wf_File (f : token.File) : bool :=
  (1 <=? token.base f) && (0 <=? token.size f)
  && (token.base f + token.size f <=? GoInt.max_int)
  && match token.lines f with 0 :: _ => true | _ => false end
  && forallb (fun x => 0 <=? x) (token.lines f)
  && forallb (wf_lineInfo f) (token.infos f).

Definition wf_FileSet (fset : token.FileSet) : bool :=
  forallb wf_File (token.files fset).

Definition in_file (fset : token.FileSet) (p : token.Pos) : bool :=
  negb (p =? token.NoPos)
  && match token.FileSet_file fset p with Some _ => true | None => false end.

Definition positions_valid (fset : token.FileSet) (d : ast.Decl) : bool :=
  match d with
  | ast.FuncDeclD fn =>
      match ast.Body fn with
      | Some body =>
          in_file fset (ast.Lbrace body) && in_file fset (ast.Rbrace body)
          && forallb (fun n => in_file fset (ast.Node_Pos n)) (ast.Inspect fn)
      | None => true
      end
  | ast.GenDecl _ => true
  end.

Definition parsed (root : ast.File) (fset : token.FileSet) : bool :=
  wf_FileSet fset && forallb (positions_valid fset) (ast.Decls root).

(** Every line directive of the file set gives a column, as in
    [//line file:line:col]; a file without directives is the usual case. *)
Definition directive_columns (fset : token.FileSet) : bool :=
  forallb (fun f => forallb (fun a => negb (token.InfoColumn a =? 0)) (token.infos f))
          (token.files fset).

Definition column_ok (c : Z) : bool := (1 <=? c) && (c <=? GoInt.max_int).

Definition trace_column (t : Trace) : Z :=
  match t with
  | EntryTrace info => token.Column (EntryLogPos info)
  | ExitTrace _ p => token.Column p
  end.

(** ** Notions about paths *)

(** A path element: it holds no separator. *)
Fixpoint no_slash (s : string) : bool :=
  match s with
  | EmptyString => true
  | String c s' => filepath.no_sep c && no_slash s'
  end.

(** A path that can name a file: not empty, not ending in a separator. *)
Definition is_file_path (path : string) : bool :=
  match filepath.rev_list path with
  | c :: _ => filepath.no_sep c
  | [] => false
  end.

(** The part of a path up to and including its last separator: what
    [filepath.Dir] cleans. *)
Definition dir_part (path : string) : string :=
  String.string_of_list_ascii
    (rev (filepath.drop_while filepath.no_sep (filepath.rev_list path))).

(** The part after the last separator. *)
Definition last_elem (path : string) : string :=
  String.string_of_list_ascii
    (rev (filepath.take_while filepath.no_sep (filepath.rev_list path))).

(** An element [Clean] keeps as it is. *)
Definition real_elem (e : string) : bool :=
  negb (String.eqb e "") && negb (String.eqb e ".") && negb (String.eqb e "..")
  && no_slash e.

(** The shape of the elements [Clean] has kept, last one first: elements
    kept as they are above a run of [..], and no [..] in a rooted path. *)
Definition normal_stack (rooted : bool) (out : list string) : Prop :=
  exists reals n,
    out = reals ++ replicate n ".."
    /\ forallb real_elem reals = true
    /\ (rooted = true -> n = 0%nat).

(** ** Sample inputs *)

Module Examples.
(** {[
package main

func A(x int) {
	if x == 5 {
		return
	}
	println(x)
}
   ]} *)
Definition early_return_fset : token.FileSet :=
  token.MkFileSet [token.MkFile "a.go" 1 69 [0; 13; 14; 30; 43; 52; 55; 67] []].

Definition early_return_lines : list string :=
  [ "package main"; ""; "func A(x int) {";
    tab +:+ "if x == 5 {"; tab +:+ tab +:+ "return"; tab +:+ "}";
    tab +:+ "println(x)"; "}" ].

Definition int_type (p : token.Pos) : option ast.Node :=
  Some (ast.MkNode ast.IdentK p []).

Definition early_return_decl : ast.FuncDecl :=
  ast.MkFuncDecl None (Some (ast.MkIdent 20 "A"))
    (Some (ast.MkFuncType 15 None
             (Some (ast.MkFieldList [ast.MkField [ast.MkIdent 22 "x"] (int_type 24)]))
             None))
    (Some (ast.MkBlockStmt 29
             [ ast.MkNode ast.IfStmt 32
                 [ ast.MkNode ast.OtherNode 35
                     [ast.MkNode ast.IdentK 35 []; ast.MkNode ast.BasicLit 40 []];
                   ast.MkNode ast.BlockStmtK 42 [ast.MkNode ast.ReturnStmt 46 []] ];
               ast.MkNode ast.ExprStmt 57
                 [ast.MkNode ast.CallExpr 57
                    [ast.MkNode ast.IdentK 57 []; ast.MkNode ast.IdentK 65 []]] ]
             68)).

Definition early_return_body : ast.BlockStmt :=
  default (ast.MkBlockStmt 0 [] 0) (ast.Body early_return_decl).

Definition early_return_root : ast.File :=
  ast.MkFile [ast.GenDecl 0; ast.FuncDeclD early_return_decl].

Definition early_return_info : FuncInfo :=
  MkFuncInfo "A" ["x"] []
    (token.MkPosition "a.go" 31 4 2)
    [token.MkPosition "a.go" 45 5 3; token.MkPosition "a.go" 67 8 2].

(** {[
package main

func f() {}
   ]} *)
Definition empty_body_fset : token.FileSet :=
  token.MkFileSet [token.MkFile "b.go" 1 26 [0; 13; 14] []].

Definition empty_body_block : ast.BlockStmt := ast.MkBlockStmt 24 [] 25.

Definition empty_body_decl : ast.FuncDecl :=
  ast.MkFuncDecl None (Some (ast.MkIdent 20 "f"))
    (Some (ast.MkFuncType 15 None (Some (ast.MkFieldList [])) None))
    (Some empty_body_block).

Definition empty_body_info : FuncInfo :=
  MkFuncInfo "f" [] []
    (token.MkPosition "b.go" 23 3 10) [token.MkPosition "b.go" 24 3 11].

(** {[
package main

func add(a, b int) int {
	return a + b
}
   ]} *)
Definition grouped_fset : token.FileSet :=
  token.MkFileSet [token.MkFile "c.go" 1 54 [0; 13; 14; 39; 53] []].

Definition grouped_decl : ast.FuncDecl :=
  ast.MkFuncDecl None (Some (ast.MkIdent 20 "add"))
    (Some (ast.MkFuncType 15 None
             (Some (ast.MkFieldList
                      [ast.MkField [ast.MkIdent 24 "a"; ast.MkIdent 27 "b"] (int_type 29)]))
             (Some (ast.MkFieldList [ast.MkField [] (int_type 34)]))))
    (Some (ast.MkBlockStmt 38
             [ast.MkNode ast.ReturnStmt 41
                [ast.MkNode ast.OtherNode 48
                   [ast.MkNode ast.IdentK 48 []; ast.MkNode ast.IdentK 52 []]]]
             54)).

Definition grouped_root : ast.File :=
  ast.MkFile [ast.GenDecl 0; ast.FuncDeclD grouped_decl].

Definition grouped_world : World :=
  MkWorld {[ "c.go" := ["package main"; ""; "func add(a, b int) int {";
                        tab +:+ "return a + b"; "}"] ]} ∅ [] ∅.

(** The line index of the first sample. *)
Definition early_return_logs : gmap Z (list LogInfo) :=
  index_into ∅ (numbered displayed (generation_order [early_return_info])).

Definition early_return_world : World :=
  MkWorld {[ "a.go" := early_return_lines ]} ∅ [] ∅.

(** [func Add(a int, b int) int { return a + b }], on line 3. *)
Definition add_info : FuncInfo :=
  MkFuncInfo "Add" ["a"; "b"] [""]
    (token.MkPosition "d.go" 45 4 2) [token.MkPosition "d.go" 45 4 2].

(** [func Log(string, level int) { }]: the first parameter is unnamed. *)
Definition unnamed_params : ast.FieldList :=
  ast.MkFieldList [ast.MkField [] (int_type 23);
                   ast.MkField [ast.MkIdent 31 "level"] (int_type 37)].

Definition run_result (o : Outcome) (w : World) : World :=
  match o with Finished w' => w' | _ => w end.

Definition early_return_result : World :=
  run_result (AddLogsToFile early_return_root early_return_fset "a.go" early_return_world)
             early_return_world.

(** A file that already prints what an entry trace prints:
    {[
package main

import "fmt"

func f() {
	fmt.Println("Starting func f")
}
    ]} *)
Definition traced_fset : token.FileSet :=
  token.MkFileSet [token.MkFile "e.go" 1 73 [0; 13; 14; 27; 28; 39; 71] []].

Definition traced_lines : list string :=
  [ "package main"; ""; "import " +:+ dquote +:+ "fmt" +:+ dquote; "";
    "func f() {";
    tab +:+ "fmt.Println(" +:+ dquote +:+ "Starting func f" +:+ dquote +:+ ")";
    "}" ].

Definition traced_decl : ast.FuncDecl :=
  ast.MkFuncDecl None (Some (ast.MkIdent 34 "f"))
    (Some (ast.MkFuncType 29 None (Some (ast.MkFieldList [])) None))
    (Some (ast.MkBlockStmt 38
             [ast.MkNode ast.ExprStmt 41
                [ast.MkNode ast.CallExpr 41
                   [ast.MkNode ast.OtherNode 41 []; ast.MkNode ast.BasicLit 53 []]]]
             72)).

Definition traced_root : ast.File :=
  ast.MkFile [ast.GenDecl 15; ast.FuncDeclD traced_decl].

Definition traced_world : World := MkWorld {[ "e.go" := traced_lines ]} ∅ [] ∅.

Definition traced_result : World :=
  run_result (AddLogsToFile traced_root traced_fset "e.go" traced_world) traced_world.
End Examples.


(** ** The entry point *)

Section EntryPoint.
(** [parser.ParseFile] on a fresh file set: the tree and the file set it
    filled, or the error it reports. *)
Variable ParseFile : string -> World -> (ast.File * token.FileSet) + string.

Definition GenerateAST (fileName : string) (w : World)
    : Result (ast.File * token.FileSet) :=
  match ParseFile fileName w with
  | inl tree => Ok tree
  | inr err => Fatal err
  end.

(** [args] is [os.Args]: the program name, then the arguments. *)
Definition main (args : list string) (w : World) : Outcome :=
  match args !! 2%nat with
  | None => Crashed "index out of range" w
  | Some fileName =>
      match GenerateAST fileName w with
      | Ok (root, fset) => AddLogsToFile root fset fileName w
      | Fatal msg => Exited msg w
      | Panic msg => Crashed msg w
      end
  end.
End EntryPoint.

(** ** Further notions *)

(** The number of traces the merger meets on the lines numbered from [n]. *)
Fixpoint traces_within (logs : gmap Z (list LogInfo)) (n : Z)
    (contents : list string) : nat :=
  match contents with
  | [] => 0
  | _ :: rest => length (logs_at logs n) + traces_within logs (n + 1) rest
  end%nat.

(** The number of traces stored in a line index. *)
Definition stored (logs : gmap Z (list LogInfo)) : nat :=
  sum_list_with (fun kv => length kv.2) (map_to_list logs).

(** The size of the text of [out] in bytes: every line and its newline. *)
Definition text_size (out : list string) : Z :=
  foldr (fun line acc => Z.of_nat (String.length line) + 1 + acc) 0 out.

(** A writer without error whose buffer is within its size. *)
Definition writer_ok (b : bufio.Writer) : Prop :=
  bufio.failed b = false /\ 0 <= bufio.buffered b <= bufio.defaultBufSize.

(** A text every line of which fits the buffer of a [Scanner]. *)
Definition scannable (text : list string) : bool :=
  forallb (fun line => Z.of_nat (String.length line) <? bufio.MaxScanTokenSize) text.

(** Line numbers that never decrease. *)
Fixpoint nondecreasing (l : list Z) : bool :=
  match l with
  | [] => true
  | x :: rest =>
      match rest with
      | [] => true
      | y :: _ => (x <=? y) && nondecreasing rest
      end
  end.

(** Every trace sits on a line of a file of [len] lines and has a column
    the merger can indent. *)
Definition traces_in_file (len : Z) (ts : list Trace) : bool :=
  forallb (fun t => (1 <=? trace_line t) && (trace_line t <=? len)
                    && column_ok (trace_column t)) ts.

(** The events of the lines numbered [n] and up woven into [contents]:
    before each line the events that carry its number. *)
Fixpoint weave (n : Z) (contents : list string) (evs : list (Z * LogInfo))
    : list string :=
  match contents with
  | [] => []
  | line :: rest =>
      map (fun e => indent_line e.2)
          (filepath.take_while (fun e => e.1 =? n) evs)
        ++ line :: weave (n + 1) rest (filepath.drop_while (fun e => e.1 =? n) evs)
  end.

Module MoreExamples.
(** A parser that knows the first sample only. *)
Definition sample_parser (fileName : string) (w : World)
    : (ast.File * token.FileSet) + string :=
  if String.eqb fileName "a.go"
  then inl (Examples.early_return_root, Examples.early_return_fset)
  else inr ("open " +:+ fileName +:+ ": no such file or directory").

(** An index with a trace on a line the file does not have, and one whose
    column is the zero value of an unresolved position. *)
Definition stray_logs : gmap Z (list LogInfo) :=
  <[99 := [MkLogInfo (exit_text "A" 99) 2]]> Examples.early_return_logs.

Definition zero_column_logs : gmap Z (list LogInfo) :=
  {[ 2 := [MkLogInfo (exit_text "A" 2) 0] ]}.

(** A file of declarations without any function body. *)
Definition no_body_root : ast.File :=
  ast.MkFile [ast.GenDecl 15;
              ast.FuncDeclD (ast.MkFuncDecl None (Some (ast.MkIdent 20 "asm"))
                               (Some (ast.MkFuncType 15 None None None)) None)].

(** A [return] inside the signature, in a function literal that gives the
    length of an array type:
    {[
package main

func f(a [func() int { return 1 }()]int) {
	g()
}
    ]} *)
Definition signature_return_fset : token.FileSet :=
  token.MkFileSet [token.MkFile "s.go" 1 64 [0; 13; 14; 57; 62] []].

Definition signature_return_body : ast.BlockStmt :=
  ast.MkBlockStmt 56
    [ast.MkNode ast.ExprStmt 59
       [ast.MkNode ast.CallExpr 59 [ast.MkNode ast.IdentK 59 []]]]
    63.

Definition signature_return_decl : ast.FuncDecl :=
  ast.MkFuncDecl None (Some (ast.MkIdent 20 "f"))
    (Some (ast.MkFuncType 15 None
             (Some (ast.MkFieldList
                      [ast.MkField [ast.MkIdent 22 "a"]
                         (Some (ast.MkNode ast.ArrayType 24
                                  [ ast.MkNode ast.CallExpr 25
                                      [ast.MkNode ast.FuncLit 25
                                         [ ast.MkNode ast.OtherNode 25
                                             [ast.MkNode ast.IdentK 32 []];
                                           ast.MkNode ast.BlockStmtK 36
                                             [ast.MkNode ast.ReturnStmt 38
                                                [ast.MkNode ast.BasicLit 45 []]] ]];
                                    ast.MkNode ast.IdentK 51 [] ]))]))
             None))
    (Some signature_return_body).

(** A line directive without a column:
    {[
package p
//line l2.go:1
func f() {
	g()
}
    ]} *)
Definition directive_fset : token.FileSet :=
  token.MkFileSet
    [token.MkFile "l2.go" 1 43 [0; 10; 25; 36; 41]
       [token.MkLineInfo 25 "l2.go" 1 0]].

Definition directive_lines : list string :=
  [ "package p"; "//line l2.go:1"; "func f() {"; tab +:+ "g()"; "}" ].

Definition directive_decl : ast.FuncDecl :=
  ast.MkFuncDecl None (Some (ast.MkIdent 31 "f"))
    (Some (ast.MkFuncType 26 None (Some (ast.MkFieldList [])) None))
    (Some (ast.MkBlockStmt 35
             [ast.MkNode ast.ExprStmt 38
                [ast.MkNode ast.CallExpr 38 [ast.MkNode ast.IdentK 38 []]]]
             42)).

Definition directive_root : ast.File := ast.MkFile [ast.FuncDeclD directive_decl].

Definition directive_world : World :=
  MkWorld {[ "l2.go" := directive_lines ]} ∅ [] ∅.

(** The same file with a column in the directive: [//line l2.go:1:1]. *)
Definition directive_column_fset : token.FileSet :=
  token.MkFileSet
    [token.MkFile "l3.go" 1 45 [0; 10; 27; 38; 43]
       [token.MkLineInfo 27 "l2.go" 1 1]].

Definition directive_column_decl : ast.FuncDecl :=
  ast.MkFuncDecl None (Some (ast.MkIdent 33 "f"))
    (Some (ast.MkFuncType 28 None (Some (ast.MkFieldList [])) None))
    (Some (ast.MkBlockStmt 37
             [ast.MkNode ast.ExprStmt 40
                [ast.MkNode ast.CallExpr 40 [ast.MkNode ast.IdentK 40 []]]]
             44)).

Definition directive_column_root : ast.File :=
  ast.MkFile [ast.FuncDeclD directive_column_decl].

Definition directive_column_lines : list string :=
  [ "package p"; "//line l2.go:1:1"; "func f() {"; tab +:+ "g()"; "}" ].

(** A file with a line of [64 * 1024] bytes, one with lines that end in a
    carriage return, and the first sample on a device without room. *)
Definition long_line_world : World :=
  MkWorld {[ "long.go" := ["package p";
                           "// " +:+ strings.repeat_nat "x" (Z.to_nat (64 * 1024 - 3))] ]}
          ∅ [] ∅.

Definition crlf_world : World :=
  MkWorld {[ "w.go" := ["package p" +:+ bufio.cr; bufio.cr; "var x = 1" +:+ bufio.cr] ]}
          ∅ [] ∅.

Definition full_world : World :=
  MkWorld {[ "a.go" := Examples.early_return_lines ]} ∅ [] {[ "./debug_a.go" ]}.

(** The world after the merger has written the first sample. *)
Definition merged_world : World :=
  Examples.run_result
    (WriteLogsToFile "./debug_a.go" Examples.early_return_lines
       Examples.early_return_logs Examples.early_return_world)
    Examples.early_return_world.
End MoreExamples.

(** * Properties *)

(** ** Arithmetic of [int] *)

Section GoIntFacts.
Import GoInt.

Lemma wrap_small z : is_int z -> wrap z = z.
Proof.
  unfold is_int, min_int, max_int, wrap. intros H.
  rewrite Z.mod_small; lia.
Qed.

Lemma add_small a b : is_int (a + b) -> add a b = a + b.
Proof. apply wrap_small. Qed.

Lemma sub_small a b : is_int (a - b) -> sub a b = a - b.
Proof. apply wrap_small. Qed.

Lemma is_intb_spec z : is_intb z = true <-> is_int z.
Proof. unfold is_intb, is_int. rewrite andb_true_iff. lia. Qed.

(** A wrapped counter can be added as if it had not wrapped. *)
Lemma add_wrap_r a b : add a (wrap b) = add a b.
Proof.
  unfold add, wrap.
  replace (a + ((b + 2 ^ 63) mod 2 ^ 64 - 2 ^ 63) + 2 ^ 63)
    with (a + (b + 2 ^ 63) mod 2 ^ 64) by lia.
  rewrite Zplus_mod_idemp_r. f_equal. f_equal. lia.
Qed.

Lemma add_wrap_l a b : add (wrap a) b = wrap (a + b).
Proof.
  unfold add, wrap.
  replace ((a + 2 ^ 63) mod 2 ^ 64 - 2 ^ 63 + b + 2 ^ 63)
    with ((a + 2 ^ 63) mod 2 ^ 64 + b) by lia.
  rewrite Zplus_mod_idemp_l. f_equal. f_equal. lia.
Qed.

Lemma wrap_0 : wrap 0 = 0.
Proof. reflexivity. Qed.
End GoIntFacts.

(** ** Strings *)

Section StringFacts.
Lemma str_app_cons c (s t : string) : String c s +:+ t = String c (s +:+ t).
Proof. reflexivity. Qed.

Lemma str_app_nil_l (s : string) : "" +:+ s = s.
Proof. reflexivity. Qed.

Lemma str_app_nil_r (s : string) : s +:+ "" = s.
Proof. induction s; [done |]. rewrite str_app_cons. by f_equal. Qed.

Lemma str_app_assoc (a b c : string) : (a +:+ b) +:+ c = a +:+ (b +:+ c).
Proof. induction a; [done |]. rewrite !str_app_cons. by f_equal. Qed.

Lemma str_length_app (a b : string) :
  String.length (a +:+ b) = (String.length a + String.length b)%nat.
Proof. induction a; [done |]. rewrite str_app_cons. simpl. by f_equal. Qed.

Lemma HasPrefix_app (p s : string) : strings.HasPrefix (p +:+ s) p = true.
Proof.
  induction p as [|c p IH]; [done |].
  rewrite str_app_cons. simpl. by rewrite Ascii.eqb_refl.
Qed.

Lemma rev_app_app (a b acc : string) :
  String.rev_app (a +:+ b) acc = String.rev_app b (String.rev_app a acc).
Proof.
  revert acc. induction a; intros; [done |].
  rewrite str_app_cons. simpl. by rewrite IHa.
Qed.

Lemma rev_app_acc (a acc : string) :
  String.rev_app a acc = String.rev_app a "" +:+ acc.
Proof.
  revert acc. induction a as [|c a IH]; intros acc; simpl; [done |].
  rewrite (IH (String c acc)), (IH (String c "")), str_app_assoc. done.
Qed.

Lemma str_rev_app_distr (a b : string) :
  String.rev (a +:+ b) = String.rev b +:+ String.rev a.
Proof. unfold String.rev. rewrite rev_app_app. apply rev_app_acc. Qed.

Lemma str_take_app (a b : string) : strings.take (String.length a) (a +:+ b) = a.
Proof.
  induction a; [by destruct b |]. rewrite str_app_cons. simpl. by f_equal.
Qed.

Lemma TrimSuffix_app (s suffix : string) :
  strings.TrimSuffix (s +:+ suffix) suffix = s.
Proof.
  unfold strings.TrimSuffix, strings.HasSuffix.
  rewrite str_rev_app_distr, HasPrefix_app, str_length_app.
  replace (String.length s + String.length suffix - String.length suffix)%nat
    with (String.length s) by lia.
  apply str_take_app.
Qed.

Lemma TrimSuffix_empty (suffix : string) : strings.TrimSuffix "" suffix = "".
Proof.
  unfold strings.TrimSuffix.
  case_match; [| done]. by destruct (String.length "" - String.length suffix)%nat.
Qed.
End StringFacts.

(** ** Reading the declarations *)

Section Extraction.
Variable fset : token.FileSet.

Lemma mapR_guarded {A B} (bad : A -> bool) (g : A -> B) msg (f : A -> Result B) xs :
  (forall x, f x = if bad x then Fatal msg else Ok (g x)) ->
  mapR f xs = if existsb bad xs then Fatal msg else Ok (map g xs).
Proof.
  intros Hf. induction xs as [|x xs IH]; simpl; [done |].
  rewrite Hf. destruct (bad x); simpl; [done |].
  rewrite IH. by destruct (existsb bad xs).
Qed.

Lemma ExtractNameFromField_spec field :
  ExtractNameFromField field =
    if grouped field then Fatal "unknown parameter type" else Ok (field_name field).
Proof.
  unfold ExtractNameFromField, grouped, field_name, GoInt.len.
  replace (HasField (Some field) "Names") with true by done.
  replace (HasField (Some field) "Type") with true by done.
  simpl. destruct (ast.Names field) as [|id [|id' rest]]; simpl; done.
Qed.

Lemma GetParamNames_spec fl :
  GetParamNames fl =
    if FieldList_grouped fl then Fatal "unknown parameter type"
    else Ok (param_names fl).
Proof.
  unfold GetParamNames, FieldList_grouped, param_names.
  destruct fl as [l|]; [| done].
  replace (HasField (Some l) "List") with true by done. simpl.
  destruct (GoInt.len (ast.List l) =? 0) eqn:Hlen.
  - destruct (ast.List l); [done | discriminate].
  - apply mapR_guarded, ExtractNameFromField_spec.
Qed.

(** What [ExtractFuncInfo] answers, case by case. *)
Lemma ExtractFuncInfo_invalid fn :
  IsFuncBodyValid (ast.Body fn) = false ->
  ExtractFuncInfo fn fset = Ok (NewFuncInfo fset, false).
Proof. intros H. unfold ExtractFuncInfo. by rewrite H. Qed.

Lemma ExtractFuncInfo_valid fn body :
  ast.Body fn = Some body ->
  IsFuncBodyValid (ast.Body fn) = true ->
  ExtractFuncInfo fn fset =
    if has_grouped_field fn then Fatal "unknown parameter type"
    else Ok (record_of fset fn body, true).
Proof.
  intros Hbody Hvalid. unfold ExtractFuncInfo. rewrite Hvalid, Hbody. simpl.
  unfold record_of, has_grouped_field, record_params, record_returns.
  destruct (ast.FType fn) as [t|]; simpl.
  - replace (HasField (Some t) "Params") with true by done.
    replace (HasField (Some t) "Results") with true by done.
    rewrite !GetParamNames_spec.
    destruct (FieldList_grouped (ast.Params t)); simpl; [done |].
    destruct (FieldList_grouped (ast.Results t)); simpl; [done |].
    unfold exit_positions, synthetic_exit, entry_position, last_is_return,
      record_name, node_position.
    destruct (last (ast.Stmts body)); simpl; done.
  - unfold exit_positions, synthetic_exit, entry_position, last_is_return,
      record_name, node_position.
    destruct (last (ast.Stmts body)); simpl; done.
Qed.

Lemma ExtractFuncInfo_recorded fn info :
  ExtractFuncInfo fn fset = Ok (info, true) ->
  exists body,
    ast.Body fn = Some body /\ IsFuncBodyValid (ast.Body fn) = true
    /\ has_grouped_field fn = false
    /\ info = record_of fset fn body.
Proof.
  intros H. destruct (IsFuncBodyValid (ast.Body fn)) eqn:Hvalid.
  - destruct (ast.Body fn) as [body|] eqn:Hbody; [| done].
    exists body. rewrite (ExtractFuncInfo_valid fn body) in H by (by rewrite ?Hbody).
    destruct (has_grouped_field fn); [done |]. by simplify_eq.
  - rewrite ExtractFuncInfo_invalid in H by done. done.
Qed.
End Extraction.

(** ** Exit positions *)

Section ExitPositions.
Variable fset : token.FileSet.

Lemma preorder_head n : exists rest, ast.preorder n = n :: rest.
Proof. destruct n as [k p cs]. simpl. eauto. Qed.

Lemma returns_in_app l1 l2 : returns_in (l1 ++ l2) = returns_in l1 ++ returns_in l2.
Proof. apply filter_app. Qed.

Lemma FindReturnStmts_split fn :
  FindReturnStmts fn fset =
    map (node_position fset) (returns_in (signature_nodes fn))
      ++ map (node_position fset) (returns_in (ast.Body_nodes (ast.Body fn))).
Proof.
  unfold FindReturnStmts, ast.Inspect, signature_nodes.
  rewrite <- map_app. f_equal.
  fold (returns_in (ast.FieldList_nodes (ast.Recv fn) ++
                    ast.FuncType_nodes (ast.FType fn) ++ ast.Body_nodes (ast.Body fn))).
  by rewrite !returns_in_app, <- app_assoc.
Qed.

(** A [return] that ends the body is one of the returns found in it. *)
Lemma last_return_found body :
  last_is_return body = true ->
  returns_in (ast.preorder_list (ast.Stmts body)) <> [].
Proof.
  unfold last_is_return. destruct (last (ast.Stmts body)) as [s|] eqn:Hlast; [| done].
  intros Hret. apply last_Some in Hlast as [l' ->].
  unfold ast.preorder_list. rewrite flat_map_app, returns_in_app. simpl.
  destruct (preorder_head s) as [rest ->]. simpl.
  unfold returns_in at 2. rewrite filter_cons_True by done.
  by destruct (returns_in (flat_map ast.preorder l')).
Qed.

(** A recorded function whose signature holds no [return] (none is
    possible without a function literal inside a type expression) gets one
    exit position per [return] statement found anywhere in its body, nested
    blocks included, plus one synthetic exit on the line of the closing
    brace exactly when the body has no [return] or its last top-level
    statement is not a [return]; when the last top-level statement is a
    [return] the exits are the returns and nothing else. *)
Theorem body_exit_count (fn : ast.FuncDecl) (body : ast.BlockStmt) (info : FuncInfo) :
  ast.Body fn = Some body ->
  ExtractFuncInfo fn fset = Ok (info, true) ->
  returns_in (signature_nodes fn) = [] ->
  let returns := returns_in (ast.preorder_list (ast.Stmts body)) in
  let synthetic := Nat.eqb (length returns) 0 || negb (last_is_return body) in
  length (ExitLogPos info) = (length returns + (if synthetic then 1 else 0))%nat
  /\ (synthetic = true ->
      exists p, last (ExitLogPos info) = Some p
        /\ token.Line p = token.Line (token.FileSet_Position fset (ast.Rbrace body)))
  /\ (last_is_return body = true ->
      synthetic = false
      /\ ExitLogPos info = map (node_position fset) returns).
Proof.
  intros Hbody Hrec Hsig returns synthetic.
  apply ExtractFuncInfo_recorded in Hrec as (body' & Hbody' & _ & _ & ->).
  assert (body' = body) as -> by congruence. simpl.
  assert (Hexits : FindReturnStmts fn fset = map (node_position fset) returns).
  { rewrite FindReturnStmts_split, Hsig, Hbody. done. }
  assert (Hsyn : (GoInt.len (FindReturnStmts fn fset) =? 0)
                 || negb (last_is_return body) = synthetic).
  { unfold synthetic. f_equal. rewrite Hexits. unfold GoInt.len.
    rewrite length_map. destruct (length returns); done. }
  unfold exit_positions. rewrite Hsyn, Hexits.
  split; [| split].
  - destruct synthetic; rewrite ?length_app, length_map; simpl; lia.
  - intros ->. exists (synthetic_exit fset body). split.
    + by rewrite last_snoc.
    + unfold synthetic_exit. by destruct (last (ast.Stmts body)).
  - intros Hlast. assert (synthetic = false) as ->; [| done].
    unfold synthetic. rewrite Hlast, orb_false_r.
    pose proof (last_return_found body Hlast) as Hne. fold returns in Hne.
    by destruct returns.
Qed.

(** C6 as amended. A recorded function whose body contains no statements
    has its entry position at the opening brace, and the synthetic exit
    that closes its exit positions is the position of the closing brace
    itself, line and column. *)
Theorem C6_empty_body (fn : ast.FuncDecl) (body : ast.BlockStmt) (info : FuncInfo) :
  ast.Body fn = Some body ->
  ast.Stmts body = [] ->
  ExtractFuncInfo fn fset = Ok (info, true) ->
  EntryLogPos info = token.FileSet_Position fset (ast.Lbrace body)
  /\ ExitLogPos info =
       FindReturnStmts fn fset ++ [token.FileSet_Position fset (ast.Rbrace body)]
  /\ last (ExitLogPos info) = Some (token.FileSet_Position fset (ast.Rbrace body)).
Proof.
  intros Hbody Hempty Hrec.
  apply ExtractFuncInfo_recorded in Hrec as (body' & Hbody' & _ & _ & ->).
  assert (body' = body) as -> by congruence. simpl.
  unfold entry_position, exit_positions, synthetic_exit, last_is_return.
  rewrite Hempty. simpl. rewrite orb_true_r, last_snoc. done.
Qed.
End ExitPositions.

Lemma body_exit_count_witness :
  length (ExitLogPos Examples.early_return_info) = 2%nat.
Proof.
  pose proof (body_exit_count Examples.early_return_fset Examples.early_return_decl
                Examples.early_return_body Examples.early_return_info
                eq_refl eq_refl eq_refl) as [H _].
  exact H.
Defined.

Lemma C6_empty_body_witness :
  EntryLogPos Examples.empty_body_info = token.MkPosition "b.go" 23 3 10
  /\ last (ExitLogPos Examples.empty_body_info)
     = Some (token.MkPosition "b.go" 24 3 11).
Proof.
  pose proof (C6_empty_body Examples.empty_body_fset Examples.empty_body_decl
                Examples.empty_body_block Examples.empty_body_info
                eq_refl eq_refl eq_refl) as (H1 & _ & H3).
  split; [exact H1 | exact H3].
Defined.

(** C1: the code counts more than the returns of the body.
    [FindReturnStmts] inspects the whole declaration, where the comments of
    [ExtractFuncInfo] speak of the return statements of the function body.
    For [func f(a [func() int { return 1 }()]int) { g() }] the body holds no
    [return], so the claim promises a single exit, the synthetic one before
    the closing brace of line 5.  The code records two: first the [return]
    of the function literal in the parameter type, on line 3 and so above
    the body, then the synthetic one. *)
Theorem C1_signature_return :
  exists info,
    ExtractFuncInfo MoreExamples.signature_return_decl
      MoreExamples.signature_return_fset = Ok (info, true)
    /\ ast.Body MoreExamples.signature_return_decl
       = Some MoreExamples.signature_return_body
    /\ returns_in (ast.preorder_list (ast.Stmts MoreExamples.signature_return_body))
       = []
    /\ last_is_return MoreExamples.signature_return_body = false
    /\ length (returns_in (signature_nodes MoreExamples.signature_return_decl))
       = 1%nat
    /\ ExitLogPos info
       = [token.MkPosition "s.go" 37 3 24; token.MkPosition "s.go" 62 5 2]
    /\ length (ExitLogPos info) <> 1%nat.
Proof.
  eexists. split; [vm_compute; reflexivity |].
  repeat split; try reflexivity. simpl. discriminate.
Qed.

(** C6 as stated fails: for [func f() {}] the synthetic exit has the column
    of the closing brace (11), which is neither the column of the opening
    brace (10) nor the column at which the declaration starts (1). *)
Lemma C6_counterexample :
  exists info p,
    ExtractFuncInfo Examples.empty_body_decl Examples.empty_body_fset = Ok (info, true)
    /\ ast.Stmts Examples.empty_body_block = []
    /\ last (ExitLogPos info) = Some p
    /\ token.Column p = 11
    /\ token.Column (token.FileSet_Position Examples.empty_body_fset
                       (ast.Lbrace Examples.empty_body_block)) = 10
    /\ token.Column (token.FileSet_Position Examples.empty_body_fset 15) = 1.
Proof.
  exists Examples.empty_body_info, (token.MkPosition "b.go" 24 3 11).
  repeat split; reflexivity.
Qed.

(** ** Which declarations are recorded *)

Section Recording.
Variable fset : token.FileSet.

Lemma IsFuncBodyValid_spec b :
  IsFuncBodyValid b = true <->
  exists body, b = Some body
    /\ token.IsValid (ast.Lbrace body) = true
    /\ token.IsValid (ast.Rbrace body) = true.
Proof.
  unfold IsFuncBodyValid, token.IsValid. destruct b as [body|].
  - split.
    + intros H. exists body.
      destruct (ast.Lbrace body =? token.NoPos), (ast.Rbrace body =? token.NoPos);
        simpl in *; done.
    + intros (? & [= <-] & H1 & H2).
      destruct (ast.Lbrace body =? token.NoPos), (ast.Rbrace body =? token.NoPos);
        simpl in *; done.
  - split; [done | by intros (? & ? & _)].
Qed.

Lemma ExtractFuncInfo_cases fn :
  ExtractFuncInfo fn fset =
    if aborts (ast.FuncDeclD fn) then Fatal "unknown parameter type"
    else match records_of fset (ast.FuncDeclD fn) with
         | info :: _ => Ok (info, true)
         | [] => Ok (NewFuncInfo fset, false)
         end.
Proof.
  simpl. destruct (IsFuncBodyValid (ast.Body fn)) eqn:Hvalid; simpl.
  - destruct (ast.Body fn) as [body|] eqn:Hbody; [| done].
    rewrite (ExtractFuncInfo_valid fset fn body) by (by rewrite ?Hbody).
    by destruct (has_grouped_field fn).
  - rewrite ExtractFuncInfo_invalid by done. by destruct (ast.Body fn).
Qed.

Lemma records_of_length d : (length (records_of fset d) <= 1)%nat.
Proof.
  destruct d as [fn|]; simpl; [| lia].
  destruct (ast.Body fn); simpl; [| lia].
  case_match; simpl; lia.
Qed.

Lemma GetAllFuncInfo_loop_spec decls acc :
  GetAllFuncInfo_loop decls fset acc =
    if existsb aborts decls then Fatal "unknown parameter type"
    else Ok (acc ++ flat_map (records_of fset) decls).
Proof.
  revert acc. induction decls as [|d decls IH]; intros acc.
  { simpl. by rewrite app_nil_r. }
  destruct d as [fn|pos].
  - cbn [GetAllFuncInfo_loop existsb flat_map]. rewrite ExtractFuncInfo_cases.
    pose proof (records_of_length (ast.FuncDeclD fn)) as Hlen.
    destruct (aborts (ast.FuncDeclD fn)); [done |].
    destruct (records_of fset (ast.FuncDeclD fn)) as [|info [|]];
      cbn in Hlen |- *; try lia.
    + apply IH.
    + rewrite IH. destruct (existsb aborts decls); [done |].
      by rewrite <- app_assoc.
  - cbn [GetAllFuncInfo_loop existsb flat_map aborts records_of].
    rewrite orb_false_l. apply IH.
Qed.

Lemma GetAllFuncInfo_spec root :
  GetAllFuncInfo root fset =
    if existsb aborts (ast.Decls root) then Fatal "unknown parameter type"
    else Ok (flat_map (records_of fset) (ast.Decls root)).
Proof. unfold GetAllFuncInfo. by rewrite GetAllFuncInfo_loop_spec. Qed.

Lemma aborts_recordable d : aborts d = true -> recordable d = true.
Proof. destruct d; simpl; [| done]. by intros [? _]%andb_true_iff. Qed.

Lemma records_recordable d : recordable d = false -> records_of fset d = [].
Proof.
  destruct d as [fn|]; simpl; [| done]. intros ->. by destruct (ast.Body fn).
Qed.

Lemma existsb_aborts_filter decls :
  existsb aborts (filter (fun d => recordable d = true) decls) = existsb aborts decls.
Proof.
  induction decls as [|d decls IH]; [done |].
  destruct (recordable d) eqn:Hr.
  - rewrite filter_cons_True by done. simpl. by rewrite IH.
  - rewrite filter_cons_False by congruence. simpl. rewrite IH.
    destruct (aborts d) eqn:Ha; [| done].
    apply aborts_recordable in Ha. congruence.
Qed.

Lemma records_filter decls :
  flat_map (records_of fset) (filter (fun d => recordable d = true) decls)
  = flat_map (records_of fset) decls.
Proof.
  induction decls as [|d decls IH]; [done |].
  destruct (recordable d) eqn:Hr.
  - rewrite filter_cons_True by done. simpl. by rewrite IH.
  - rewrite filter_cons_False by congruence. simpl.
    by rewrite IH, records_recordable.
Qed.
End Recording.

Lemma records_of_kept fset (l : list ast.Decl) :
  Forall (fun d => recordable d = true) l ->
  existsb aborts l = false ->
  Forall2 (fun d info =>
             exists fn body,
               d = ast.FuncDeclD fn /\ ast.Body fn = Some body
               /\ token.IsValid (ast.Lbrace body) = true
               /\ token.IsValid (ast.Rbrace body) = true
               /\ ExtractFuncInfo fn fset = Ok (info, true))
          l (flat_map (records_of fset) l).
Proof.
  induction 1 as [|d l Hd _ IH]; [constructor |].
  cbn [existsb flat_map]. intros [Ha Hl]%orb_false_iff.
  destruct d as [fn|]; [| done]. simpl in Hd.
  pose proof Hd as Hvalid.
  apply IsFuncBodyValid_spec in Hd as (body & Hbody & HL & HR).
  cbn [records_of]. rewrite Hbody at 1. rewrite Hvalid. simpl.
  constructor; [| by apply IH].
  exists fn, body. repeat split; try done.
  rewrite ExtractFuncInfo_cases, Ha. cbn [records_of].
  rewrite Hbody at 1. by rewrite Hvalid.
Qed.

Lemma kept_recordable (l : list ast.Decl) :
  Forall (fun d => recordable d = true) (filter (fun d => recordable d = true) l).
Proof.
  induction l as [|d l IH]; [constructor |].
  destruct (recordable d) eqn:Hr.
  - rewrite filter_cons_True by done. by constructor.
  - rewrite filter_cons_False by congruence. done.
Qed.

(** C7. A record is produced exactly for the top-level function declarations
    whose body exists and has valid brace positions, in source order; every
    other declaration is skipped without a record and without an abort, and
    the result is the one obtained from the file with those declarations
    removed. *)
Theorem C7_records_only_valid_bodies (root : ast.File) (fset : token.FileSet) :
  let kept := filter (fun d => recordable d = true) (ast.Decls root) in
  GetAllFuncInfo root fset = GetAllFuncInfo (ast.MkFile kept) fset
  /\ (forall infos, GetAllFuncInfo root fset = Ok infos ->
        Forall2 (fun d info =>
                   exists fn body,
                     d = ast.FuncDeclD fn /\ ast.Body fn = Some body
                     /\ token.IsValid (ast.Lbrace body) = true
                     /\ token.IsValid (ast.Rbrace body) = true
                     /\ ExtractFuncInfo fn fset = Ok (info, true))
                kept infos)
  /\ (forall fn, IsFuncBodyValid (ast.Body fn) = false ->
        ExtractFuncInfo fn fset = Ok (NewFuncInfo fset, false))
  /\ (existsb aborts kept = false ->
        exists infos, GetAllFuncInfo root fset = Ok infos
                      /\ length infos = length kept).
Proof.
  intros kept. repeat split.
  - rewrite !GetAllFuncInfo_spec. simpl.
    unfold kept. by rewrite existsb_aborts_filter, records_filter.
  - intros infos. rewrite GetAllFuncInfo_spec.
    destruct (existsb aborts (ast.Decls root)) eqn:Ha; [done |].
    intros [= <-]. rewrite <- (records_filter fset). apply records_of_kept.
    + apply kept_recordable.
    + by rewrite existsb_aborts_filter.
  - apply ExtractFuncInfo_invalid.
  - intros Ha. unfold kept in Ha. rewrite existsb_aborts_filter in Ha.
    rewrite GetAllFuncInfo_spec, Ha. eexists. split; [done |].
    rewrite <- (records_filter fset). fold kept.
    assert (Hk : Forall (fun d => recordable d = true) kept).
    { apply kept_recordable. }
    assert (Hk' : existsb aborts kept = false).
    { unfold kept. by rewrite existsb_aborts_filter. }
    symmetry. eapply Forall2_length, records_of_kept; done.
Qed.

(** C8. When a function declaration that is processed (it has a valid body)
    has a parameter or result field binding several names, the run stops
    with the diagnostic of [log.Fatal] before anything is printed or
    written: the world is the one the run started in, whatever the other
    declarations are. *)
Theorem C8_grouped_field_aborts (root : ast.File) (fset : token.FileSet)
    (filePath : string) (w : World) (fn : ast.FuncDecl) :
  In (ast.FuncDeclD fn) (ast.Decls root) ->
  IsFuncBodyValid (ast.Body fn) = true ->
  has_grouped_field fn = true ->
  GetAllFuncInfo root fset = Fatal "unknown parameter type"
  /\ AddLogsToFile root fset filePath w = Exited "unknown parameter type" w.
Proof.
  intros Hin Hvalid Hgrouped.
  assert (H : GetAllFuncInfo root fset = Fatal "unknown parameter type").
  { rewrite GetAllFuncInfo_spec.
    assert (existsb aborts (ast.Decls root) = true) as ->; [| done].
    apply existsb_exists. exists (ast.FuncDeclD fn). split; [done |].
    simpl. by rewrite Hvalid, Hgrouped. }
  split; [done |]. unfold AddLogsToFile. by rewrite H.
Qed.

Lemma C8_grouped_field_aborts_witness :
  AddLogsToFile Examples.grouped_root Examples.grouped_fset "c.go" Examples.grouped_world
  = Exited "unknown parameter type" Examples.grouped_world.
Proof.
  apply (C8_grouped_field_aborts Examples.grouped_root Examples.grouped_fset "c.go"
           Examples.grouped_world Examples.grouped_decl).
  - simpl. right. left. reflexivity.
  - reflexivity.
  - reflexivity.
Defined.

(** ** Generating the traces *)

Section Generation.
Implicit Types (logs : gmap Z (list LogInfo)) (evs : list (Z * LogInfo)).

Lemma logs_at_append logs line l n :
  logs_at (append_log logs line l) n =
    if decide (line = n) then logs_at logs n ++ [l] else logs_at logs n.
Proof.
  unfold logs_at, append_log. case_decide as Hn.
  - subst. by rewrite lookup_insert_eq.
  - by rewrite lookup_insert_ne.
Qed.

Lemma logs_at_index_into evs logs n :
  logs_at (index_into logs evs) n = logs_at logs n ++ line_index evs n.
Proof.
  revert logs. induction evs as [|[line l] evs IH]; intros logs.
  { simpl. by rewrite app_nil_r. }
  cbn [index_into fold_left]. fold (index_into (add_event logs (line, l)) evs).
  rewrite IH. unfold add_event. simpl. rewrite logs_at_append.
  unfold line_index. case_decide as Hn.
  - rewrite filter_cons_True by done. simpl. by rewrite <- app_assoc.
  - by rewrite filter_cons_False by done.
Qed.

Lemma index_into_app logs evs1 evs2 :
  index_into logs (evs1 ++ evs2) = index_into (index_into logs evs1) evs2.
Proof. apply fold_left_app. Qed.

Lemma numbered_from_app render k ts1 ts2 :
  numbered_from render k (ts1 ++ ts2) =
    numbered_from render k ts1 ++ numbered_from render (k + length ts1) ts2.
Proof.
  revert k. induction ts1 as [|t ts1 IH]; intros k; simpl.
  - by rewrite Nat.add_0_r.
  - rewrite IH. do 3 f_equal. lia.
Qed.

Lemma numbered_from_lookup render k ts i :
  numbered_from render k ts !! i =
    (fun t => (trace_line t, render (k + i)%nat t)) <$> ts !! i.
Proof.
  revert k i. induction ts as [|t ts IH]; intros k [|i]; simpl; try done.
  - by rewrite Nat.add_0_r.
  - rewrite IH. by replace (S k + i)%nat with (k + S i)%nat by lia.
Qed.

(** The inner loop adds the exit traces of one function, numbered from the
    current count. *)
Lemma GenerateLogs_exits_spec info exits idx logs (k : nat) :
  drop idx (ExitLogPos info) = exits ->
  GenerateLogs_exits info idx exits logs (GoInt.wrap (Z.of_nat k)) =
    Ok (index_into logs
          (numbered_from (render_with GoInt.add) k (map (ExitTrace info) exits)),
        GoInt.wrap (Z.of_nat (k + length exits))).
Proof.
  revert idx logs k. induction exits as [|e rest IH]; intros idx logs k Hdrop.
  { simpl. by rewrite Nat.add_0_r. }
  cbn [GenerateLogs_exits]. unfold GetExitLogInfo.
  assert (Hidx : ExitLogPos info !! idx = Some e).
  { rewrite <- (Nat.add_0_r idx), <- lookup_drop, Hdrop. done. }
  rewrite Hidx. simpl.
  rewrite add_wrap_l, add_wrap_r.
  replace (Z.of_nat k + 1) with (Z.of_nat (S k)) by lia.
  rewrite IH.
  - do 2 f_equal. f_equal. lia.
  - rewrite (drop_S _ e idx Hidx) in Hdrop. by simplify_eq.
Qed.

Lemma GenerateLogs_loop_spec fnInfo logs (k : nat) :
  GenerateLogs_loop fnInfo logs (GoInt.wrap (Z.of_nat k)) =
    Ok (index_into logs
          (numbered_from (render_with GoInt.add) k (generation_order fnInfo)),
        GoInt.wrap (Z.of_nat (k + length (generation_order fnInfo)))).
Proof.
  revert logs k. induction fnInfo as [|info rest IH]; intros logs k.
  { simpl. by rewrite Nat.add_0_r. }
  cbn [GenerateLogs_loop generation_order flat_map].
  rewrite add_wrap_l. replace (Z.of_nat k + 1) with (Z.of_nat (S k)) by lia.
  rewrite (GenerateLogs_exits_spec info _ 0 _ (S k)) by done. simpl.
  rewrite IH. fold (generation_order rest). unfold traces_of.
  rewrite numbered_from_app, index_into_app, length_app, !length_map.
  unfold add_event. simpl.
  replace (S (k + length (ExitLogPos info))) with (S k + length (ExitLogPos info))%nat by lia.
  do 3 f_equal. lia.
Qed.

(** [GenerateLogs] always returns, with the index of the numbered traces. *)
Lemma GenerateLogs_spec fnInfo :
  GenerateLogs fnInfo =
    Ok (index_into ∅ (numbered (render_with GoInt.add) (generation_order fnInfo))).
Proof.
  unfold GenerateLogs.
  pose proof (GenerateLogs_loop_spec fnInfo ∅ 0) as H.
  change (Z.of_nat 0) with 0 in H. rewrite wrap_0 in H. by rewrite H.
Qed.

Lemma fits_from_render k ts :
  fits_from k ts = true ->
  numbered_from (render_with GoInt.add) k ts = numbered_from displayed k ts.
Proof.
  revert k. induction ts as [|t ts IH]; intros k; [done |].
  cbn [fits_from numbered_from]. intros [Ht Hts]%andb_true_iff.
  rewrite IH by done. do 2 f_equal.
  destruct t as [info|info p]; [done |]. unfold displayed. simpl.
  by rewrite add_small by (by apply is_intb_spec).
Qed.
End Generation.

(** C2. The traces are generated function by function in declaration order,
    the entry trace of a function before its exit traces; the [k]-th trace
    generated (counting from 0) that is an exit trace displays the raw line
    of its exit point plus [k], the number of traces generated before it in
    the whole file.  So the first exit trace of the first function displays
    its raw line plus 1.  (The sums are assumed to stay within [int].) *)
Theorem C2_compensated_line (fnInfo : list FuncInfo) :
  fits_int fnInfo = true ->
  exists logs,
    GenerateLogs fnInfo = Ok logs
    /\ (forall n,
          logs_at logs n = line_index (numbered displayed (generation_order fnInfo)) n)
    /\ (forall k info p,
          generation_order fnInfo !! k = Some (ExitTrace info p) ->
          numbered displayed (generation_order fnInfo) !! k =
            Some (token.Line p,
                  MkLogInfo (exit_text (Name info) (token.Line p + Z.of_nat k))
                            (token.Column p)))
    /\ (forall info rest p ps,
          fnInfo = info :: rest -> ExitLogPos info = p :: ps ->
          generation_order fnInfo !! 1%nat = Some (ExitTrace info p)
          /\ In (MkLogInfo (exit_text (Name info) (token.Line p + 1)) (token.Column p))
                (logs_at logs (token.Line p))).
Proof.
  intros Hfits. eexists. split; [apply GenerateLogs_spec |].
  assert (Hat : forall n,
             logs_at (index_into ∅ (numbered (render_with GoInt.add)
                                            (generation_order fnInfo))) n
             = line_index (numbered displayed (generation_order fnInfo)) n).
  { intros n. rewrite logs_at_index_into. unfold numbered.
    by rewrite (fits_from_render 0). }
  assert (Hk : forall k info p,
             generation_order fnInfo !! k = Some (ExitTrace info p) ->
             numbered displayed (generation_order fnInfo) !! k =
               Some (token.Line p,
                     MkLogInfo (exit_text (Name info) (token.Line p + Z.of_nat k))
                               (token.Column p))).
  { intros k info p Hlook. unfold numbered.
    by rewrite numbered_from_lookup, Hlook. }
  split; [exact Hat |]. split; [exact Hk |].
  intros info rest p ps -> Hexits.
  assert (H1 : generation_order (info :: rest) !! 1%nat = Some (ExitTrace info p)).
  { simpl. by rewrite Hexits. }
  split; [exact H1 |].
  rewrite Hat. unfold line_index. apply in_map_iff.
  exists (token.Line p, MkLogInfo (exit_text (Name info) (token.Line p + 1)) (token.Column p)).
  split; [done |]. apply list_elem_of_In, list_elem_of_filter. split; [done |].
  apply list_elem_of_lookup. exists 1%nat. by rewrite (Hk 1%nat info p H1).
Qed.

Lemma C2_compensated_line_witness :
  exists logs,
    GenerateLogs [Examples.early_return_info] = Ok logs
    /\ logs_at logs 5 = [MkLogInfo (exit_text "A" 6) 3]
    /\ logs_at logs 8 = [MkLogInfo (exit_text "A" 10) 2].
Proof.
  destruct (C2_compensated_line [Examples.early_return_info] eq_refl)
    as (logs & H1 & H2 & _).
  exists logs. split; [exact H1 |]. split.
  - exact (H2 5).
  - exact (H2 8).
Defined.

(** ** The buffered writer *)

Ltac bool_facts :=
  repeat match goal with
         | H : (_ <? _) = true |- _ => apply Z.ltb_lt in H
         | H : (_ <? _) = false |- _ => apply Z.ltb_ge in H
         | H : (_ <=? _) = true |- _ => apply Z.leb_le in H
         | H : (_ <=? _) = false |- _ => apply Z.leb_gt in H
         | H : (_ =? _) = true |- _ => apply Z.eqb_eq in H
         | H : (_ =? _) = false |- _ => apply Z.eqb_neq in H
         | H : _ && _ = true |- _ => apply andb_true_iff in H as [? ?]
         | H : _ && _ = false |- _ => apply andb_false_iff in H as [?|?]
         end.

Section BufferedWriter.
Import bufio.

Lemma text_size_nonneg out : 0 <= text_size out.
Proof. induction out as [|line out IH]; simpl; lia. Qed.

Lemma text_size_app out1 out2 :
  text_size (out1 ++ out2) = text_size out1 + text_size out2.
Proof. induction out1 as [|line out1 IH]; simpl; lia. Qed.

(** A write to a file that takes data never fails, and no byte is lost:
    what the file has taken and what waits in the buffer add up. *)
Lemma Write_room b len :
  room b = true -> writer_ok b -> 0 <= len ->
  room (Write b len) = true /\ writer_ok (Write b len)
  /\ taken (Write b len) + buffered (Write b len) = taken b + buffered b + len
  /\ taken b <= taken (Write b len).
Proof.
  destruct b as [r t n f]. unfold writer_ok. simpl. intros -> [-> Hn] Hlen.
  unfold Write, Write_turn, Flush, Available, defaultBufSize in *. simpl.
  repeat (case_match; simplify_eq/=; try lia);
    bool_facts; simplify_eq/=; try lia; try (repeat split; lia).
Qed.

Lemma printed_room b out :
  room b = true -> writer_ok b ->
  room (printed b out) = true /\ writer_ok (printed b out)
  /\ taken (printed b out) + buffered (printed b out)
     = taken b + buffered b + text_size out
  /\ taken b <= taken (printed b out).
Proof.
  revert b. induction out as [|line out IH]; intros b Hroom Hok.
  { simpl. repeat split; try apply Hok; try done; lia. }
  cbn [printed fold_left]. fold (printed (Fprintln b line) out).
  destruct (Write_room b (Z.of_nat (String.length line) + 1) Hroom Hok ltac:(lia))
    as (Hroom' & Hok' & Hsum & Hle).
  destruct (IH (Fprintln b line) Hroom' Hok') as (H1 & H2 & H3 & H4).
  unfold Fprintln in *. cbn [text_size foldr]. fold (text_size out).
  repeat split; try apply H2; try done; lia.
Qed.

Lemma Flush_room b :
  room b = true -> writer_ok b ->
  failed (Flush b) = false /\ taken (Flush b) = taken b + buffered b.
Proof.
  destruct b as [r t n f]. unfold writer_ok, Flush. simpl. intros -> [-> Hn].
  destruct (n =? 0) eqn:H0; simpl; bool_facts; split; (done || lia).
Qed.

(** All the bytes of a text are all its lines. *)
Lemma cut_all out : cut (text_size out) out = out.
Proof.
  induction out as [|line out IH]; [done |].
  cbn [cut text_size foldr]. fold (text_size out).
  pose proof (text_size_nonneg out) as Hpos.
  destruct (Z.of_nat (String.length line) + 1 + text_size out <=? 0) eqn:H0;
    bool_facts; [lia |].
  destruct (Z.of_nat (String.length line)
            <? Z.of_nat (String.length line) + 1 + text_size out) eqn:H1;
    bool_facts; [| lia].
  f_equal.
  replace (Z.of_nat (String.length line) + 1 + text_size out
           - Z.of_nat (String.length line) - 1) with (text_size out) by lia.
  done.
Qed.

(** A file without room takes nothing: a write leaves bytes waiting or the
    writer failed. *)
Lemma Write_full b len :
  room b = false -> taken b = 0 -> 0 <= buffered b -> 1 <= len ->
  room (Write b len) = false /\ taken (Write b len) = 0
  /\ 0 <= buffered (Write b len)
  /\ (failed (Write b len) = true \/ 1 <= buffered (Write b len)).
Proof.
  destruct b as [r t n f]. simpl. intros -> -> Hn Hlen.
  unfold Write, Write_turn, Flush, Available, defaultBufSize in *. simpl.
  repeat (case_match; simplify_eq/=; try lia);
    bool_facts; simplify_eq/=; try lia;
    try (repeat split; (lia || (by left) || (right; lia))).
Qed.

Lemma printed_full b out :
  room b = false -> taken b = 0 -> 0 <= buffered b ->
  (out <> [] \/ failed b = true \/ 1 <= buffered b) ->
  room (printed b out) = false /\ taken (printed b out) = 0
  /\ (failed (printed b out) = true \/ 1 <= buffered (printed b out)).
Proof.
  revert b. induction out as [|line out IH]; intros b Hroom Htaken Hn Hsome.
  { simpl. destruct Hsome as [?|Hsome]; [done |]. done. }
  cbn [printed fold_left]. fold (printed (Fprintln b line) out).
  destruct (Write_full b (Z.of_nat (String.length line) + 1) Hroom Htaken Hn ltac:(lia))
    as (H1 & H2 & H3 & H4).
  apply IH; try done. by right.
Qed.

Lemma Flush_full b :
  room b = false -> (failed b = true \/ 1 <= buffered b) ->
  failed (Flush b) = true /\ taken (Flush b) = taken b.
Proof.
  destruct b as [r t n f]. unfold Flush. simpl. intros -> Hsome.
  destruct f; [done |]. destruct Hsome as [?|Hn]; [done |].
  destruct (n =? 0) eqn:H0; bool_facts; [lia | done].
Qed.

(** With room the final [Flush] succeeds and the file holds every line. *)
Lemma written_room out :
  failed (Flush (printed (NewWriter true) out)) = false
  /\ on_file (Flush (printed (NewWriter true) out)) out = out.
Proof.
  assert (Hok : writer_ok (NewWriter true)).
  { unfold writer_ok, defaultBufSize. simpl. split; [done | lia]. }
  destruct (printed_room (NewWriter true) out eq_refl Hok) as (H1 & H2 & H3 & _).
  destruct (Flush_room _ H1 H2) as [H4 H5].
  split; [done |]. unfold on_file. rewrite H5, H3. simpl. apply cut_all.
Qed.

(** Without room the final [Flush] fails as soon as one line was printed,
    and the file stays empty. *)
Lemma written_full out :
  out <> [] ->
  failed (Flush (printed (NewWriter false) out)) = true
  /\ on_file (Flush (printed (NewWriter false) out)) out = []
  /\ on_file (printed (NewWriter false) out) out = [].
Proof.
  intros Hne.
  destruct (printed_full (NewWriter false) out eq_refl eq_refl ltac:(simpl; lia)
              ltac:(by left)) as (H1 & H2 & H3).
  destruct (Flush_full _ H1 H3) as [H4 H5].
  split; [done |]. unfold on_file. rewrite H5, H2.
  destruct out; done.
Qed.

(** Whatever the device, a [Flush] that succeeds has put every line in the
    file. *)
Lemma written_all r out :
  failed (Flush (printed (NewWriter r) out)) = false ->
  on_file (Flush (printed (NewWriter r) out)) out = out.
Proof.
  destruct r; [intros _; apply written_room |].
  destruct out as [|line out]; [done |].
  intros Hok. destruct (written_full (line :: out)) as [Hfail _]; [done |].
  congruence.
Qed.

(** What a crash leaves in the file is a part of what was printed, and
    nothing of it as long as the buffer has not filled. *)
Lemma cut_length k out : (length (cut k out) <= length out)%nat.
Proof.
  revert k. induction out as [|line out IH]; intros k; simpl; [lia |].
  destruct (k <=? 0); simpl; [lia |].
  destruct (Z.of_nat (String.length line) <? k); simpl; [| lia].
  specialize (IH (k - Z.of_nat (String.length line) - 1)). lia.
Qed.

Lemma Write_small b len :
  writer_ok b -> taken b = 0 -> 0 <= len -> buffered b + len <= defaultBufSize ->
  writer_ok (Write b len) /\ taken (Write b len) = 0
  /\ buffered (Write b len) = buffered b + len.
Proof.
  destruct b as [r t n f]. unfold writer_ok. simpl. intros [-> Hn] -> Hlen Hfit.
  unfold Write, Write_turn, Flush, Available, defaultBufSize in *. simpl.
  repeat (case_match; simplify_eq/=; try lia);
    bool_facts; simplify_eq/=; try lia; try (repeat split; lia).
Qed.

Lemma printed_small b out :
  writer_ok b -> taken b = 0 -> buffered b + text_size out <= defaultBufSize ->
  taken (printed b out) = 0.
Proof.
  revert b. induction out as [|line out IH]; intros b Hok Htaken Hfit; [done |].
  cbn [printed fold_left]. fold (printed (Fprintln b line) out).
  cbn [text_size foldr] in Hfit. fold (text_size out) in Hfit.
  pose proof (text_size_nonneg out) as Hpos.
  destruct (Write_small b (Z.of_nat (String.length line) + 1) Hok Htaken ltac:(lia)
              ltac:(lia)) as (H1 & H2 & H3).
  apply IH; unfold Fprintln; [done | done | lia].
Qed.
End BufferedWriter.

(** ** Merging the traces with the file *)

Section Merging.
Implicit Types (logs : gmap Z (list LogInfo)) (contents wr : list string).

Lemma Repeat_col_ok l :
  col_ok l = true ->
  strings.Repeat tab (GoInt.sub (Col l) 1)
  = Ok (strings.repeat_nat tab (Z.to_nat (Col l - 1))).
Proof.
  unfold col_ok. intros [H1 H2]%andb_true_iff.
  apply Z.leb_le in H1, H2.
  rewrite sub_small by (unfold GoInt.is_int, GoInt.min_int, GoInt.max_int in *; lia).
  unfold strings.Repeat. destruct (Col l - 1 <? 0) eqn:Hneg; [| done].
  apply Z.ltb_lt in Hneg. lia.
Qed.

Lemma WriteLogsToFile_infos_spec infos wr :
  forallb col_ok infos = true ->
  WriteLogsToFile_infos infos wr = Done (wr ++ map indent_line infos).
Proof.
  revert wr. induction infos as [|l infos IH]; intros wr.
  { simpl. by rewrite app_nil_r. }
  cbn [forallb WriteLogsToFile_infos]. intros [Hl Hrest]%andb_true_iff.
  rewrite Repeat_col_ok by done. simpl. rewrite IH by done.
  by rewrite <- app_assoc.
Qed.

Lemma WriteLogsToFile_loop_spec logs contents idx wr :
  0 <= idx ->
  idx + GoInt.len contents <= GoInt.max_int ->
  cols_ok_from logs (idx + 1) contents = true ->
  WriteLogsToFile_loop logs idx contents wr
  = Done (wr ++ merged_from logs (idx + 1) contents).
Proof.
  revert idx wr. induction contents as [|line rest IH]; intros idx wr Hidx Hlen Hcols.
  { simpl. by rewrite app_nil_r. }
  cbn [WriteLogsToFile_loop merged_from cols_ok_from] in *.
  apply andb_true_iff in Hcols as [Hhere Hrest].
  unfold GoInt.len in *. cbn [length] in Hlen.
  assert (Hadd : GoInt.add idx 1 = idx + 1).
  { apply add_small. unfold GoInt.is_int, GoInt.min_int, GoInt.max_int in *. lia. }
  rewrite Hadd. unfold logs_at in *.
  destruct (logs !! (idx + 1)) as [infos|] eqn:Hlook; simpl in *.
  - rewrite WriteLogsToFile_infos_spec by done. simpl.
    rewrite IH by (done || lia).
    by rewrite <- !app_assoc.
  - rewrite IH by (done || lia). by rewrite <- !app_assoc.
Qed.

(** The three ways in which [WriteLogsToFile] ends once the file is
    created. *)
Lemma WriteLogsToFile_done path contents logs w out :
  path ∉ denied w ->
  path ∉ full w ->
  WriteLogsToFile_loop logs 0 contents [] = Done out ->
  WriteLogsToFile path contents logs w = Finished (store path out w).
Proof.
  intros Hden Hfull Hloop. unfold WriteLogsToFile.
  rewrite bool_decide_eq_false_2 by done. rewrite Hloop.
  rewrite (bool_decide_eq_false_2 (path ∈ full w)) by done. simpl.
  destruct (written_room out) as [-> ->]. done.
Qed.

Lemma WriteLogsToFile_finished path contents logs w w' :
  WriteLogsToFile path contents logs w = Finished w' ->
  (path ∉ denied w)
  /\ exists out,
       WriteLogsToFile_loop logs 0 contents [] = Done out
       /\ (path ∉ full w \/ out = [])
       /\ w' = store path out w.
Proof.
  unfold WriteLogsToFile.
  destruct (bool_decide (path ∈ denied w)) eqn:Hden; [done |].
  apply bool_decide_eq_false in Hden.
  destruct (WriteLogsToFile_loop logs 0 contents []) as [out|msg out]; [| done].
  destruct (bufio.failed _) eqn:Hfail; [done |].
  intros [= <-]. split; [done |]. exists out. split; [done |].
  rewrite written_all by done. split; [| done].
  destruct (bool_decide (path ∈ full w)) eqn:Hfull;
    [| left; by apply bool_decide_eq_false in Hfull].
  right. destruct out as [|line out]; [done |].
  destruct (written_full (line :: out)) as [Hf _]; [done |].
  cbn [negb] in Hfail. congruence.
Qed.

(** Whatever the outcome, [WriteLogsToFile] leaves the world as it was
    apart from the lines of the file at its path. *)
Lemma WriteLogsToFile_world path contents logs w :
  world_of (WriteLogsToFile path contents logs w) = w
  \/ exists part, world_of (WriteLogsToFile path contents logs w) = store path part w.
Proof.
  unfold WriteLogsToFile.
  destruct (bool_decide (path ∈ denied w)); [by left |].
  destruct (WriteLogsToFile_loop logs 0 contents []) as [out|msg out].
  - destruct (bufio.failed _); right; eexists; done.
  - right. eexists. done.
Qed.

Lemma merged_from_app logs n contents1 contents2 :
  merged_from logs n (contents1 ++ contents2)
  = merged_from logs n contents1
      ++ merged_from logs (n + GoInt.len contents1) contents2.
Proof.
  revert n. induction contents1 as [|line rest IH]; intros n.
  { simpl. f_equal. unfold GoInt.len. simpl. lia. }
  cbn [app merged_from]. rewrite IH, <- app_assoc. simpl.
  replace (n + GoInt.len (line :: rest)) with (n + 1 + GoInt.len rest); [done |].
  unfold GoInt.len. cbn [length]. lia.
Qed.

Lemma merged_from_sublist logs n contents :
  sublist contents (merged_from logs n contents).
Proof.
  revert n. induction contents as [|line rest IH]; intros n; simpl.
  { constructor. }
  apply sublist_inserts_l. by constructor.
Qed.

Lemma merged_from_untouched logs n contents :
  (forall i, (i < length contents)%nat -> logs_at logs (n + Z.of_nat i) = []) ->
  merged_from logs n contents = contents.
Proof.
  revert n. induction contents as [|line rest IH]; intros n Hnone; simpl; [done |].
  pose proof (Hnone 0%nat ltac:(simpl; lia)) as H0.
  change (Z.of_nat 0) with 0 in H0. rewrite Z.add_0_r in H0. rewrite H0. simpl.
  f_equal. apply IH. intros i Hi.
  replace (n + 1 + Z.of_nat i) with (n + Z.of_nat (S i)) by lia.
  apply Hnone. simpl. lia.
Qed.

(** C3. Before every original line the merger writes the trace lines
    attached to its 1-based number, in their generation order, each
    indented by [column - 1] tabs, and then the line verbatim; a line
    without traces is written verbatim; the original lines keep their
    order and content.  (The columns are at least 1, as [strings.Repeat]
    requires; the destination can be created and its device takes the
    data.) *)
Theorem C3_merge (path : string) (contents : list string)
    (logs : gmap Z (list LogInfo)) (w : World) :
  GoInt.len contents <= GoInt.max_int ->
  cols_ok logs contents = true ->
  path ∉ denied w ->
  path ∉ full w ->
  WriteLogsToFile path contents logs w
  = Finished (MkWorld (<[path := merged logs contents]> (files w)) (denied w) (stdout w)
                      (full w))
  /\ (forall n line,
        contents !! n = Some line ->
        merged logs contents
        = merged logs (take n contents)
            ++ map indent_line (logs_at logs (Z.of_nat n + 1))
            ++ line :: merged_from logs (Z.of_nat n + 2) (drop (S n) contents))
  /\ ((forall n, (n < length contents)%nat -> logs_at logs (Z.of_nat n + 1) = []) ->
      merged logs contents = contents)
  /\ sublist contents (merged logs contents).
Proof.
  intros Hlen Hcols Hpath Hroom. repeat split.
  - apply WriteLogsToFile_done; [done | done |].
    by rewrite WriteLogsToFile_loop_spec by (done || lia).
  - intros n line Hn. unfold merged.
    rewrite <- (take_drop_middle contents n line Hn) at 1.
    rewrite merged_from_app. f_equal. cbn [merged_from].
    assert (Hlt : (n < length contents)%nat) by (by eapply lookup_lt_Some).
    unfold GoInt.len. rewrite length_take, Nat.min_l by lia.
    replace (1 + Z.of_nat n) with (Z.of_nat n + 1) by lia.
    replace (Z.of_nat n + 1 + 1) with (Z.of_nat n + 2) by lia. done.
  - intros Hnone. unfold merged. apply merged_from_untouched.
    intros i Hi. replace (1 + Z.of_nat i) with (Z.of_nat i + 1) by lia. by apply Hnone.
  - apply merged_from_sublist.
Qed.
End Merging.

Lemma C3_merge_witness :
  WriteLogsToFile "./debug_a.go" Examples.early_return_lines
    Examples.early_return_logs Examples.early_return_world
  = Finished (MkWorld (<["./debug_a.go" :=
                          merged Examples.early_return_logs Examples.early_return_lines]>
                         (files Examples.early_return_world)) ∅ [] ∅).
Proof.
  refine (proj1 (C3_merge "./debug_a.go" Examples.early_return_lines
                   Examples.early_return_logs Examples.early_return_world _ _ _ _)).
  - vm_compute. discriminate.
  - vm_compute. reflexivity.
  - simpl. apply not_elem_of_empty.
  - simpl. apply not_elem_of_empty.
Defined.

(** ** The entry trace *)

Section EntryTrace.
Lemma concat_strings_sep {A} (g : A -> string) (sep : string) (l : list A) :
  l <> [] ->
  concat_strings (map (fun x => g x +:+ sep) l) = strings.Join (map g l) sep +:+ sep.
Proof.
  induction l as [|x [|y r] IH]; [done | |]; intros _.
  - simpl. by rewrite str_app_nil_r.
  - change (concat_strings (map (fun x => g x +:+ sep) (x :: y :: r)))
      with ((g x +:+ sep) +:+ concat_strings (map (fun x => g x +:+ sep) (y :: r))).
    rewrite IH by done.
    change (strings.Join (map g (x :: y :: r)) sep)
      with (g x +:+ sep +:+ strings.Join (map g (y :: r)) sep).
    by rewrite !str_app_assoc.
Qed.

Lemma named_params_cons p params :
  named_params (p :: params) =
    if String.eqb p "" then named_params params else p :: named_params params.
Proof.
  unfold named_params. destruct (String.eqb_spec p "") as [->|Hne].
  - by rewrite filter_cons_False by (by intros ?).
  - by rewrite filter_cons_True.
Qed.

Lemma named_params_length params :
  (length (named_params params) <= length params)%nat.
Proof. apply length_filter. Qed.

Lemma GetParamLog_loop_spec params paramLog paramValLog (c : nat) :
  GetParamLog_loop params (paramLog, paramValLog, GoInt.wrap (Z.of_nat c)) =
    (paramLog +:+ concat_strings
                    (map (fun p => (p +:+ ": " +:+ "%+v") +:+ ", ") (named_params params)),
     paramValLog +:+ concat_strings (map (fun p => p +:+ ",") (named_params params)),
     GoInt.wrap (Z.of_nat (c + length (named_params params)))).
Proof.
  revert paramLog paramValLog c.
  induction params as [|p params IH]; intros paramLog paramValLog c.
  { simpl. by rewrite !str_app_nil_r, Nat.add_0_r. }
  cbn [GetParamLog_loop]. rewrite named_params_cons.
  destruct (String.eqb p ""); [apply IH |].
  rewrite add_wrap_l. replace (Z.of_nat c + 1) with (Z.of_nat (S c)) by lia.
  rewrite IH. cbn [map concat_strings foldr length]. fold concat_strings.
  rewrite !str_app_assoc. do 3 f_equal. lia.
Qed.

Lemma GetParamLog_spec params :
  GoInt.len params <= GoInt.max_int ->
  GetParamLog params =
    (strings.Join (map (fun p => p +:+ ": " +:+ "%+v") (named_params params)) ", ",
     strings.Join (named_params params) ",",
     Z.of_nat (length (named_params params))).
Proof.
  intros Hlen. unfold GetParamLog.
  pose proof (GetParamLog_loop_spec params "" "" 0) as H.
  change (Z.of_nat 0) with 0 in H. rewrite wrap_0 in H. rewrite H. clear H.
  rewrite !str_app_nil_l. simpl.
  pose proof (named_params_length params) as Hle. unfold GoInt.len in Hlen.
  rewrite wrap_small
    by (unfold GoInt.is_int, GoInt.min_int, GoInt.max_int in *; lia).
  destruct (named_params params) as [|p named] eqn:Hnamed.
  - simpl. by rewrite !TrimSuffix_empty.
  - rewrite (concat_strings_sep (fun p => p +:+ ": " +:+ "%+v") ", ") by done.
    pose proof (concat_strings_sep (fun p => p) "," (p :: named) ltac:(done)) as H.
    rewrite map_id in H. cbv beta in H. rewrite H.
    by rewrite !TrimSuffix_app.
Qed.

Lemma GetEntryLogInfo_text info :
  GoInt.len (Params info) <= GoInt.max_int ->
  Log (GetEntryLogInfo info)
  = entry_text "%+v" (Name info) (named_params (Params info)).
Proof.
  intros Hlen. unfold GetEntryLogInfo. rewrite GetParamLog_spec by done.
  destruct (named_params (Params info)) as [|p named]; cbn [Log length entry_text].
  - done.
  - replace (negb (Z.of_nat (S (length named)) =? 0)) with true
      by (symmetry; apply negb_true_iff, Z.eqb_neq; lia).
    by rewrite !str_app_assoc.
Qed.

(** Whatever the parameters are, an entry trace starts like one and an
    exit trace does not. *)
Lemma GetEntryLogInfo_is_entry info :
  is_entry_text (Log (GetEntryLogInfo info)) = true.
Proof.
  unfold GetEntryLogInfo. destruct (GetParamLog (Params info)) as [[pl pv] count].
  destruct (negb (count =? 0)); reflexivity.
Qed.

Lemma GetEntryLogInfo_Col info :
  Col (GetEntryLogInfo info) = token.Column (EntryLogPos info).
Proof.
  unfold GetEntryLogInfo. by destruct (GetParamLog (Params info)) as [[pl pv] count].
Qed.

Lemma exit_text_not_entry name line : is_entry_text (exit_text name line) = false.
Proof. reflexivity. Qed.
End EntryTrace.

Section EntryCount.
Implicit Types (logs : gmap Z (list LogInfo)) (evs : list (Z * LogInfo)).

Lemma entries_in_app infos1 infos2 :
  entries_in (infos1 ++ infos2) = (entries_in infos1 + entries_in infos2)%nat.
Proof. unfold entries_in. by rewrite filter_app, length_app. Qed.

Lemma entries_in_single l :
  entries_in [l] = if is_entry_text (Log l) then 1%nat else 0%nat.
Proof.
  unfold entries_in. destruct (is_entry_text (Log l)) eqn:H.
  - by rewrite filter_cons_True.
  - by rewrite filter_cons_False by congruence.
Qed.

Lemma entry_count_insert logs line old new :
  logs_at logs line = old ->
  entry_count (<[line := new]> logs)
  = (entry_count logs - entries_in old + entries_in new)%nat.
Proof.
  unfold entry_count, logs_at. intros Hold.
  destruct (logs !! line) as [v|] eqn:Hlook; simpl in Hold; subst old.
  - rewrite <- insert_delete_eq.
    rewrite (map_to_list_insert (delete line logs)) by apply lookup_delete_eq.
    rewrite <- (map_to_list_delete logs line v Hlook). simpl. lia.
  - rewrite map_to_list_insert by done. simpl.
    change (entries_in []) with 0%nat. lia.
Qed.

Lemma entry_count_append logs line l :
  entry_count (append_log logs line l)
  = (entry_count logs + entries_in [l])%nat.
Proof.
  unfold append_log. rewrite (entry_count_insert logs line (logs_at logs line)) by done.
  fold (logs_at logs line). rewrite entries_in_app.
  assert (entries_in (logs_at logs line) <= entry_count logs)%nat; [| lia].
  unfold entry_count, logs_at.
  destruct (logs !! line) as [v|] eqn:Hlook; simpl;
    [| change (entries_in []) with 0%nat; lia].
  rewrite <- (map_to_list_delete logs line v Hlook). simpl. lia.
Qed.

Lemma entry_count_index_into evs logs :
  entry_count (index_into logs evs)
  = (entry_count logs + entries_in (map snd evs))%nat.
Proof.
  revert logs. induction evs as [|[line l] evs IH]; intros logs.
  { simpl. unfold entries_in. simpl. lia. }
  cbn [index_into fold_left]. fold (index_into (add_event logs (line, l)) evs).
  rewrite IH. unfold add_event. simpl. rewrite entry_count_append.
  change (l :: map snd evs) with ([l] ++ map snd evs).
  rewrite entries_in_app. lia.
Qed.

Lemma entries_in_exits plus info k exits :
  entries_in (map snd (numbered_from (render_with plus) k (map (ExitTrace info) exits)))
  = 0%nat.
Proof.
  revert k. induction exits as [|p exits IH]; intros k; [done |].
  cbn [map numbered_from]. change (?x :: ?l) with ([x] ++ l).
  rewrite entries_in_app, IH, entries_in_single. cbn [snd render_with Log].
  by rewrite exit_text_not_entry.
Qed.

Lemma entries_in_generation plus k fnInfo :
  entries_in (map snd (numbered_from (render_with plus) k (generation_order fnInfo)))
  = length fnInfo.
Proof.
  revert k. induction fnInfo as [|info rest IH]; intros k; [done |].
  change (generation_order (info :: rest))
    with (EntryTrace info :: (map (ExitTrace info) (ExitLogPos info)
                                ++ generation_order rest)).
  cbn [numbered_from map].
  rewrite numbered_from_app, map_app.
  change (?x :: ?l) with ([x] ++ l).
  rewrite !entries_in_app, entries_in_exits, IH, entries_in_single.
  cbn [snd render_with]. by rewrite GetEntryLogInfo_is_entry.
Qed.

Lemma entry_count_empty : entry_count ∅ = 0%nat.
Proof. unfold entry_count. by rewrite map_to_list_empty. Qed.

(** The entry trace of a recorded function is in the index, on the line of
    its entry position. *)
Lemma entry_in_index plus fnInfo info :
  In info fnInfo ->
  In (GetEntryLogInfo info)
     (line_index (numbered (render_with plus) (generation_order fnInfo))
                 (token.Line (EntryLogPos info))).
Proof.
  intros Hin. unfold line_index. apply in_map_iff.
  exists (token.Line (EntryLogPos info), GetEntryLogInfo info). split; [done |].
  apply list_elem_of_In, list_elem_of_filter. split; [done |].
  assert (Ht : EntryTrace info ∈ generation_order fnInfo).
  { apply list_elem_of_In, in_flat_map. exists info. split; [done | by left]. }
  apply list_elem_of_lookup in Ht as [k Hk].
  apply list_elem_of_lookup. exists k. unfold numbered.
  by rewrite numbered_from_lookup, Hk.
Qed.
End EntryCount.

(** C5 as amended. Every recorded function gets exactly one entry trace, on
    the line of its entry position.  With at least one non-empty parameter
    name it is a formatted print that lists each non-empty name with a
    [%+v] placeholder, in declared order, and passes those parameters as
    arguments; with none it is a plain print of ["Starting func <name>"].
    Unnamed parameters stay in the parameter list as empty placeholders and
    add nothing to the text. *)
Theorem C5_entry_trace (fnInfo : list FuncInfo) :
  Forall (fun info => GoInt.len (Params info) <= GoInt.max_int) fnInfo ->
  exists logs,
    GenerateLogs fnInfo = Ok logs
    /\ entry_count logs = length fnInfo
    /\ (forall info,
          In info fnInfo ->
          In (GetEntryLogInfo info) (logs_at logs (token.Line (EntryLogPos info)))
          /\ Log (GetEntryLogInfo info)
             = entry_text "%+v" (Name info) (named_params (Params info))
          /\ Col (GetEntryLogInfo info) = token.Column (EntryLogPos info))
    /\ (forall l : ast.FieldList,
          FieldList_grouped (Some l) = false ->
          GetParamNames (Some l) = Ok (param_names (Some l))
          /\ length (param_names (Some l)) = length (ast.List l)
          /\ forall i f, ast.List l !! i = Some f -> ast.Names f = [] ->
                         param_names (Some l) !! i = Some "").
Proof.
  intros Hlen. eexists. split; [apply GenerateLogs_spec |].
  split; [| split].
  - unfold numbered. by rewrite entry_count_index_into, entry_count_empty,
      entries_in_generation.
  - intros info Hin. split; [| split; [| apply GetEntryLogInfo_Col]].
    + rewrite logs_at_index_into. unfold logs_at at 1. rewrite lookup_empty.
      simpl. by apply entry_in_index.
    + apply GetEntryLogInfo_text.
      exact (proj1 (List.Forall_forall _ _) Hlen info Hin).
  - intros l Hl. split; [| split].
    + rewrite GetParamNames_spec. by rewrite Hl.
    + simpl. by rewrite length_map.
    + intros i f Hf Hnames. simpl.
      change (map field_name (ast.List l)) with (field_name <$> ast.List l).
      rewrite list_lookup_fmap, Hf. simpl.
      unfold field_name. by rewrite Hnames.
Qed.

Lemma C5_entry_trace_witness :
  exists logs,
    GenerateLogs [Examples.add_info] = Ok logs
    /\ entry_count logs = 1%nat
    /\ Log (GetEntryLogInfo Examples.add_info) = entry_text "%+v" "Add" ["a"; "b"].
Proof.
  destruct (C5_entry_trace [Examples.add_info]) as (logs & H1 & H2 & H3 & _).
  - constructor; [| constructor]. vm_compute. discriminate.
  - exists logs. split; [exact H1 |]. split; [exact H2 |].
    exact (proj1 (proj2 (H3 Examples.add_info (or_introl eq_refl)))).
Defined.

(** C5 as stated fails: the placeholder the code writes is [%+v].  The
    entry trace of [Add(a int, b int)] has two printable parameters and yet
    no [%v] anywhere in its text. *)
Lemma C5_counterexample :
  named_params (Params Examples.add_info) = ["a"; "b"]
  /\ strings.Contains (Log (GetEntryLogInfo Examples.add_info)) "%v" = false
  /\ Log (GetEntryLogInfo Examples.add_info) <> entry_text "%v" "Add" ["a"; "b"]
  /\ Log (GetEntryLogInfo Examples.add_info)
     = "fmt.Printf(" +:+ dquote +:+ "Starting func Add with values: a: %+v, b: %+v\n"
         +:+ dquote +:+ ", a,b)".
Proof. repeat split; vm_compute; congruence. Qed.

(** ** Stripping the traces *)

Section Stripping.
Implicit Types (logs : gmap Z (list LogInfo)) (contents wr : list string).

Lemma trim_tabs_repeat n s :
  trim_tabs (strings.repeat_nat tab n +:+ s) = trim_tabs s.
Proof.
  induction n as [|n IH]; [reflexivity |].
  cbn [strings.repeat_nat]. rewrite str_app_assoc.
  change (tab +:+ (strings.repeat_nat tab n +:+ s))
    with (String (ascii_of_nat 9) (strings.repeat_nat tab n +:+ s)).
  cbn [trim_tabs]. by rewrite Ascii.eqb_refl.
Qed.

Lemma HasPrefix_head s c p :
  strings.HasPrefix s (String c p) = true -> exists s', s = String c s'.
Proof.
  destruct s as [|d s']; simpl; [done |].
  destruct (Ascii.eqb_spec c d) as [->|]; [eauto | done].
Qed.

Lemma starts_like_trace_trim s :
  starts_like_trace s = true -> trim_tabs s = s.
Proof.
  unfold starts_like_trace.
  intros [[H|H]%orb_true_iff|H]%orb_true_iff;
    apply HasPrefix_head in H as [s' ->]; reflexivity.
Qed.

Lemma indent_is_trace_line n s :
  starts_like_trace s = true ->
  is_trace_line (strings.repeat_nat tab n +:+ s) = true.
Proof.
  intros H. unfold is_trace_line.
  by rewrite trim_tabs_repeat, starts_like_trace_trim.
Qed.

Lemma strip_traces_app l1 l2 :
  strip_traces (l1 ++ l2) = strip_traces l1 ++ strip_traces l2.
Proof. apply filter_app. Qed.

Lemma strip_traces_clean contents :
  Forall (fun l => is_trace_line l = false) contents -> strip_traces contents = contents.
Proof.
  induction 1 as [|l contents Hl _ IH]; [done |].
  unfold strip_traces. rewrite filter_cons_True by done. f_equal. apply IH.
Qed.

(** Whatever the columns are, the lines the inner loop adds are stripped. *)
Lemma WriteLogsToFile_infos_strip infos wr out :
  Forall (fun l => starts_like_trace (Log l) = true) infos ->
  WriteLogsToFile_infos infos wr = Done out ->
  strip_traces out = strip_traces wr.
Proof.
  intros Hall. revert wr. induction Hall as [|l infos Hl _ IH]; intros wr.
  { simpl. by intros [= ->]. }
  cbn [WriteLogsToFile_infos]. unfold strings.Repeat.
  destruct (GoInt.sub (Col l) 1 <? 0); [done |]. simpl. intros Hrest.
  apply IH in Hrest. rewrite Hrest, strip_traces_app.
  unfold strip_traces at 2.
  rewrite filter_cons_False by (rewrite indent_is_trace_line; done).
  by rewrite app_nil_r.
Qed.

Lemma WriteLogsToFile_loop_strip logs contents idx wr out :
  (forall n, Forall (fun l => starts_like_trace (Log l) = true) (logs_at logs n)) ->
  WriteLogsToFile_loop logs idx contents wr = Done out ->
  strip_traces out = strip_traces wr ++ strip_traces contents.
Proof.
  intros Hall. revert idx wr. induction contents as [|line rest IH]; intros idx wr.
  { simpl. intros [= ->]. by rewrite app_nil_r. }
  cbn [WriteLogsToFile_loop].
  replace (strip_traces (line :: rest)) with (strip_traces [line] ++ strip_traces rest)
    by (by rewrite <- strip_traces_app).
  pose proof (Hall (GoInt.add idx 1)) as Hhere. unfold logs_at in Hhere.
  destruct (logs !! GoInt.add idx 1) as [infos|]; simpl in *.
  - destruct (WriteLogsToFile_infos infos wr) as [wr'|msg wr'] eqn:Hinfos; simpl; try done.
    intros Hrest. apply IH in Hrest.
    apply WriteLogsToFile_infos_strip in Hinfos; [| done].
    rewrite Hrest, strip_traces_app, Hinfos, <- app_assoc. done.
  - intros Hrest. apply IH in Hrest.
    rewrite Hrest, strip_traces_app, <- app_assoc. done.
Qed.

Lemma exit_text_like_trace name line : starts_like_trace (exit_text name line) = true.
Proof. reflexivity. Qed.

Lemma entry_like_trace info : starts_like_trace (Log (GetEntryLogInfo info)) = true.
Proof.
  pose proof (GetEntryLogInfo_is_entry info) as H.
  unfold starts_like_trace, is_entry_text in *. by rewrite H.
Qed.

Lemma numbered_like_trace plus k ts :
  Forall (fun e => starts_like_trace (Log e.2) = true)
         (numbered_from (render_with plus) k ts).
Proof.
  revert k. induction ts as [|t ts IH]; intros k; [constructor |].
  cbn [numbered_from]. constructor; [| apply IH].
  destruct t; cbn [snd render_with Log].
  - apply entry_like_trace.
  - apply exit_text_like_trace.
Qed.

(** Every text in the index [GenerateLogs] builds starts like a trace. *)
Lemma generated_like_trace fnInfo logs n :
  GenerateLogs fnInfo = Ok logs ->
  Forall (fun l => starts_like_trace (Log l) = true) (logs_at logs n).
Proof.
  rewrite GenerateLogs_spec. intros [= <-].
  rewrite logs_at_index_into. unfold logs_at at 1. rewrite lookup_empty. simpl.
  unfold line_index, numbered.
  pose proof (numbered_like_trace GoInt.add 0 (generation_order fnInfo)) as H.
  induction H as [|e evs He _ IH]; [constructor |].
  destruct (decide (e.1 = n)).
  - rewrite filter_cons_True by done. by constructor.
  - by rewrite filter_cons_False by done.
Qed.
End Stripping.

(** ** The whole run *)

(** What [ReadFileLines] returns: the lines of the file, each without the
    carriage return that may end it, unless a line is too long for the
    scanner. *)
Lemma Scan_spec text :
  bufio.Scan text
  = if scannable text then (map bufio.dropCR text, None)
    else (map bufio.dropCR
            (filepath.take_while
               (fun line => Z.of_nat (String.length line) <? bufio.MaxScanTokenSize)
               text),
          Some bufio.ErrTooLong).
Proof.
  induction text as [|line rest IH]; [done |].
  cbn [bufio.Scan scannable forallb filepath.take_while].
  destruct (bufio.MaxScanTokenSize <=? Z.of_nat (String.length line)) eqn:Hlong.
  - apply Z.leb_le in Hlong.
    assert ((Z.of_nat (String.length line) <? bufio.MaxScanTokenSize) = false) as ->
      by (apply Z.ltb_ge; lia).
    done.
  - apply Z.leb_gt in Hlong.
    assert ((Z.of_nat (String.length line) <? bufio.MaxScanTokenSize) = true) as ->
      by (apply Z.ltb_lt; lia).
    rewrite IH. fold (scannable rest). simpl. by destruct (scannable rest).
Qed.

Lemma ReadFileLines_found path w text :
  files w !! path = Some text ->
  ReadFileLines path w
  = if scannable text then Ok (map bufio.dropCR text) else Fatal bufio.ErrTooLong.
Proof.
  intros Hfile. unfold ReadFileLines. rewrite Hfile, Scan_spec.
  by destruct (scannable text).
Qed.

Lemma ReadFileLines_Ok path w contents :
  ReadFileLines path w = Ok contents ->
  exists text,
    files w !! path = Some text /\ scannable text = true
    /\ contents = map bufio.dropCR text.
Proof.
  destruct (files w !! path) as [text|] eqn:Hfile.
  - rewrite (ReadFileLines_found _ _ _ Hfile).
    destruct (scannable text) eqn:Hscan; [| done].
    intros [= <-]. by exists text.
  - unfold ReadFileLines. by rewrite Hfile.
Qed.

Lemma ReadFileLines_print path s w :
  ReadFileLines path (print s w) = ReadFileLines path w.
Proof. done. Qed.

Lemma AddLogsToFile_finished root fset path w w' :
  AddLogsToFile root fset path w = Finished w' ->
  exists infos logs contents out,
    GetAllFuncInfo root fset = Ok infos
    /\ GenerateLogs infos = Ok logs
    /\ ReadFileLines path w = Ok contents
    /\ (GetNewPath path ∉ denied w)
    /\ WriteLogsToFile_loop logs 0 contents [] = Done out
    /\ files w' = <[GetNewPath path := out]> (files w)
    /\ denied w' = denied w.
Proof.
  unfold AddLogsToFile.
  destruct (GetAllFuncInfo root fset) as [infos| |] eqn:Hinfos; [| done..].
  destruct (GenerateLogs infos) as [logs| |] eqn:Hlogs; [| done..].
  rewrite ReadFileLines_print.
  destruct (ReadFileLines path w) as [contents| |] eqn:Hread; [| done..].
  destruct (WriteLogsToFile _ contents logs _) as [w1|msg w1|msg w1] eqn:Hwrite;
    [| done..].
  apply WriteLogsToFile_finished in Hwrite as (Hden & out & Hloop & _ & ->).
  intros [= <-]. exists infos, logs, contents, out. simpl. repeat split; done.
Qed.

(** Whatever the outcome of a run, it leaves the world as it was apart from
    what it printed and the lines of the file at the output path. *)
Lemma AddLogsToFile_world root fset path w :
  denied (world_of (AddLogsToFile root fset path w)) = denied w
  /\ full (world_of (AddLogsToFile root fset path w)) = full w
  /\ (files (world_of (AddLogsToFile root fset path w)) = files w
      \/ exists part,
           files (world_of (AddLogsToFile root fset path w))
           = <[GetNewPath path := part]> (files w)).
Proof.
  unfold AddLogsToFile.
  destruct (GetAllFuncInfo root fset) as [infos| |]; [| by auto..].
  destruct (GenerateLogs infos) as [logs| |]; [| by auto..].
  rewrite ReadFileLines_print.
  destruct (ReadFileLines path w) as [contents| |]; [| by auto..].
  match goal with
  | |- context [WriteLogsToFile ?p ?c ?l ?w0] =>
      pose proof (WriteLogsToFile_world p c l w0) as Hw;
      destruct (WriteLogsToFile p c l w0) as [w1|msg w1|msg w1]
  end; simpl in *;
    (destruct Hw as [->|[part ->]]; simpl; [by auto |];
     split; [done |]; split; [done |]; right; by exists part).
Qed.

Lemma AddLogsToFile_frame root fset path w p :
  p <> GetNewPath path ->
  files (world_of (AddLogsToFile root fset path w)) !! p = files w !! p.
Proof.
  intros Hp.
  destruct (AddLogsToFile_world root fset path w) as (_ & _ & [->|[part ->]]);
    [done |].
  by rewrite lookup_insert_ne.
Qed.

(** The first sample, instrumented: the exit trace before the [return] of
    line 5 is the sixth line of the output and says so; the synthetic exit
    before the closing brace of line 8 is the tenth. *)
Example early_return_output :
  AddLogsToFile Examples.early_return_root Examples.early_return_fset "a.go"
    Examples.early_return_world
  = Finished Examples.early_return_result
  /\ files Examples.early_return_result !! "./debug_a.go"
     = Some [ "package main"; ""; "func A(x int) {";
              tab +:+ entry_text "%+v" "A" ["x"];
              tab +:+ "if x == 5 {";
              tab +:+ tab +:+ exit_text "A" 6;
              tab +:+ tab +:+ "return";
              tab +:+ "}";
              tab +:+ "println(x)";
              tab +:+ exit_text "A" 10;
              "}" ].
Proof. split; vm_compute; reflexivity. Qed.

(** C4 as amended. After a run that ends without a fatal error, removing
    from the output every line that matches a trace pattern gives the
    original lines with their own pattern-matching lines removed; it gives
    the original file exactly when no original line matches a pattern.
    The original lines are the lines as [ReadFileLines] returns them: those
    of the file, which the scanner delivers without the carriage return
    that may end them. *)
Theorem C4_strip_traces (root : ast.File) (fset : token.FileSet) (path : string)
    (w w' : World) (contents : list string) :
  AddLogsToFile root fset path w = Finished w' ->
  ReadFileLines path w = Ok contents ->
  exists out,
    files w' !! GetNewPath path = Some out
    /\ strip_traces out = strip_traces contents
    /\ (Forall (fun l => is_trace_line l = false) contents ->
        strip_traces out = contents)
    /\ (exists text,
          files w !! path = Some text
          /\ contents = map bufio.dropCR text
          /\ (Forall (fun l => strings.HasSuffix l bufio.cr = false) text ->
              contents = text)).
Proof.
  intros Hrun Hfile.
  destruct (ReadFileLines_Ok _ _ _ Hfile) as (text & Htext & _ & Hscanned).
  apply AddLogsToFile_finished in Hrun
    as (infos & logs & contents' & out & _ & Hlogs & Hfile' & _ & Hloop & Hfiles & _).
  assert (contents' = contents) as -> by congruence.
  exists out. rewrite Hfiles, lookup_insert_eq.
  assert (Hstrip : strip_traces out = strip_traces contents).
  { eapply (WriteLogsToFile_loop_strip logs contents 0 []); [| done].
    intros n. by eapply generated_like_trace. }
  split; [done |]. split; [done |]. split.
  - intros Hclean. by rewrite Hstrip, strip_traces_clean.
  - exists text. split; [done |]. split; [done |].
    intros Hplain. rewrite Hscanned. clear -Hplain.
    induction Hplain as [|l text Hl _ IH]; [done |].
    cbn [map]. rewrite IH. f_equal.
    unfold bufio.dropCR, strings.TrimSuffix. by rewrite Hl.
Qed.

Lemma C4_strip_traces_witness :
  exists out,
    files Examples.early_return_result !! "./debug_a.go" = Some out
    /\ strip_traces out = Examples.early_return_lines.
Proof.
  destruct (C4_strip_traces Examples.early_return_root Examples.early_return_fset
              "a.go" Examples.early_return_world Examples.early_return_result
              Examples.early_return_lines)
    as (out & H1 & _ & H3 & _).
  - vm_compute. reflexivity.
  - vm_compute. reflexivity.
  - exists out. split; [exact H1 |]. apply H3.
    repeat constructor.
Defined.

(** C4 as stated fails: a file that already contains a statement printing
    ["Starting func f"] loses that original line when the trace lines are
    stripped by their text, since the inserted entry trace and the original
    line are the same text. *)
Lemma C4_counterexample :
  exists out,
    AddLogsToFile Examples.traced_root Examples.traced_fset "e.go" Examples.traced_world
    = Finished Examples.traced_result
    /\ files Examples.traced_world !! "e.go" = Some Examples.traced_lines
    /\ files Examples.traced_result !! "./debug_e.go" = Some out
    /\ length out = 9%nat
    /\ out !! 5%nat = Examples.traced_lines !! 5%nat
    /\ out !! 6%nat = Examples.traced_lines !! 5%nat
    /\ length (strip_traces out) = 6%nat
    /\ strip_traces out <> Examples.traced_lines.
Proof.
  eexists. split; [vm_compute; reflexivity |].
  split; [vm_compute; reflexivity |].
  split; [vm_compute; reflexivity |].
  repeat split; vm_compute; congruence.
Qed.

(** ** Columns of the traces *)

Section Columns.
Variable fset : token.FileSet.
Hypothesis fset_wf : wf_FileSet fset = true.
Hypothesis fset_columns : directive_columns fset = true.

Lemma searchInts_ge a x : -1 <= token.searchInts a x.
Proof.
  induction a as [|y a IH]; simpl; [lia |].
  destruct (y <=? x); lia.
Qed.

Lemma searchInts_lookup a x :
  0 <= token.searchInts a x ->
  exists start,
    a !! Z.to_nat (token.searchInts a x) = Some start /\ start <= x /\ In start a.
Proof.
  induction a as [|y a IH]; simpl; [lia |].
  destruct (y <=? x) eqn:Hy; [| lia]. apply Z.leb_le in Hy. intros _.
  pose proof (searchInts_ge a x) as Hge.
  destruct (decide (token.searchInts a x = -1)) as [->|Hne].
  - exists y. simpl. eauto.
  - destruct IH as (start & Hlook & Hle & Hin); [lia |].
    exists start. split; [| eauto].
    replace (Z.to_nat (1 + token.searchInts a x))
      with (S (Z.to_nat (token.searchInts a x))) by lia.
    done.
Qed.

(** The line directive found for an offset starts at or before it. *)
Lemma searchLineInfos_lookup a x alt :
  (if 0 <=? token.searchLineInfos a x
   then a !! Z.to_nat (token.searchLineInfos a x) else None) = Some alt ->
  In alt a /\ token.InfoOffset alt <= x.
Proof.
  unfold token.searchLineInfos.
  destruct (0 <=? token.searchInts (map token.InfoOffset a) x) eqn:Hi; [| done].
  apply Z.leb_le in Hi. intros Halt.
  destruct (searchInts_lookup _ _ Hi) as (start & Hlook & Hle & _).
  change (map token.InfoOffset a) with (token.InfoOffset <$> a) in *.
  rewrite list_lookup_fmap, Halt in Hlook. injection Hlook as <-.
  split; [| done]. apply list_elem_of_In. by eapply list_elem_of_lookup_2.
Qed.

(** Unless a line directive without a column precedes it, an offset of the
    file has a column of at least 1. *)
Lemma File_unpack_column f offset :
  wf_File f = true ->
  forallb (fun a => negb (token.InfoColumn a =? 0)) (token.infos f) = true ->
  0 <= offset <= token.size f ->
  column_ok (token.File_unpack f offset true).2 = true.
Proof.
  unfold wf_File, column_ok.
  rewrite !andb_true_iff, !Z.leb_le.
  intros (((((Hbase & Hsize) & Hmax) & Hhead) & Hpos) & Hinfos) Hcols [Hlo Hhi].
  rewrite forallb_forall in Hinfos, Hcols.
  unfold token.File_unpack.
  destruct (token.lines f) as [|z ls] eqn:Hlines; [done |].
  destruct z; [| done..].
  assert (Hi : 0 <= token.searchInts (0 :: ls) offset).
  { simpl. pose proof (searchInts_ge ls offset).
    destruct (0 <=? offset) eqn:H0; [lia |].
    apply Z.leb_gt in H0. lia. }
  destruct (searchInts_lookup _ _ Hi) as (start & Hlook & Hle & Hin).
  destruct (0 <=? token.searchInts (0 :: ls) offset) eqn:Hb;
    [| apply Z.leb_gt in Hb; lia].
  rewrite Hlook.
  assert (0 <= start).
  { rewrite forallb_forall in Hpos. apply Z.leb_le. by apply Hpos. }
  assert (Hplain : 1 <= offset - start + 1 <= GoInt.max_int)
    by (unfold GoInt.max_int in *; lia).
  destruct (true && (0 <? GoInt.len (token.infos f))); [| simpl; lia].
  destruct (if 0 <=? token.searchLineInfos (token.infos f) offset
            then token.infos f !! Z.to_nat (token.searchLineInfos (token.infos f) offset)
            else None) as [alt|] eqn:Halt; [| simpl; lia].
  apply searchLineInfos_lookup in Halt as [Halt Hbefore].
  pose proof (Hinfos alt Halt) as Hwf. pose proof (Hcols alt Halt) as Hcol.
  unfold wf_lineInfo in Hwf. rewrite !andb_true_iff, !Z.leb_le in Hwf.
  destruct Hwf as ((((Hoff & _) & _) & Hc0) & Hcmax).
  apply negb_true_iff, Z.eqb_neq in Hcol.
  destruct (0 <=? token.searchInts (0 :: ls) (token.InfoOffset alt)); [| simpl; lia].
  simpl.
  destruct (token.InfoColumn alt =? 0) eqn:Hzero; [apply Z.eqb_eq in Hzero; lia |].
  case_match; unfold GoInt.max_int in *; lia.
Qed.

Lemma File_position_column f p :
  wf_File f = true ->
  forallb (fun a => negb (token.InfoColumn a =? 0)) (token.infos f) = true ->
  token.owns f p = true ->
  column_ok (token.Column (token.File_position f p true)) = true.
Proof.
  intros Hwf Hcols [Hlo Hhi]%andb_true_iff. apply Z.leb_le in Hlo, Hhi.
  pose proof (File_unpack_column f (p - token.base f) Hwf Hcols ltac:(lia)) as H.
  unfold token.File_position.
  destruct (token.File_unpack f (p - token.base f) true) as [[filename line] column].
  exact H.
Qed.

Lemma Position_column p :
  in_file fset p = true ->
  column_ok (token.Column (token.FileSet_Position fset p)) = true.
Proof.
  unfold in_file, token.FileSet_Position, token.FileSet_PositionFor.
  intros [Hne Hfile]%andb_true_iff.
  apply negb_true_iff in Hne. rewrite Hne.
  unfold token.FileSet_file in *.
  destruct (find (fun f => token.owns f p) (token.files fset)) as [f|] eqn:Hfind;
    [| done].
  apply find_some in Hfind as [Hin Howns].
  unfold wf_FileSet in fset_wf. rewrite forallb_forall in fset_wf.
  unfold directive_columns in fset_columns. rewrite forallb_forall in fset_columns.
  apply File_position_column; [by apply fset_wf | by apply fset_columns | done].
Qed.

Lemma stmt_inspected fn body s :
  ast.Body fn = Some body -> In s (ast.Stmts body) -> In s (ast.Inspect fn).
Proof.
  intros Hbody Hin. unfold ast.Inspect. rewrite Hbody. simpl.
  apply in_or_app. right. apply in_or_app. right.
  unfold ast.preorder_list. apply in_flat_map. exists s. split; [done |].
  destruct (preorder_head s) as [rest ->]. by left.
Qed.

Lemma record_columns fn body :
  ast.Body fn = Some body ->
  positions_valid fset (ast.FuncDeclD fn) = true ->
  column_ok (token.Column (EntryLogPos (record_of fset fn body))) = true
  /\ Forall (fun p => column_ok (token.Column p) = true)
            (ExitLogPos (record_of fset fn body)).
Proof.
  intros Hbody. simpl. rewrite Hbody.
  intros [[HL HR]%andb_true_iff Hnodes]%andb_true_iff.
  rewrite forallb_forall in Hnodes.
  assert (Hstmt : forall s, In s (ast.Stmts body) ->
                    column_ok (token.Column (node_position fset s)) = true).
  { intros s Hs. apply Position_column, Hnodes. by eapply stmt_inspected. }
  assert (Hsyn : column_ok (token.Column (synthetic_exit fset body)) = true).
  { unfold synthetic_exit.
    destruct (last (ast.Stmts body)) as [s|] eqn:Hlast; simpl.
    - apply Hstmt. apply last_Some in Hlast as [l' ->].
      apply in_or_app. right. by left.
    - by apply Position_column. }
  assert (Hrets : Forall (fun p => column_ok (token.Column p) = true)
                         (FindReturnStmts fn fset)).
  { unfold FindReturnStmts. apply Forall_forall. intros p Hp.
    apply list_elem_of_In, in_map_iff in Hp as (n & <- & Hn).
    apply Position_column, Hnodes.
    apply list_elem_of_In, list_elem_of_filter in Hn as [_ Hn].
    by apply list_elem_of_In. }
  split.
  - simpl. unfold entry_position.
    destruct (ast.Stmts body) as [|first rest] eqn:Hstmts.
    + by apply Position_column.
    + apply Hstmt. by left.
  - simpl. unfold exit_positions.
    destruct ((GoInt.len (FindReturnStmts fn fset) =? 0) || negb (last_is_return body));
      [| done].
    apply Forall_app. split; [done |]. by constructor.
Qed.

Lemma records_columns decls :
  forallb (positions_valid fset) decls = true ->
  Forall (fun t => column_ok (trace_column t) = true)
         (generation_order (flat_map (records_of fset) decls)).
Proof.
  induction decls as [|d decls IH]; [constructor |].
  cbn [forallb flat_map]. intros [Hd Hrest]%andb_true_iff.
  unfold generation_order. rewrite flat_map_app. apply Forall_app.
  split; [| by apply IH].
  destruct d as [fn|]; [| constructor]. cbn [records_of].
  destruct (ast.Body fn) as [body|] eqn:Hbody; [| constructor].
  destruct (IsFuncBodyValid (Some body)); [| constructor].
  destruct (record_columns fn body Hbody Hd) as [Hentry Hexits].
  simpl. rewrite app_nil_r. constructor; [done |].
  apply Forall_forall. intros t Ht.
  apply list_elem_of_In, in_map_iff in Ht as (p & <- & Hp).
  rewrite Forall_forall in Hexits. apply Hexits. by apply list_elem_of_In.
Qed.
End Columns.

Lemma numbered_columns plus k ts :
  Forall (fun t => column_ok (trace_column t) = true) ts ->
  Forall (fun e => col_ok e.2 = true) (numbered_from (render_with plus) k ts).
Proof.
  intros Hts. revert k. induction Hts as [|t ts Ht _ IH]; intros k; [constructor |].
  cbn [numbered_from]. constructor; [| apply IH].
  destruct t as [info|info p]; cbn [snd render_with]; unfold col_ok.
  - by rewrite GetEntryLogInfo_Col.
  - done.
Qed.

Lemma line_index_Forall (P : LogInfo -> Prop) evs n :
  Forall (fun e => P e.2) evs -> Forall P (line_index evs n).
Proof.
  unfold line_index. induction 1 as [|e evs He _ IH]; [constructor |].
  destruct (decide (e.1 = n)).
  - rewrite filter_cons_True by done. by constructor.
  - by rewrite filter_cons_False by done.
Qed.

Lemma cols_ok_from_all logs n contents :
  (forall m, forallb col_ok (logs_at logs m) = true) ->
  cols_ok_from logs n contents = true.
Proof.
  intros Hall. revert n. induction contents as [|line rest IH]; intros n; [done |].
  cbn [cols_ok_from]. by rewrite Hall, IH.
Qed.

(** C10 as amended. After a successful parse of a file in which every line
    directive gives a column (a file without line directives above all),
    every position the program reads has a column of at least 1.  So every
    trace generated from a recorded function has a column of at least 1:
    the count [column - 1] handed to [strings.Repeat] is never negative,
    the indentation is computed, and the loop of the merger runs to its end
    on any file. *)
Theorem C10_columns_positive (root : ast.File) (fset : token.FileSet)
    (infos : list FuncInfo) :
  parsed root fset = true ->
  directive_columns fset = true ->
  GetAllFuncInfo root fset = Ok infos ->
  exists logs,
    GenerateLogs infos = Ok logs
    /\ (forall n l,
          In l (logs_at logs n) ->
          1 <= Col l
          /\ 0 <= GoInt.sub (Col l) 1
          /\ strings.Repeat tab (GoInt.sub (Col l) 1)
             = Ok (strings.repeat_nat tab (Z.to_nat (Col l - 1))))
    /\ (forall contents,
          GoInt.len contents <= GoInt.max_int ->
          WriteLogsToFile_loop logs 0 contents [] = Done (merged logs contents)).
Proof.
  unfold parsed. intros [Hwf Hpos]%andb_true_iff Hdir Hinfos.
  rewrite GetAllFuncInfo_spec in Hinfos.
  destruct (existsb aborts (ast.Decls root)); [done |].
  injection Hinfos as <-.
  eexists. split; [apply GenerateLogs_spec |].
  assert (Hall : forall n,
             Forall (fun l => col_ok l = true)
               (logs_at (index_into ∅
                           (numbered (render_with GoInt.add)
                              (generation_order
                                 (flat_map (records_of fset) (ast.Decls root))))) n)).
  { intros n. rewrite logs_at_index_into. unfold logs_at at 1.
    rewrite lookup_empty. simpl.
    apply line_index_Forall, numbered_columns, records_columns; done. }
  split.
  - intros n l Hl. specialize (Hall n). rewrite Forall_forall in Hall.
    apply list_elem_of_In, Hall in Hl.
    pose proof (Repeat_col_ok l Hl) as Hrep.
    unfold col_ok in Hl. apply andb_true_iff in Hl as [H1 H2].
    apply Z.leb_le in H1, H2.
    rewrite sub_small
      by (unfold GoInt.is_int, GoInt.min_int, GoInt.max_int in *; lia).
    repeat split; [lia | lia |].
    rewrite <- Hrep. f_equal. symmetry. apply sub_small.
    unfold GoInt.is_int, GoInt.min_int, GoInt.max_int in *. lia.
  - intros contents Hlen. unfold merged.
    apply (WriteLogsToFile_loop_spec _ contents 0 []); [lia | lia |].
    apply cols_ok_from_all. intros m. apply forallb_forall.
    intros l Hl. specialize (Hall m). rewrite Forall_forall in Hall.
    by apply Hall, list_elem_of_In.
Qed.

Lemma C10_columns_positive_witness :
  exists logs,
    GenerateLogs [MkFuncInfo "f" [] [] (token.MkPosition "l2.go" 39 2 2)
                    [token.MkPosition "l2.go" 43 3 2]] = Ok logs
    /\ WriteLogsToFile_loop logs 0 MoreExamples.directive_column_lines []
       = Done (merged logs MoreExamples.directive_column_lines).
Proof.
  destruct (C10_columns_positive MoreExamples.directive_column_root
              MoreExamples.directive_column_fset
              [MkFuncInfo "f" [] [] (token.MkPosition "l2.go" 39 2 2)
                 [token.MkPosition "l2.go" 43 3 2]])
    as (logs & H1 & _ & H3).
  - vm_compute. reflexivity.
  - vm_compute. reflexivity.
  - vm_compute. reflexivity.
  - exists logs. split; [exact H1 |]. apply H3. vm_compute. discriminate.
Defined.

(** C10 as stated fails: after the directive [//line l2.go:1], which gives
    no column, [fset.Position] reports column 0 for every position of the
    file.  The file parses, its function is recorded, the entry trace gets
    column 0, [strings.Repeat] is asked for [-1] repetitions and the run
    crashes, leaving the output file created and empty. *)
Lemma C10_counterexample :
  parsed MoreExamples.directive_root MoreExamples.directive_fset = true
  /\ exists infos logs l w',
       GetAllFuncInfo MoreExamples.directive_root MoreExamples.directive_fset = Ok infos
       /\ GenerateLogs infos = Ok logs
       /\ In l (logs_at logs 2)
       /\ Col l = 0
       /\ strings.Repeat tab (GoInt.sub (Col l) 1)
          = Panic "strings: negative Repeat count"
       /\ AddLogsToFile MoreExamples.directive_root MoreExamples.directive_fset
            "l2.go" MoreExamples.directive_world
          = Crashed "strings: negative Repeat count" w'
       /\ files w' !! "./debug_l2.go" = Some [].
Proof.
  split; [vm_compute; reflexivity |].
  eexists _, _, (MkLogInfo _ 0), _.
  split; [vm_compute; reflexivity |].
  split; [vm_compute; reflexivity |].
  split; [vm_compute; left; reflexivity |].
  split; [reflexivity |].
  split; [vm_compute; reflexivity |].
  split; [vm_compute; reflexivity |].
  vm_compute. reflexivity.
Qed.

(** ** Runs that reach the writer *)

Lemma generated_cols_ok fset decls n :
  wf_FileSet fset = true ->
  directive_columns fset = true ->
  forallb (positions_valid fset) decls = true ->
  forallb col_ok
    (logs_at (index_into ∅
                (numbered (render_with GoInt.add)
                   (generation_order (flat_map (records_of fset) decls)))) n)
  = true.
Proof.
  intros Hwf Hdir Hpos. rewrite logs_at_index_into.
  assert (logs_at ∅ n = []) as -> by (unfold logs_at; by rewrite lookup_empty).
  simpl. apply forallb_forall. intros l Hl.
  assert (H : Forall (fun l => col_ok l = true)
                (line_index (numbered (render_with GoInt.add)
                               (generation_order (flat_map (records_of fset) decls))) n)).
  { apply line_index_Forall, numbered_columns, records_columns; done. }
  rewrite Forall_forall in H. by apply H, list_elem_of_In.
Qed.

(** A run whose steps all succeed: the output file holds what the loop of
    the merger printed, and the two messages are on standard output. *)
Lemma run_writes root fset path w infos logs contents out :
  GetAllFuncInfo root fset = Ok infos ->
  GenerateLogs infos = Ok logs ->
  ReadFileLines path w = Ok contents ->
  WriteLogsToFile_loop logs 0 contents [] = Done out ->
  GetNewPath path ∉ denied w ->
  GetNewPath path ∉ full w ->
  AddLogsToFile root fset path w
  = Finished
      (MkWorld (<[GetNewPath path := out]> (files w)) (denied w)
         (stdout w
            ++ [nl +:+ nl +:+ "old path: " +:+ path +:+ ", new path: "
                  +:+ GetNewPath path +:+ nl +:+ nl]
            ++ ["finished writing to file" +:+ nl])
         (full w)).
Proof.
  intros Hinfos Hlogs Hread Hloop Hden Hfull. unfold AddLogsToFile.
  rewrite Hinfos, Hlogs, ReadFileLines_print, Hread.
  rewrite (WriteLogsToFile_done _ _ _ _ out) by done.
  unfold print, store. simpl. by rewrite <- app_assoc.
Qed.

(** An exit of the writer leaves the world as it was, unless it is the
    failed [Flush] on a device without room: then the file has been
    created and is empty. *)
Lemma WriteLogsToFile_exited path contents logs w msg w' :
  WriteLogsToFile path contents logs w = Exited msg w' ->
  w' = w \/ (path ∈ full w /\ w' = store path [] w).
Proof.
  unfold WriteLogsToFile.
  destruct (bool_decide (path ∈ denied w)); [intros [= _ <-]; by left |].
  destruct (WriteLogsToFile_loop logs 0 contents []) as [out|msg' out]; [| done].
  destruct (bool_decide (path ∈ full w)) eqn:Hfull; cbn [negb].
  - apply bool_decide_eq_true in Hfull.
    destruct out as [|line out]; [done |].
    destruct (written_full (line :: out)) as (-> & -> & _); [done |].
    intros [= _ <-]. by right.
  - destruct (written_room out) as [-> _]. done.
Qed.

Lemma AddLogsToFile_exited root fset path w msg w' :
  AddLogsToFile root fset path w = Exited msg w' ->
  files w' = files w
  \/ (GetNewPath path ∈ full w /\ files w' = <[GetNewPath path := []]> (files w)).
Proof.
  unfold AddLogsToFile.
  destruct (GetAllFuncInfo root fset) as [infos| |]; [| intros [= _ <-]; by left | done].
  destruct (GenerateLogs infos) as [logs| |]; [| intros [= _ <-]; by left | done].
  rewrite ReadFileLines_print.
  destruct (ReadFileLines path w) as [contents| |]; [| intros [= _ <-]; by left | done].
  destruct (WriteLogsToFile _ contents logs _) as [w1|msg1 w1|msg1 w1] eqn:Hwrite;
    [done | | done].
  intros [= _ <-]. apply WriteLogsToFile_exited in Hwrite as [->|[Hfull ->]].
  - by left.
  - right. done.
Qed.

(** ** Paths *)

Section Paths.
Import filepath.

Lemma list_of_string_app (a b : string) : String.list_ascii_of_string (a +:+ b) = String.list_ascii_of_string a ++ String.list_ascii_of_string b.
Proof. induction a; [done |]. rewrite str_app_cons. simpl. by f_equal. Qed.

Lemma string_of_list_app (l1 l2 : list ascii) : String.string_of_list_ascii (l1 ++ l2) = String.string_of_list_ascii l1 +:+ String.string_of_list_ascii l2.
Proof. induction l1; [done |]. simpl. rewrite str_app_cons. by f_equal. Qed.

Lemma rev_list_app (a b : string) : rev_list (a +:+ b) = rev_list b ++ rev_list a.
Proof. unfold rev_list. by rewrite list_of_string_app, rev_app_distr. Qed.

Lemma of_rev_list (s : string) : String.string_of_list_ascii (rev (rev_list s)) = s.
Proof.
  unfold rev_list. by rewrite rev_involutive, String.string_of_list_ascii_of_string.
Qed.

Lemma no_slash_forallb (e : string) : no_slash e = forallb no_sep (String.list_ascii_of_string e).
Proof. induction e; simpl; [done | by f_equal]. Qed.

Lemma no_slash_rev_list (e : string) :
  no_slash e = true -> forallb no_sep (rev_list e) = true.
Proof.
  rewrite no_slash_forallb, !forallb_forall. unfold rev_list.
  intros H c Hc. apply H. by apply in_rev.
Qed.

Lemma take_while_all {A} (f : A -> bool) l :
  forallb f l = true -> take_while f l = l.
Proof.
  induction l as [|x l IH]; simpl; [done |].
  intros [-> Hl]%andb_true_iff. by rewrite IH.
Qed.

Lemma take_while_stop {A} (f : A -> bool) l1 c l2 :
  forallb f l1 = true -> f c = false -> take_while f (l1 ++ c :: l2) = l1.
Proof.
  induction l1 as [|x l1 IH]; simpl; intros Hl Hc.
  - by rewrite Hc.
  - apply andb_true_iff in Hl as [-> Hl]. by rewrite IH.
Qed.

Lemma drop_while_stop {A} (f : A -> bool) l1 c l2 :
  forallb f l1 = true -> f c = false -> drop_while f (l1 ++ c :: l2) = c :: l2.
Proof.
  induction l1 as [|x l1 IH]; simpl; intros Hl Hc.
  - by rewrite Hc.
  - apply andb_true_iff in Hl as [-> Hl]. by rewrite IH.
Qed.

Lemma take_drop_while {A} (f : A -> bool) l :
  take_while f l ++ drop_while f l = l.
Proof. induction l as [|x l IH]; simpl; [done |]. destruct (f x); simpl; by f_equal. Qed.

Lemma take_while_forallb {A} (f : A -> bool) l : forallb f (take_while f l) = true.
Proof.
  induction l as [|x l IH]; simpl; [done |].
  destruct (f x) eqn:Hx; simpl; [by rewrite Hx | done].
Qed.

Lemma drop_while_head {A} (f : A -> bool) l :
  match drop_while f l with [] => True | c :: _ => f c = false end.
Proof. induction l as [|x l IH]; simpl; [done |]. by destruct (f x) eqn:Hx. Qed.

Lemma is_sep_slash : is_sep "/" = true.
Proof. reflexivity. Qed.

Lemma no_sep_slash : no_sep "/" = false.
Proof. reflexivity. Qed.

(** A path is its directory part followed by its last element. *)
Lemma path_split (path : string) : path = dir_part path +:+ last_elem path.
Proof.
  unfold dir_part, last_elem. rewrite <- string_of_list_app, <- rev_app_distr.
  by rewrite take_drop_while, of_rev_list.
Qed.

Lemma last_elem_no_slash path : no_slash (last_elem path) = true.
Proof.
  unfold last_elem. rewrite no_slash_forallb.
  rewrite String.list_ascii_of_string_of_list_ascii.
  apply forallb_forall. intros c Hc. apply in_rev in Hc.
  pose proof (take_while_forallb no_sep (rev_list path)) as H.
  rewrite forallb_forall in H. by apply H.
Qed.

Lemma last_elem_nonempty path : is_file_path path = true -> last_elem path <> "".
Proof.
  unfold is_file_path, last_elem.
  destruct (rev_list path) as [|c l]; [done |]. simpl. intros ->. simpl.
  rewrite string_of_list_app. by destruct (String.string_of_list_ascii (rev (take_while no_sep l))).
Qed.

Lemma nonempty_eqb (s : string) : s <> "" -> String.eqb s "" = false.
Proof. intros H. by apply String.eqb_neq. Qed.

Lemma file_path_nonempty path : is_file_path path = true -> path <> "".
Proof. intros H ->. done. Qed.

Lemma Base_file_path path : is_file_path path = true -> Base path = last_elem path.
Proof.
  intros Hfile. unfold Base.
  rewrite nonempty_eqb by (by apply file_path_nonempty).
  assert (Hdrop : drop_while is_sep (rev_list path) = rev_list path).
  { unfold is_file_path in Hfile. destruct (rev_list path) as [|c l]; [done |].
    simpl. unfold no_sep in Hfile. apply negb_true_iff in Hfile. by rewrite Hfile. }
  rewrite Hdrop. fold (last_elem path).
  by rewrite nonempty_eqb by (by apply last_elem_nonempty).
Qed.

Lemma rev_list_nonempty (e : string) : e <> "" -> exists c l, rev_list e = c :: l.
Proof.
  intros He. destruct (rev_list e) as [|c l] eqn:Hr; [| eauto].
  exfalso. apply He. rewrite <- (of_rev_list e), Hr. done.
Qed.

(** The last element of [x/e] is [e]. *)
Lemma Base_join (x e : string) :
  e <> "" -> no_slash e = true -> Base (x +:+ "/" +:+ e) = e.
Proof.
  intros He Hslash. unfold Base.
  assert (Hne : x +:+ "/" +:+ e <> "").
  { destruct x; [done | by rewrite str_app_cons]. }
  rewrite nonempty_eqb by done.
  rewrite !rev_list_app. change (rev_list "/") with ["/"%char].
  pose proof (no_slash_rev_list e Hslash) as Hall.
  destruct (rev_list_nonempty e He) as (c & l & Hr).
  assert (Hdrop : drop_while is_sep ((rev_list e ++ ["/"%char]) ++ rev_list x)
                  = (rev_list e ++ ["/"%char]) ++ rev_list x).
  { rewrite Hr in *. simpl in *. apply andb_true_iff in Hall as [Hc _].
    unfold no_sep in Hc. apply negb_true_iff in Hc. by rewrite Hc. }
  rewrite Hdrop, <- app_assoc. simpl.
  rewrite take_while_stop by done. rewrite of_rev_list.
  by rewrite nonempty_eqb.
Qed.

Lemma ext_go_elem l rest rest' acc :
  forallb no_sep l = true ->
  (forall acc', ext_go rest acc' = ext_go rest' acc') ->
  ext_go (l ++ rest) acc = ext_go (l ++ rest') acc.
Proof.
  revert acc. induction l as [|c l IH]; intros acc Hl Hrest; simpl; [apply Hrest |].
  apply andb_true_iff in Hl as [Hc Hl]. unfold no_sep in Hc.
  apply negb_true_iff in Hc. rewrite Hc.
  destruct (Ascii.eqb c "."); [done |]. by apply IH.
Qed.

Lemma ext_go_sep rest acc :
  match rest with [] => True | c :: _ => no_sep c = false end ->
  ext_go rest acc = [].
Proof.
  destruct rest as [|c rest]; [done |]. simpl. unfold no_sep.
  intros Hc. apply negb_false_iff in Hc. by rewrite Hc.
Qed.
End Paths.

Section Cleaning.
Import filepath.

Lemma Split_nonempty s : Split s <> [].
Proof. destruct s as [|c s]; simpl; [done |]. destruct (is_sep c); [done |]. by destruct (Split s). Qed.

Lemma Split_app_slash s : Split (s +:+ "/") = Split s ++ [""].
Proof.
  induction s as [|c s IH]; [done |].
  rewrite str_app_cons. simpl. destruct (is_sep c); [by rewrite IH |].
  rewrite IH. pose proof (Split_nonempty s). by destruct (Split s).
Qed.

Lemma Split_elem e t : no_slash e = true -> Split (e +:+ "/" +:+ t) = e :: Split t.
Proof.
  induction e as [|c e IH]; [done |].
  rewrite str_app_cons. simpl. intros [Hc He]%andb_true_iff.
  unfold no_sep in Hc. apply negb_true_iff in Hc. rewrite Hc.
  by rewrite IH.
Qed.

Lemma Split_single e : no_slash e = true -> Split e = [e].
Proof.
  induction e as [|c e IH]; [done |]. simpl. intros [Hc He]%andb_true_iff.
  unfold no_sep in Hc. apply negb_true_iff in Hc. rewrite Hc.
  by rewrite IH.
Qed.

Lemma Split_Join l :
  l <> [] -> forallb no_slash l = true -> Split (strings.Join l "/") = l.
Proof.
  induction l as [|e [|e' l] IH]; [done | |]; intros _ Hl.
  - simpl in *. apply andb_true_iff in Hl as [He _]. by apply Split_single.
  - cbn [forallb] in Hl. apply andb_true_iff in Hl as [He Hl].
    change (strings.Join (e :: e' :: l) "/")
      with (e +:+ "/" +:+ strings.Join (e' :: l) "/").
    rewrite Split_elem by done. f_equal. by apply IH.
Qed.

Lemma Split_no_slash s : forallb no_slash (Split s) = true.
Proof.
  induction s as [|c s IH]; [done |]. simpl.
  destruct (is_sep c) eqn:Hc; [done |].
  pose proof (Split_nonempty s). destruct (Split s) as [|e r]; [done |].
  simpl in *. unfold no_sep. by rewrite Hc.
Qed.

Lemma real_elem_spec e :
  real_elem e = true <->
  e <> "" /\ e <> "." /\ e <> ".." /\ no_slash e = true.
Proof.
  unfold real_elem. rewrite !andb_true_iff, !negb_true_iff, !String.eqb_neq. tauto.
Qed.

Lemma clean_step_real rooted out e :
  real_elem e = true -> clean_step rooted out e = e :: out.
Proof.
  intros (H1 & H2 & H3 & _)%real_elem_spec. unfold clean_step.
  by rewrite !(proj2 (String.eqb_neq _ _)).
Qed.

Lemma fold_reals rooted l out :
  forallb real_elem l = true ->
  fold_left (clean_step rooted) l out = rev l ++ out.
Proof.
  revert out. induction l as [|e l IH]; intros out; [done |].
  cbn [forallb fold_left]. intros [He Hl]%andb_true_iff.
  rewrite clean_step_real, IH by done. simpl. by rewrite <- app_assoc.
Qed.

Lemma replicate_snoc {A} n (x : A) : replicate n x ++ [x] = x :: replicate n x.
Proof. induction n; simpl; [done | by f_equal]. Qed.

Lemma rev_replicate {A} n (x : A) : rev (replicate n x) = replicate n x.
Proof. induction n as [|n IH]; simpl; [done |]. by rewrite IH, replicate_snoc. Qed.

Lemma fold_dotdots n m :
  fold_left (clean_step false) (replicate n "..") (replicate m "..")
  = replicate (n + m) "..".
Proof.
  revert m. induction n as [|n IH]; intros m; [done |].
  cbn [replicate fold_left].
  assert (clean_step false (replicate m "..") ".." = replicate (S m) "..") as ->.
  { by destruct m. }
  rewrite IH. f_equal. lia.
Qed.

Lemma clean_step_normal rooted out e :
  no_slash e = true -> normal_stack rooted out ->
  normal_stack rooted (clean_step rooted out e).
Proof.
  intros He (reals & n & -> & Hreals & Hroot). unfold clean_step.
  destruct (String.eqb_spec e "") as [->|Hne1]; [by exists reals, n |].
  destruct (String.eqb_spec e ".") as [->|Hne2]; [by exists reals, n |].
  destruct (String.eqb_spec e "..") as [->|Hne3].
  - destruct reals as [|e0 reals].
    + destruct n as [|n]; simpl.
      * destruct rooted; [by exists [], 0%nat |].
        exists [], 1%nat. by repeat split.
      * exists [], (S (S n)). split; [done |]. split; [done |].
        intros Hr. specialize (Hroot Hr). done.
    + cbn [forallb] in Hreals. apply andb_true_iff in Hreals as [He0 Hreals].
      pose proof He0 as (_ & _ & Hdd & _)%real_elem_spec.
      simpl. rewrite (proj2 (String.eqb_neq _ _)) by done.
      by exists reals, n.
  - exists (e :: reals), n. split; [done |]. split; [| done].
    cbn [forallb]. rewrite Hreals, andb_true_r.
    by apply real_elem_spec.
Qed.

Lemma fold_normal rooted elems out :
  forallb no_slash elems = true -> normal_stack rooted out ->
  normal_stack rooted (fold_left (clean_step rooted) elems out).
Proof.
  revert out. induction elems as [|e elems IH]; intros out; [done |].
  cbn [forallb fold_left]. intros [He Helems]%andb_true_iff Hout.
  apply IH; [done |]. by apply clean_step_normal.
Qed.

Lemma reals_no_slash reals :
  forallb real_elem reals = true -> forallb no_slash reals = true.
Proof.
  rewrite !forallb_forall. intros H e He.
  by apply H, real_elem_spec in He as (_ & _ & _ & ?).
Qed.

Lemma dotdots_no_slash n : forallb no_slash (replicate n "..") = true.
Proof. induction n; simpl; done. Qed.
End Cleaning.

Section CleanTwice.
Import filepath.

Lemma Join_head l :
  l <> [] ->
  Forall (fun e => e <> "" /\ no_slash e = true) l ->
  exists c t, strings.Join l "/" = String c t /\ no_sep c = true.
Proof.
  destruct l as [|e l]; [done |]. intros _ Hl.
  apply Forall_cons in Hl as [[He Hslash] _].
  destruct e as [|c e]; [done |]. simpl in Hslash.
  apply andb_true_iff in Hslash as [Hc _].
  destruct l as [|e' l].
  - exists c, e. done.
  - exists c, (e +:+ "/" +:+ strings.Join (e' :: l) "/"). done.
Qed.

Lemma stack_elems reals n :
  forallb real_elem reals = true ->
  Forall (fun e => e <> "" /\ no_slash e = true) (replicate n ".." ++ rev reals).
Proof.
  intros Hreals. apply Forall_app. split.
  - apply Forall_forall. intros e He.
    apply elem_of_replicate in He as [-> _]. done.
  - apply Forall_forall. intros e He. apply list_elem_of_In, in_rev in He.
    rewrite forallb_forall in Hreals.
    apply Hreals, real_elem_spec in He. tauto.
Qed.

Lemma Clean_rooted_again reals :
  forallb real_elem reals = true ->
  Clean ("/" +:+ strings.Join (rev reals) "/" +:+ "/")
  = "/" +:+ strings.Join (rev reals) "/".
Proof.
  intros Hreals. unfold Clean.
  change ("/" +:+ strings.Join (rev reals) "/" +:+ "/")
    with (String "/" (strings.Join (rev reals) "/" +:+ "/")).
  cbn [strings.HasPrefix Split]. rewrite Ascii.eqb_refl, is_sep_slash.
  rewrite Split_app_slash. cbn [fold_left].
  change (clean_step true [] "") with (@nil string).
  rewrite fold_left_app. cbn [fold_left].
  destruct (rev reals) as [|e l] eqn:Hrev.
  - done.
  - rewrite <- Hrev. rewrite Split_Join.
    + assert (Hreals' : forallb real_elem (rev reals) = true).
      { rewrite forallb_forall in *. intros x Hx. apply Hreals. by apply in_rev. }
      rewrite (fold_reals true (rev reals)) by done.
      rewrite rev_involutive, app_nil_r.
      by change (clean_step true reals "") with reals.
    + by rewrite Hrev.
    + apply reals_no_slash. rewrite forallb_forall in *.
      intros x Hx. apply Hreals. by apply in_rev.
Qed.

Lemma Clean_relative_again reals n :
  forallb real_elem reals = true ->
  replicate n ".." ++ rev reals <> [] ->
  Clean (strings.Join (replicate n ".." ++ rev reals) "/" +:+ "/")
  = strings.Join (replicate n ".." ++ rev reals) "/".
Proof.
  intros Hreals Hne. pose proof (stack_elems reals n Hreals) as Helems.
  destruct (Join_head _ Hne Helems) as (c & t & Hjoin & Hc).
  assert (Hreals' : forallb real_elem (rev reals) = true).
  { rewrite forallb_forall in *. intros x Hx. apply Hreals. by apply in_rev. }
  unfold Clean.
  assert (Hroot : strings.HasPrefix
                    (strings.Join (replicate n ".." ++ rev reals) "/" +:+ "/") "/"
                  = false).
  { rewrite Hjoin, str_app_cons. cbn [strings.HasPrefix]. unfold no_sep, is_sep in Hc.
    apply negb_true_iff in Hc. rewrite Ascii.eqb_sym. by rewrite Hc. }
  rewrite Hroot, Split_app_slash, Split_Join; [| done |].
  - rewrite !fold_left_app.
    pose proof (fold_dotdots n 0) as Hdots. simpl in Hdots. rewrite Hdots.
    rewrite Nat.add_0_r, (fold_reals false (rev reals)) by done.
    rewrite rev_involutive.
    cbn [fold_left].
    change (clean_step false (reals ++ replicate n "..") "")
      with (reals ++ replicate n "..").
    rewrite rev_app_distr, rev_replicate, Hjoin. done.
  - rewrite forallb_app, dotdots_no_slash. by apply reals_no_slash.
Qed.

(** Cleaning the directory of a path again, with a separator after it,
    changes nothing. *)
Lemma Clean_again q : Clean (Clean q +:+ "/") = Clean q.
Proof.
  assert (Hnormal : normal_stack (strings.HasPrefix q "/")
                      (fold_left (clean_step (strings.HasPrefix q "/")) (Split q) [])).
  { apply fold_normal; [apply Split_no_slash |]. by exists [], 0%nat. }
  destruct Hnormal as (reals & n & Hout & Hreals & Hroot).
  unfold Clean at 2 3. rewrite Hout, rev_app_distr, rev_replicate.
  destruct (strings.HasPrefix q "/").
  - rewrite (Hroot eq_refl). simpl. rewrite str_app_assoc.
    by apply Clean_rooted_again.
  - destruct (replicate n ".." ++ rev reals) as [|e l] eqn:Hl.
    + reflexivity.
    + rewrite <- Hl.
      assert (Hne : replicate n ".." ++ rev reals <> []) by (by rewrite Hl).
      destruct (Join_head _ Hne (stack_elems reals n Hreals)) as (c & t & Hjoin & _).
      rewrite Hjoin. simpl. rewrite <- Hjoin.
      by apply Clean_relative_again.
Qed.
End CleanTwice.

(** ** The output path *)

Section OutputPath.
Import filepath.

Lemma no_slash_app (a b : string) : no_slash (a +:+ b) = no_slash a && no_slash b.
Proof.
  induction a as [|c a IH]; [done |]. rewrite str_app_cons. simpl.
  by rewrite IH, andb_assoc.
Qed.

Lemma rev_list_of_rev (l : list ascii) :
  rev_list (String.string_of_list_ascii (rev l)) = l.
Proof.
  unfold rev_list.
  by rewrite String.list_ascii_of_string_of_list_ascii, rev_involutive.
Qed.

Lemma dir_part_join (d e : string) :
  no_slash e = true -> dir_part (d +:+ "/" +:+ e) = d +:+ "/".
Proof.
  intros He. unfold dir_part.
  rewrite !rev_list_app, <- app_assoc. change (rev_list "/") with ["/"%char]. simpl.
  rewrite drop_while_stop by (done || by apply no_slash_rev_list). simpl.
  by rewrite string_of_list_app, of_rev_list.
Qed.

Lemma Dir_dir_part path : Dir path = Clean (dir_part path).
Proof. reflexivity. Qed.

Lemma Ext_join (d path : string) :
  is_file_path path = true ->
  Ext (d +:+ "/" +:+ "debug_" +:+ last_elem path) = Ext path.
Proof.
  intros Hfile. unfold Ext.
  rewrite (path_split path) at 2.
  rewrite !rev_list_app, <- !app_assoc. f_equal.
  apply ext_go_elem.
  - apply no_slash_rev_list, last_elem_no_slash.
  - intros acc. rewrite (ext_go_sep (rev_list (dir_part path))).
    + reflexivity.
    + unfold dir_part. rewrite rev_list_of_rev. apply drop_while_head.
Qed.

Lemma GetNewPath_file path :
  is_file_path path = true ->
  GetNewPath path = Dir path +:+ "/" +:+ "debug_" +:+ last_elem path.
Proof. intros Hfile. unfold GetNewPath. by rewrite Base_file_path. Qed.

Lemma debug_elem path :
  "debug_" +:+ last_elem path <> ""
  /\ no_slash ("debug_" +:+ last_elem path) = true.
Proof.
  split; [done |]. rewrite no_slash_app, last_elem_no_slash. done.
Qed.

Lemma drop_while_nil {A} (f : A -> bool) l :
  drop_while f l = [] -> forallb f l = true.
Proof.
  induction l as [|x l IH]; simpl; [done |].
  destruct (f x); [done | discriminate].
Qed.

Lemma rev_list_inj (a b : string) : rev_list a = rev_list b -> a = b.
Proof.
  intros H. by rewrite <- (of_rev_list a), <- (of_rev_list b), H.
Qed.

Lemma rev_list_new_path path :
  rev_list (GetNewPath path)
  = rev_list (Base path) ++ rev_list "/debug_" ++ rev_list (Dir path).
Proof.
  unfold GetNewPath. rewrite !rev_list_app, <- !app_assoc. done.
Qed.

Lemma GetNewPath_differs_file path :
  is_file_path path = true -> GetNewPath path <> path.
Proof.
  intros Hfile Heq. destruct (debug_elem path) as [Hne Hslash].
  assert (Hbase : Base (GetNewPath path) = "debug_" +:+ Base path).
  { rewrite GetNewPath_file, (Base_file_path path) by done. by apply Base_join. }
  rewrite Heq in Hbase.
  apply (f_equal String.length) in Hbase. rewrite str_length_app in Hbase.
  simpl in Hbase. lia.
Qed.

(** The output path is never the input path. *)
Lemma GetNewPath_differs path : GetNewPath path <> path.
Proof.
  destruct (is_file_path path) eqn:Hfile; [by apply GetNewPath_differs_file |].
  intros Heq. apply (f_equal rev_list) in Heq. rewrite rev_list_new_path in Heq.
  unfold Base in Heq. unfold is_file_path in Hfile.
  destruct (String.eqb path "") eqn:Hp.
  { apply String.eqb_eq in Hp. subst path. done. }
  destruct (rev_list path) as [|c r] eqn:Hr.
  { apply String.eqb_neq in Hp. apply Hp. apply rev_list_inj. by rewrite Hr. }
  pose proof (take_while_forallb no_sep (drop_while is_sep (c :: r))) as Hall.
  pose proof (drop_while_head is_sep (c :: r)) as Hhead.
  destruct (take_while no_sep (drop_while is_sep (c :: r))) as [|d l] eqn:Htake.
  - (* nothing but separators: the base name is the separator *)
    simpl in Heq. injection Heq as _ Heq.
    assert (Hdrop : drop_while is_sep (c :: r) = []).
    { destruct (drop_while is_sep (c :: r)) as [|x xs]; [done |].
      simpl in Htake. unfold no_sep in Htake. rewrite Hhead in Htake. done. }
    apply drop_while_nil in Hdrop. simpl in Hdrop.
    apply andb_true_iff in Hdrop as [_ Hr'].
    destruct r as [|c' r]; [done |]. injection Heq as <- _. done.
  - (* a last element exists: it ends the output path, a separator the input *)
    set (elem := String.string_of_list_ascii (rev (d :: l))) in *.
    assert (Helem : rev_list elem = d :: l) by apply rev_list_of_rev.
    assert (Hne' : String.eqb elem "" = false).
    { apply String.eqb_neq. intros He. rewrite He in Helem. done. }
    rewrite Hne', Helem in Heq. simpl in Heq. injection Heq as <- _.
    simpl in Hall. apply andb_true_iff in Hall as [Hd _]. congruence.
Qed.

(** C9. The output path always differs from the input path.  Whatever
    the outcome of a run, no file but the one at the output path is
    touched: the input file is left as it was.  A run that exits leaves
    every file as it was, unless the exit is the failed [Flush] on a device
    without room, which leaves the output file created and empty.  After a
    successful parse (every line directive giving a column), without a
    grouped field in a function that has a body, with an input the scanner
    can read and a destination that can be created and takes the data, the
    run finishes and the file at the output path holds the instrumented
    lines.  When the input path names a file, the output path lies in the
    same directory, has the same extension and has the base name of the
    input prefixed with [debug_]. *)
Theorem C9_output_path (root : ast.File) (fset : token.FileSet) (path : string)
    (w : World) :
  GetNewPath path <> path
  /\ (forall p, p <> GetNewPath path ->
        files (world_of (AddLogsToFile root fset path w)) !! p = files w !! p)
  /\ files (world_of (AddLogsToFile root fset path w)) !! path = files w !! path
  /\ match AddLogsToFile root fset path w with
     | Finished w' => exists out, files w' = <[GetNewPath path := out]> (files w)
     | Exited _ w' =>
         files w' = files w
         \/ (GetNewPath path ∈ full w
             /\ files w' = <[GetNewPath path := []]> (files w))
     | Crashed _ w' =>
         files w' = files w
         \/ exists part, files w' = <[GetNewPath path := part]> (files w)
     end
  /\ (forall contents,
        parsed root fset = true ->
        directive_columns fset = true ->
        existsb aborts (ast.Decls root) = false ->
        ReadFileLines path w = Ok contents ->
        GoInt.len contents <= GoInt.max_int ->
        GetNewPath path ∉ denied w ->
        GetNewPath path ∉ full w ->
        exists infos logs w',
          GetAllFuncInfo root fset = Ok infos
          /\ GenerateLogs infos = Ok logs
          /\ AddLogsToFile root fset path w = Finished w'
          /\ files w' = <[GetNewPath path := merged logs contents]> (files w))
  /\ (is_file_path path = true ->
      Dir (GetNewPath path) = Dir path
      /\ Base (GetNewPath path) = "debug_" +:+ Base path
      /\ Ext (GetNewPath path) = Ext path).
Proof.
  pose proof (GetNewPath_differs path) as Hdiff.
  split; [done |].
  split; [intros p Hp; by apply AddLogsToFile_frame |].
  split; [apply AddLogsToFile_frame; congruence |].
  split; [| split].
  - destruct (AddLogsToFile root fset path w) as [w'|msg w'|msg w'] eqn:Hrun.
    + apply AddLogsToFile_finished in Hrun
        as (_ & _ & _ & out & _ & _ & _ & _ & _ & Hfiles & _).
      by exists out.
    + by eapply AddLogsToFile_exited.
    + destruct (AddLogsToFile_world root fset path w) as (_ & _ & Hfiles).
      by rewrite Hrun in Hfiles.
  - unfold parsed.
    intros contents [Hwf Hpos]%andb_true_iff Hdir Haborts Hread Hlen Hden Hfull.
    do 3 eexists. split; [by rewrite GetAllFuncInfo_spec, Haborts |].
    split; [apply GenerateLogs_spec |].
    split.
    + eapply run_writes;
        [by rewrite GetAllFuncInfo_spec, Haborts | apply GenerateLogs_spec
        | done | | done | done].
      apply (WriteLogsToFile_loop_spec _ contents 0 []); [lia | lia |].
      apply cols_ok_from_all. intros m. by apply generated_cols_ok.
    + reflexivity.
  - intros Hfile. destruct (debug_elem path) as [Hne Hslash].
    split; [| split].
    + rewrite GetNewPath_file, (Dir_dir_part (_ +:+ _)) by done.
      rewrite dir_part_join by done. rewrite Dir_dir_part. apply Clean_again.
    + rewrite GetNewPath_file, (Base_file_path path) by done. by apply Base_join.
    + rewrite GetNewPath_file by done. by apply Ext_join.
Qed.
End OutputPath.

Lemma C9_output_path_witness :
  GetNewPath "a.go" = "./debug_a.go"
  /\ filepath.Ext (GetNewPath "a.go") = filepath.Ext "a.go"
  /\ exists infos logs w',
       GetAllFuncInfo Examples.early_return_root Examples.early_return_fset = Ok infos
       /\ GenerateLogs infos = Ok logs
       /\ AddLogsToFile Examples.early_return_root Examples.early_return_fset "a.go"
            Examples.early_return_world = Finished w'
       /\ files w'
          = <["./debug_a.go" := merged logs Examples.early_return_lines]>
              (files Examples.early_return_world).
Proof.
  destruct (C9_output_path Examples.early_return_root Examples.early_return_fset
              "a.go" Examples.early_return_world)
    as (_ & _ & _ & _ & Hrun & Hpath).
  destruct (Hpath eq_refl) as (_ & _ & Hext).
  split; [reflexivity |]. split; [exact Hext |].
  apply (Hrun Examples.early_return_lines).
  - vm_compute. reflexivity.
  - vm_compute. reflexivity.
  - reflexivity.
  - vm_compute. reflexivity.
  - vm_compute. discriminate.
  - simpl. apply not_elem_of_empty.
  - simpl. apply not_elem_of_empty.
Defined.

(** * Further properties of the program *)

(** ** Positions of a recorded function *)

(** The exit positions of a recorded function are never empty: they are the
    returns found in the declaration, in the order of the traversal,
    followed by at most one more position. *)
Theorem exits_never_empty (fn : ast.FuncDecl) (fset : token.FileSet) (info : FuncInfo) :
  ExtractFuncInfo fn fset = Ok (info, true) ->
  ExitLogPos info <> []
  /\ FindReturnStmts fn fset `prefix_of` ExitLogPos info
  /\ (length (ExitLogPos info) <= S (length (FindReturnStmts fn fset)))%nat.
Proof.
  intros Hrec.
  apply ExtractFuncInfo_recorded in Hrec as (body & _ & _ & _ & ->). simpl.
  unfold exit_positions.
  destruct ((GoInt.len (FindReturnStmts fn fset) =? 0) || negb (last_is_return body))
    eqn:Hcond.
  - split; [by destruct (FindReturnStmts fn fset) |].
    split; [by exists [synthetic_exit fset body] |].
    rewrite length_app. simpl. lia.
  - apply orb_false_iff in Hcond as [Hlen _].
    split; [| split; [done | lia]].
    intros Hnil. rewrite Hnil in Hlen. done.
Qed.

Lemma exits_never_empty_witness :
  ExitLogPos Examples.empty_body_info <> [].
Proof.
  exact (proj1 (exits_never_empty Examples.empty_body_decl Examples.empty_body_fset
                  Examples.empty_body_info eq_refl)).
Defined.

(** In a body with statements the entry position is the position of the
    first statement; when the last statement is not a [return], the exit
    positions end with the position of the closing brace carrying the
    column of that last statement. *)
Theorem body_positions (fn : ast.FuncDecl) (fset : token.FileSet)
    (body : ast.BlockStmt) (info : FuncInfo) (first : ast.Node) (rest : list ast.Node) :
  ast.Body fn = Some body ->
  ast.Stmts body = first :: rest ->
  ExtractFuncInfo fn fset = Ok (info, true) ->
  EntryLogPos info = node_position fset first
  /\ forall final,
       last (ast.Stmts body) = Some final ->
       ast.is_ReturnStmt final = false ->
       exists p,
         last (ExitLogPos info) = Some p
         /\ token.Line p = token.Line (token.FileSet_Position fset (ast.Rbrace body))
         /\ token.Offset p = token.Offset (token.FileSet_Position fset (ast.Rbrace body))
         /\ token.Column p = token.Column (node_position fset final).
Proof.
  intros Hbody Hstmts Hrec.
  apply ExtractFuncInfo_recorded in Hrec as (body' & Hbody' & _ & _ & ->).
  assert (body' = body) as -> by congruence. simpl.
  split.
  - unfold entry_position. by rewrite Hstmts.
  - intros final Hlast Hnot.
    unfold exit_positions, last_is_return, synthetic_exit. rewrite Hlast, Hnot.
    simpl. rewrite orb_true_r, last_snoc. eexists. split; [done |]. done.
Qed.

Lemma body_positions_witness :
  EntryLogPos Examples.early_return_info = token.MkPosition "a.go" 31 4 2
  /\ exists p, last (ExitLogPos Examples.early_return_info) = Some p
               /\ token.Line p = 8 /\ token.Column p = 2.
Proof.
  destruct (body_positions Examples.early_return_decl Examples.early_return_fset
              Examples.early_return_body Examples.early_return_info _ _
              eq_refl eq_refl eq_refl) as [H1 H2].
  split; [exact H1 |].
  destruct (H2 _ eq_refl eq_refl) as (p & Hp & HL & _ & HC).
  exists p. split; [exact Hp |]. split; [exact HL | exact HC].
Defined.

(** ** The declarations, part by part *)

(** Declarations are read one by one: the records of a list of declarations
    are those of its first part followed by those of the rest, and the run
    stops when either part makes it stop. *)
Theorem GetAllFuncInfo_app (decls1 decls2 : list ast.Decl) (fset : token.FileSet) :
  GetAllFuncInfo (ast.MkFile (decls1 ++ decls2)) fset =
    match GetAllFuncInfo (ast.MkFile decls1) fset,
          GetAllFuncInfo (ast.MkFile decls2) fset with
    | Ok infos1, Ok infos2 => Ok (infos1 ++ infos2)
    | Ok _, other => other
    | other, _ => other
    end.
Proof.
  rewrite !GetAllFuncInfo_spec. simpl.
  rewrite existsb_app, flat_map_app.
  destruct (existsb aborts decls1), (existsb aborts decls2); done.
Qed.

(** ** The line index *)

Section LineIndex.
Implicit Types (logs : gmap Z (list LogInfo)) (evs : list (Z * LogInfo)).

Lemma append_log_nonempty logs line l :
  (forall n infos, logs !! n = Some infos -> infos <> []) ->
  forall n infos, append_log logs line l !! n = Some infos -> infos <> [].
Proof.
  intros Hlogs n infos. unfold append_log.
  destruct (decide (line = n)) as [->|Hne].
  - rewrite lookup_insert_eq. intros [= <-]. by destruct (default [] (logs !! n)).
  - rewrite lookup_insert_ne by done. apply Hlogs.
Qed.

Lemma index_into_nonempty evs logs :
  (forall n infos, logs !! n = Some infos -> infos <> []) ->
  forall n infos, index_into logs evs !! n = Some infos -> infos <> [].
Proof.
  revert logs. induction evs as [|e evs IH]; intros logs Hlogs; [done |].
  cbn [index_into fold_left]. apply IH. by apply append_log_nonempty.
Qed.

Lemma stored_append logs line l : stored (append_log logs line l) = S (stored logs).
Proof.
  unfold stored, append_log.
  destruct (logs !! line) as [v|] eqn:Hlook; simpl.
  - rewrite <- insert_delete_eq.
    rewrite (map_to_list_insert (delete line logs)) by apply lookup_delete_eq.
    rewrite <- (map_to_list_delete logs line v Hlook). simpl.
    rewrite length_app. simpl. lia.
  - rewrite map_to_list_insert by done. done.
Qed.

Lemma stored_index_into evs logs :
  stored (index_into logs evs) = (stored logs + length evs)%nat.
Proof.
  revert logs. induction evs as [|e evs IH]; intros logs; simpl; [lia |].
  fold (index_into (add_event logs e) evs). rewrite IH. unfold add_event.
  rewrite stored_append. lia.
Qed.

Lemma numbered_from_length render k ts :
  length (numbered_from render k ts) = length ts.
Proof. revert k. induction ts; intros k; simpl; [done | by f_equal]. Qed.

Lemma generation_order_length fnInfo :
  length (generation_order fnInfo)
  = (length fnInfo + sum_list_with (fun info => length (ExitLogPos info)) fnInfo)%nat.
Proof.
  induction fnInfo as [|info rest IH]; [done |].
  change (generation_order (info :: rest))
    with (traces_of info ++ generation_order rest).
  rewrite length_app, IH. simpl. rewrite length_map. lia.
Qed.

Lemma line_index_nil plus k ts n :
  line_index (numbered_from (render_with plus) k ts) n = []
  <-> Forall (fun t => trace_line t <> n) ts.
Proof.
  revert k. induction ts as [|t ts IH]; intros k.
  { split; [constructor | done]. }
  cbn [numbered_from]. unfold line_index in *.
  destruct (decide (trace_line t = n)) as [Heq|Hne].
  - rewrite filter_cons_True by done. split; [done |].
    intros H. by apply Forall_cons in H as [? _].
  - rewrite filter_cons_False by done. rewrite IH.
    split; [by constructor | by intros [_ ?]%Forall_cons].
Qed.

(** [GenerateLogs] returns for every list of records, also one not made by
    the extractor.  The index it builds has a key exactly for the lines that
    carry a trace, never maps a key to an empty slice, and stores one trace
    per function plus one per exit position. *)
Theorem index_keys (fnInfo : list FuncInfo) :
  exists logs,
    GenerateLogs fnInfo = Ok logs
    /\ (forall n, logs !! n = None
                  <-> Forall (fun t => trace_line t <> n) (generation_order fnInfo))
    /\ (forall n infos, logs !! n = Some infos -> infos <> [])
    /\ stored logs
       = (length fnInfo
          + sum_list_with (fun info => length (ExitLogPos info)) fnInfo)%nat.
Proof.
  eexists. split; [apply GenerateLogs_spec |].
  set (evs := numbered (render_with GoInt.add) (generation_order fnInfo)).
  assert (Hne : forall n infos, index_into ∅ evs !! n = Some infos -> infos <> []).
  { apply index_into_nonempty. intros n infos. by rewrite lookup_empty. }
  split; [| split; [done |]].
  - intros n. rewrite <- (line_index_nil GoInt.add 0).
    pose proof (logs_at_index_into evs ∅ n) as Hat.
    unfold logs_at at 2 in Hat. rewrite lookup_empty in Hat. simpl in Hat.
    fold (numbered (render_with GoInt.add) (generation_order fnInfo)). fold evs.
    rewrite <- Hat. unfold logs_at.
    destruct (index_into ∅ evs !! n) as [infos|] eqn:Hlook; simpl.
    + split; [done |]. intros ->. by destruct (Hne n [] Hlook).
    + done.
  - rewrite stored_index_into. unfold stored. rewrite map_to_list_empty. simpl.
    unfold evs, numbered. by rewrite numbered_from_length, generation_order_length.
Qed.

Lemma line_index_app evs1 evs2 n :
  line_index (evs1 ++ evs2) n = line_index evs1 n ++ line_index evs2 n.
Proof. unfold line_index. by rewrite filter_app, map_app. Qed.

(** Functions are handled in order: appending records leaves what the
    earlier ones put on a line in place and adds the traces of the new ones
    after it, numbered from the count the earlier ones reached. *)
Theorem GenerateLogs_app (fnInfo1 fnInfo2 : list FuncInfo) :
  exists logs1 logs,
    GenerateLogs fnInfo1 = Ok logs1
    /\ GenerateLogs (fnInfo1 ++ fnInfo2) = Ok logs
    /\ forall n,
         logs_at logs n
         = logs_at logs1 n
             ++ line_index (numbered_from (render_with GoInt.add)
                              (length (generation_order fnInfo1))
                              (generation_order fnInfo2)) n.
Proof.
  do 2 eexists. split; [apply GenerateLogs_spec |].
  split; [apply GenerateLogs_spec |].
  intros n. rewrite !logs_at_index_into.
  assert (logs_at ∅ n = []) as -> by (unfold logs_at; by rewrite lookup_empty).
  simpl. unfold numbered, generation_order.
  by rewrite flat_map_app, numbered_from_app, line_index_app.
Qed.
End LineIndex.

(** ** The merger at its edges *)

Section MergerEdges.
Implicit Types (logs : gmap Z (list LogInfo)) (contents wr : list string).

Lemma WriteLogsToFile_loop_ext logs logs' contents idx wr :
  0 <= idx ->
  idx + GoInt.len contents <= GoInt.max_int ->
  (forall n, idx < n <= idx + GoInt.len contents -> logs !! n = logs' !! n) ->
  WriteLogsToFile_loop logs idx contents wr = WriteLogsToFile_loop logs' idx contents wr.
Proof.
  revert idx wr. induction contents as [|line rest IH]; intros idx wr Hidx Hlen Hsame;
    [done |].
  unfold GoInt.len in *. cbn [length] in *. cbn [WriteLogsToFile_loop].
  rewrite add_small
    by (unfold GoInt.is_int, GoInt.min_int, GoInt.max_int in *; lia).
  rewrite (Hsame (idx + 1)) by lia.
  destruct (match logs' !! (idx + 1) with
            | Some infos => WriteLogsToFile_infos infos wr
            | None => Done wr
            end) as [wr'|msg wr']; simpl; [| done].
  apply IH; [lia | lia |]. intros n Hn. apply Hsame. lia.
Qed.

(** The merger reads the index at the line numbers of the file only: two
    indexes that agree there give the same run.  A trace attached to line
    0, to a negative line or to a line after the last one is dropped
    without notice. *)
Theorem merger_reads_file_lines_only (path : string) (contents : list string)
    (logs logs' : gmap Z (list LogInfo)) (w : World) :
  GoInt.len contents <= GoInt.max_int ->
  (forall n, 1 <= n <= GoInt.len contents -> logs !! n = logs' !! n) ->
  WriteLogsToFile path contents logs w = WriteLogsToFile path contents logs' w.
Proof.
  intros Hlen Hsame. unfold WriteLogsToFile.
  rewrite (WriteLogsToFile_loop_ext logs logs'); [done | lia | lia |].
  intros n Hn. apply Hsame. lia.
Qed.

Lemma merger_reads_file_lines_only_witness :
  WriteLogsToFile "./debug_a.go" Examples.early_return_lines
    MoreExamples.stray_logs Examples.early_return_world
  = WriteLogsToFile "./debug_a.go" Examples.early_return_lines
      Examples.early_return_logs Examples.early_return_world.
Proof.
  apply (merger_reads_file_lines_only "./debug_a.go" Examples.early_return_lines
           MoreExamples.stray_logs Examples.early_return_logs
           Examples.early_return_world).
  - vm_compute. discriminate.
  - intros n Hn. unfold MoreExamples.stray_logs. apply lookup_insert_ne.
    unfold GoInt.len in Hn. simpl in Hn. lia.
Defined.

Lemma WriteLogsToFile_infos_length infos wr out :
  WriteLogsToFile_infos infos wr = Done out ->
  length out = (length wr + length infos)%nat.
Proof.
  revert wr. induction infos as [|l infos IH]; intros wr; simpl.
  { intros [= <-]. lia. }
  destruct (strings.Repeat tab (GoInt.sub (Col l) 1)) as [indent| |]; simpl; [| done..].
  intros Hrest. apply IH in Hrest. rewrite Hrest, length_app. simpl. lia.
Qed.

Lemma WriteLogsToFile_loop_length logs contents idx wr out :
  0 <= idx ->
  idx + GoInt.len contents <= GoInt.max_int ->
  WriteLogsToFile_loop logs idx contents wr = Done out ->
  length out
  = (length wr + length contents + traces_within logs (idx + 1) contents)%nat.
Proof.
  revert idx wr. induction contents as [|line rest IH]; intros idx wr Hidx Hlen.
  { simpl. intros [= <-]. lia. }
  unfold GoInt.len in *. cbn [length] in *.
  cbn [WriteLogsToFile_loop traces_within].
  rewrite add_small
    by (unfold GoInt.is_int, GoInt.min_int, GoInt.max_int in *; lia).
  unfold logs_at.
  destruct (logs !! (idx + 1)) as [infos|]; simpl.
  - destruct (WriteLogsToFile_infos infos wr) as [wr'|msg wr'] eqn:Hinfos; simpl; [| done].
    apply WriteLogsToFile_infos_length in Hinfos.
    intros Hrest. apply IH in Hrest; [| lia..].
    rewrite Hrest, length_app, Hinfos. simpl. lia.
  - intros Hrest. apply IH in Hrest; [| lia..].
    rewrite Hrest, length_app. simpl. lia.
Qed.

(** A finished merge only inserts: the file it writes has one line per
    original line plus one per trace attached to a line of the file. *)
Theorem merged_length (path : string) (contents : list string)
    (logs : gmap Z (list LogInfo)) (w w' : World) :
  GoInt.len contents <= GoInt.max_int ->
  WriteLogsToFile path contents logs w = Finished w' ->
  exists out,
    files w' !! path = Some out
    /\ length out = (length contents + traces_within logs 1 contents)%nat.
Proof.
  intros Hlen Hrun.
  apply WriteLogsToFile_finished in Hrun as (_ & out & Hloop & _ & ->).
  exists out. simpl. rewrite lookup_insert_eq. split; [done |].
  apply WriteLogsToFile_loop_length in Hloop; [| lia..]. exact Hloop.
Qed.

Lemma merged_length_witness :
  exists out,
    files MoreExamples.merged_world !! "./debug_a.go" = Some out
    /\ length out = 11%nat.
Proof.
  destruct (merged_length "./debug_a.go" Examples.early_return_lines
              Examples.early_return_logs Examples.early_return_world
              MoreExamples.merged_world) as (out & H1 & H2).
  - vm_compute. discriminate.
  - vm_compute. reflexivity.
  - exists out. split; [exact H1 | exact H2].
Defined.
End MergerEdges.

Section MergerPanics.
Implicit Types (logs : gmap Z (list LogInfo)) (contents wr : list string).

Lemma WriteLogsToFile_infos_outcome infos wr :
  (exists out, WriteLogsToFile_infos infos wr = Done out)
  \/ (exists out,
        WriteLogsToFile_infos infos wr = Panicked "strings: negative Repeat count" out).
Proof.
  revert wr. induction infos as [|l infos IH]; intros wr; simpl; [eauto |].
  unfold strings.Repeat. destruct (GoInt.sub (Col l) 1 <? 0); simpl; [right; eauto |].
  apply IH.
Qed.

Lemma WriteLogsToFile_infos_panics infos wr l :
  In l infos -> GoInt.sub (Col l) 1 < 0 ->
  exists out,
    WriteLogsToFile_infos infos wr = Panicked "strings: negative Repeat count" out.
Proof.
  revert wr. induction infos as [|l0 infos IH]; intros wr Hin Hneg; [done |].
  cbn [WriteLogsToFile_infos]. unfold strings.Repeat.
  destruct (GoInt.sub (Col l0) 1 <? 0) eqn:Hl0; simpl; [eauto |].
  destruct Hin as [->|Hin]; [apply Z.ltb_ge in Hl0; lia |].
  by apply IH.
Qed.

Lemma WriteLogsToFile_loop_panics logs contents idx wr (i : nat) l :
  0 <= idx ->
  idx + GoInt.len contents <= GoInt.max_int ->
  (i < length contents)%nat ->
  In l (logs_at logs (idx + Z.of_nat i + 1)) ->
  GoInt.sub (Col l) 1 < 0 ->
  exists out,
    WriteLogsToFile_loop logs idx contents wr
    = Panicked "strings: negative Repeat count" out.
Proof.
  revert idx wr i. induction contents as [|line rest IH]; intros idx wr i Hidx Hlen Hi Hin Hneg.
  { simpl in Hi. lia. }
  unfold GoInt.len in *. cbn [length] in *. cbn [WriteLogsToFile_loop].
  rewrite add_small
    by (unfold GoInt.is_int, GoInt.min_int, GoInt.max_int in *; lia).
  destruct i as [|i].
  - replace (idx + Z.of_nat 0 + 1) with (idx + 1) in Hin by lia.
    unfold logs_at in Hin.
    destruct (logs !! (idx + 1)) as [infos|]; simpl in Hin; [| done].
    destruct (WriteLogsToFile_infos_panics infos wr l Hin Hneg) as [out ->]. eauto.
  - assert (Hnext : forall wr', exists out,
                      WriteLogsToFile_loop logs (idx + 1) rest wr'
                      = Panicked "strings: negative Repeat count" out).
    { intros wr'. apply (IH (idx + 1) wr' i); [lia | lia | lia | | done].
      replace (idx + 1 + Z.of_nat i + 1) with (idx + Z.of_nat (S i) + 1) by lia. done. }
    destruct (logs !! (idx + 1)) as [infos|]; simpl; [| apply Hnext].
    destruct (WriteLogsToFile_infos_outcome infos wr) as [[out ->]|[out ->]]; simpl;
      [apply Hnext | eauto].
Qed.

(** A trace on a line of the file whose column is not positive (0 is what an
    unresolved position gives) makes the merger crash in [strings.Repeat],
    whatever else the index holds: nothing before it can fail otherwise.
    The crash comes after [os.Create]: the file at the path exists by then
    and holds the part of the output the writer has passed on, the rest of
    the world being as it was. *)
Theorem nonpositive_column_crashes (path : string) (contents : list string)
    (logs : gmap Z (list LogInfo)) (w : World) (i : nat) (l : LogInfo) :
  path ∉ denied w ->
  GoInt.len contents <= GoInt.max_int ->
  (i < length contents)%nat ->
  In l (logs_at logs (Z.of_nat i + 1)) ->
  GoInt.min_int < Col l <= 0 ->
  exists part,
    WriteLogsToFile path contents logs w
    = Crashed "strings: negative Repeat count"
        (MkWorld (<[path := part]> (files w)) (denied w) (stdout w) (full w)).
Proof.
  intros Hpath Hlen Hi Hin Hcol. unfold WriteLogsToFile.
  rewrite bool_decide_eq_false_2 by done.
  destruct (WriteLogsToFile_loop_panics logs contents 0 [] i l) as [out ->];
    [lia | lia | done | done | |].
  - rewrite sub_small
      by (unfold GoInt.is_int, GoInt.min_int, GoInt.max_int in *; lia).
    lia.
  - eexists. reflexivity.
Qed.

Lemma nonpositive_column_crashes_witness :
  exists part,
    WriteLogsToFile "./debug_a.go" Examples.early_return_lines
      MoreExamples.zero_column_logs Examples.early_return_world
    = Crashed "strings: negative Repeat count"
        (MkWorld (<["./debug_a.go" := part]> (files Examples.early_return_world))
           ∅ [] ∅).
Proof.
  apply (nonpositive_column_crashes "./debug_a.go" Examples.early_return_lines
           MoreExamples.zero_column_logs Examples.early_return_world 1%nat
           (MkLogInfo (exit_text "A" 2) 0)).
  - simpl. apply not_elem_of_empty.
  - vm_compute. discriminate.
  - simpl. lia.
  - vm_compute. left. reflexivity.
  - unfold GoInt.min_int. simpl. lia.
Defined.

(** A panic before the buffer of the writer has filled leaves the output
    file created and empty: nothing that was printed has reached it. *)
Theorem crash_leaves_empty_file (path : string) (contents : list string)
    (logs : gmap Z (list LogInfo)) (w : World) (msg : string) (out : list string) :
  path ∉ denied w ->
  WriteLogsToFile_loop logs 0 contents [] = Panicked msg out ->
  text_size out <= bufio.defaultBufSize ->
  WriteLogsToFile path contents logs w
  = Crashed msg (MkWorld (<[path := []]> (files w)) (denied w) (stdout w) (full w)).
Proof.
  intros Hpath Hloop Hsmall. unfold WriteLogsToFile.
  rewrite bool_decide_eq_false_2 by done. rewrite Hloop.
  unfold bufio.on_file. rewrite printed_small.
  - by destruct out.
  - unfold writer_ok, bufio.defaultBufSize. simpl. split; [done | lia].
  - done.
  - simpl. lia.
Qed.

Lemma crash_leaves_empty_file_witness :
  WriteLogsToFile "./debug_a.go" Examples.early_return_lines
    MoreExamples.zero_column_logs Examples.early_return_world
  = Crashed "strings: negative Repeat count"
      (MkWorld (<["./debug_a.go" := []]> (files Examples.early_return_world)) ∅ [] ∅).
Proof.
  apply (crash_leaves_empty_file "./debug_a.go" Examples.early_return_lines
           MoreExamples.zero_column_logs Examples.early_return_world
           "strings: negative Repeat count" ["package main"]).
  - simpl. apply not_elem_of_empty.
  - vm_compute. reflexivity.
  - vm_compute. discriminate.
Defined.
End MergerPanics.

(** ** Whole runs *)

Section Runs.
Implicit Types (logs : gmap Z (list LogInfo)) (contents wr : list string).

Lemma WriteLogsToFile_loop_empty contents idx wr :
  WriteLogsToFile_loop ∅ idx contents wr = Done (wr ++ contents).
Proof.
  revert idx wr. induction contents as [|line rest IH]; intros idx wr; simpl.
  - by rewrite app_nil_r.
  - rewrite lookup_empty. simpl. rewrite IH. by rewrite <- app_assoc.
Qed.

(** A file without any function that has a body is copied line by line:
    the output file holds the lines of the input, whatever their number,
    each without the carriage return that may end it. *)
Theorem no_functions_copies (root : ast.File) (fset : token.FileSet)
    (path : string) (w : World) (text : list string) :
  forallb (fun d => negb (recordable d)) (ast.Decls root) = true ->
  files w !! path = Some text ->
  scannable text = true ->
  GetNewPath path ∉ denied w ->
  GetNewPath path ∉ full w ->
  exists w',
    AddLogsToFile root fset path w = Finished w'
    /\ files w' = <[GetNewPath path := map bufio.dropCR text]> (files w).
Proof.
  intros Hnone Hfile Hscan Hpath Hroom. rewrite forallb_forall in Hnone.
  assert (Haborts : existsb aborts (ast.Decls root) = false).
  { apply not_true_is_false. intros (d & Hd & Ha)%existsb_exists.
    apply aborts_recordable in Ha. specialize (Hnone d Hd). by rewrite Ha in Hnone. }
  assert (Hrecords : flat_map (records_of fset) (ast.Decls root) = []).
  { clear Haborts. induction (ast.Decls root) as [|d decls IH]; [done |].
    simpl. rewrite (records_recordable fset d).
    - apply IH. intros x Hx. apply Hnone. by right.
    - apply negb_true_iff, Hnone. by left. }
  eexists. split.
  - eapply run_writes; [| apply GenerateLogs_spec | | | done | done].
    + by rewrite GetAllFuncInfo_spec, Haborts, Hrecords.
    + by rewrite (ReadFileLines_found _ _ _ Hfile), Hscan.
    + change (index_into ∅ (numbered (render_with GoInt.add) (generation_order [])))
        with (∅ : gmap Z (list LogInfo)).
      apply WriteLogsToFile_loop_empty.
  - reflexivity.
Qed.

Lemma no_functions_copies_witness :
  exists w',
    AddLogsToFile MoreExamples.no_body_root Examples.early_return_fset "w.go"
      MoreExamples.crlf_world = Finished w'
    /\ files w' !! "./debug_w.go" = Some ["package p"; ""; "var x = 1"].
Proof.
  destruct (no_functions_copies MoreExamples.no_body_root Examples.early_return_fset
              "w.go" MoreExamples.crlf_world
              ["package p" +:+ bufio.cr; bufio.cr; "var x = 1" +:+ bufio.cr])
    as (w' & H1 & H2).
  - reflexivity.
  - vm_compute. reflexivity.
  - vm_compute. reflexivity.
  - simpl. apply not_elem_of_empty.
  - simpl. apply not_elem_of_empty.
  - exists w'. split; [exact H1 |]. rewrite H2. apply lookup_insert_eq.
Defined.

(** After a successful parse in which every line directive gives a column,
    without a grouped field in a function that has a body, with an input
    the scanner can read and a destination that can be created and takes
    the data, the run always finishes: it prints its two messages and
    writes the merged lines to the output path, and nothing else. *)
Theorem run_succeeds (root : ast.File) (fset : token.FileSet) (path : string)
    (w : World) (contents : list string) :
  parsed root fset = true ->
  directive_columns fset = true ->
  existsb aborts (ast.Decls root) = false ->
  ReadFileLines path w = Ok contents ->
  GoInt.len contents <= GoInt.max_int ->
  GetNewPath path ∉ denied w ->
  GetNewPath path ∉ full w ->
  exists infos logs,
    GetAllFuncInfo root fset = Ok infos
    /\ GenerateLogs infos = Ok logs
    /\ AddLogsToFile root fset path w
       = Finished
           (MkWorld (<[GetNewPath path := merged logs contents]> (files w))
              (denied w)
              (stdout w
                 ++ [nl +:+ nl +:+ "old path: " +:+ path +:+ ", new path: "
                       +:+ GetNewPath path +:+ nl +:+ nl]
                 ++ ["finished writing to file" +:+ nl])
              (full w)).
Proof.
  unfold parsed.
  intros [Hwf Hpos]%andb_true_iff Hdir Haborts Hread Hlen Hpath Hroom.
  assert (Hinfos : GetAllFuncInfo root fset
                   = Ok (flat_map (records_of fset) (ast.Decls root)))
    by (by rewrite GetAllFuncInfo_spec, Haborts).
  do 2 eexists. split; [exact Hinfos |].
  split; [apply GenerateLogs_spec |].
  eapply run_writes; [exact Hinfos | apply GenerateLogs_spec | done | | done | done].
  apply (WriteLogsToFile_loop_spec _ contents 0 []); [lia | lia |].
  apply cols_ok_from_all. intros m. by apply generated_cols_ok.
Qed.

Lemma run_succeeds_witness :
  exists w',
    AddLogsToFile Examples.early_return_root Examples.early_return_fset "a.go"
      Examples.early_return_world = Finished w'
    /\ length (stdout w') = 2%nat.
Proof.
  destruct (run_succeeds Examples.early_return_root Examples.early_return_fset "a.go"
              Examples.early_return_world Examples.early_return_lines)
    as (infos & logs & _ & _ & H).
  - vm_compute. reflexivity.
  - vm_compute. reflexivity.
  - reflexivity.
  - vm_compute. reflexivity.
  - vm_compute. discriminate.
  - simpl. apply not_elem_of_empty.
  - simpl. apply not_elem_of_empty.
  - eexists. split; [exact H | reflexivity].
Defined.

(** When the input cannot be opened after the declarations were read, the
    run exits through [log.Fatal]: the line naming the two paths has been
    printed by then, and no file has been created or changed. *)
Theorem missing_input_exits (root : ast.File) (fset : token.FileSet) (path : string)
    (w : World) (infos : list FuncInfo) :
  GetAllFuncInfo root fset = Ok infos ->
  files w !! path = None ->
  exists msg w',
    AddLogsToFile root fset path w = Exited msg w'
    /\ files w' = files w
    /\ stdout w'
       = stdout w ++ [nl +:+ nl +:+ "old path: " +:+ path +:+ ", new path: "
                        +:+ GetNewPath path +:+ nl +:+ nl].
Proof.
  intros Hinfos Hfile. unfold AddLogsToFile.
  rewrite Hinfos, GenerateLogs_spec. unfold ReadFileLines, print. simpl.
  rewrite Hfile. do 2 eexists. split; [done |]. done.
Qed.

Lemma missing_input_exits_witness :
  exists msg w',
    AddLogsToFile Examples.early_return_root Examples.early_return_fset "gone.go"
      Examples.early_return_world = Exited msg w'
    /\ files w' = files Examples.early_return_world.
Proof.
  destruct (missing_input_exits Examples.early_return_root Examples.early_return_fset
              "gone.go" Examples.early_return_world [Examples.early_return_info])
    as (msg & w' & H1 & H2 & _).
  - vm_compute. reflexivity.
  - vm_compute. reflexivity.
  - exists msg, w'. split; [exact H1 | exact H2].
Defined.

(** A line of [64 * 1024] bytes or more stops the scanner: the run exits
    with its error once the declarations were read and the line naming the
    two paths printed, before the output file is created. *)
Theorem long_line_exits (root : ast.File) (fset : token.FileSet) (path : string)
    (w : World) (infos : list FuncInfo) (text : list string) (line : string) :
  GetAllFuncInfo root fset = Ok infos ->
  files w !! path = Some text ->
  In line text ->
  64 * 1024 <= Z.of_nat (String.length line) ->
  AddLogsToFile root fset path w
  = Exited "bufio.Scanner: token too long"
      (MkWorld (files w) (denied w)
         (stdout w ++ [nl +:+ nl +:+ "old path: " +:+ path +:+ ", new path: "
                         +:+ GetNewPath path +:+ nl +:+ nl])
         (full w)).
Proof.
  intros Hinfos Hfile Hin Hlong. unfold AddLogsToFile.
  rewrite Hinfos, GenerateLogs_spec, ReadFileLines_print.
  rewrite (ReadFileLines_found _ _ _ Hfile).
  assert (scannable text = false) as ->; [| done].
  apply not_true_is_false. unfold scannable. rewrite forallb_forall.
  intros Hall. specialize (Hall line Hin). apply Z.ltb_lt in Hall.
  unfold bufio.MaxScanTokenSize in Hall. lia.
Qed.

Lemma long_line_exits_witness :
  exists w',
    AddLogsToFile MoreExamples.no_body_root Examples.early_return_fset "long.go"
      MoreExamples.long_line_world
    = Exited "bufio.Scanner: token too long" w'
    /\ files w' = files MoreExamples.long_line_world.
Proof.
  eexists. split.
  - apply (long_line_exits MoreExamples.no_body_root Examples.early_return_fset
             "long.go" MoreExamples.long_line_world []
             ["package p"; "// " +:+ strings.repeat_nat "x" (Z.to_nat (64 * 1024 - 3))]
             ("// " +:+ strings.repeat_nat "x" (Z.to_nat (64 * 1024 - 3)))).
    + reflexivity.
    + reflexivity.
    + right. left. reflexivity.
    + vm_compute. discriminate.
  - reflexivity.
Defined.

Lemma merged_from_nonempty logs n contents :
  contents <> [] -> merged_from logs n contents <> [].
Proof.
  destruct contents as [|line rest]; [done |]. intros _. cbn [merged_from].
  by destruct (map indent_line (logs_at logs n)).
Qed.

(** On a device without room the output file is created but takes no data:
    a run that reaches the writer with at least one line to write exits at
    the final [Flush], and leaves the output file empty. *)
Theorem full_device_exits (root : ast.File) (fset : token.FileSet) (path : string)
    (w : World) (contents : list string) :
  parsed root fset = true ->
  directive_columns fset = true ->
  existsb aborts (ast.Decls root) = false ->
  ReadFileLines path w = Ok contents ->
  contents <> [] ->
  GoInt.len contents <= GoInt.max_int ->
  GetNewPath path ∉ denied w ->
  GetNewPath path ∈ full w ->
  exists w',
    AddLogsToFile root fset path w
    = Exited ("write " +:+ GetNewPath path +:+ ": no space left on device") w'
    /\ files w' = <[GetNewPath path := []]> (files w).
Proof.
  unfold parsed.
  intros [Hwf Hpos]%andb_true_iff Hdir Haborts Hread Hne Hlen Hpath Hfull.
  unfold AddLogsToFile.
  rewrite GetAllFuncInfo_spec, Haborts, GenerateLogs_spec, ReadFileLines_print, Hread.
  unfold WriteLogsToFile. cbn [print denied full].
  rewrite bool_decide_eq_false_2 by done.
  rewrite (WriteLogsToFile_loop_spec _ contents 0 []); [| lia | lia |].
  - rewrite (bool_decide_eq_true_2 (GetNewPath path ∈ full w)) by done. cbn [negb].
    destruct (written_full ([] ++ merged_from
                (index_into ∅ (numbered (render_with GoInt.add)
                   (generation_order (flat_map (records_of fset) (ast.Decls root)))))
                (0 + 1) contents)) as (-> & -> & _).
    { simpl. by apply merged_from_nonempty. }
    eexists. split; reflexivity.
  - apply cols_ok_from_all. intros m. by apply generated_cols_ok.
Qed.

Lemma full_device_exits_witness :
  exists w',
    AddLogsToFile Examples.early_return_root Examples.early_return_fset "a.go"
      MoreExamples.full_world
    = Exited "write ./debug_a.go: no space left on device" w'
    /\ files w' !! "./debug_a.go" = Some [].
Proof.
  destruct (full_device_exits Examples.early_return_root Examples.early_return_fset
              "a.go" MoreExamples.full_world Examples.early_return_lines)
    as (w' & H1 & H2).
  - vm_compute. reflexivity.
  - vm_compute. reflexivity.
  - reflexivity.
  - vm_compute. reflexivity.
  - discriminate.
  - vm_compute. discriminate.
  - simpl. apply not_elem_of_empty.
  - simpl. apply elem_of_singleton. reflexivity.
  - exists w'. split; [exact H1 |]. rewrite H2. apply lookup_insert_eq.
Defined.
End Runs.

Section EntryPointFacts.
Variable ParseFile : string -> World -> (ast.File * token.FileSet) + string.

(** The program reads its third [os.Args] entry: with fewer entries it
    crashes before doing anything, and whatever the first argument is, it is
    ignored.  Whatever the outcome of a run, it touches no file but the one
    at the output path of the named input, and never the input.  A run that
    finishes has written that file.  A run that exits (a parse error
    included) leaves every file as it was, unless the exit is the failed
    [Flush] on a device without room, which leaves the output file created
    and empty. *)
Theorem main_changes_one_file (args : list string) (w : World) :
  ((length args < 3)%nat -> main ParseFile args w = Crashed "index out of range" w)
  /\ (forall prog prog' ignored ignored' fileName more more',
        main ParseFile (prog :: ignored :: fileName :: more) w
        = main ParseFile (prog' :: ignored' :: fileName :: more') w)
  /\ (forall fileName p,
        args !! 2%nat = Some fileName ->
        p = fileName \/ p <> GetNewPath fileName ->
        files (world_of (main ParseFile args w)) !! p = files w !! p)
  /\ match main ParseFile args w with
     | Finished w' =>
         exists fileName out,
           args !! 2%nat = Some fileName
           /\ files w' = <[GetNewPath fileName := out]> (files w)
     | Exited _ w' =>
         files w' = files w
         \/ exists fileName,
              args !! 2%nat = Some fileName
              /\ GetNewPath fileName ∈ full w
              /\ files w' = <[GetNewPath fileName := []]> (files w)
     | Crashed _ _ => True
     end.
Proof.
  split; [| split; [| split]].
  - intros Hlen. unfold main. by rewrite lookup_ge_None_2 by lia.
  - done.
  - intros fileName p Harg Hp. unfold main, GenerateAST. rewrite Harg.
    destruct (ParseFile fileName w) as [[root fset]|err]; [| done].
    apply AddLogsToFile_frame. destruct Hp as [->|Hp]; [| done].
    intros Heq. by apply (GetNewPath_differs fileName).
  - unfold main, GenerateAST.
    destruct (args !! 2%nat) as [fileName|]; [| done].
    destruct (ParseFile fileName w) as [[root fset]|err]; [| by left].
    destruct (AddLogsToFile root fset fileName w) as [w'|msg w'|msg w'] eqn:Hrun;
      [| | done].
    + apply AddLogsToFile_finished in Hrun
        as (_ & _ & _ & out & _ & _ & _ & _ & _ & Hfiles & _).
      by exists fileName, out.
    + apply AddLogsToFile_exited in Hrun as [Hsame|[Hfull Hfiles]]; [by left |].
      right. by exists fileName.
Qed.
End EntryPointFacts.

Lemma main_changes_one_file_witness :
  main MoreExamples.sample_parser ["go-func-logger"; "a.go"] Examples.early_return_world
  = Crashed "index out of range" Examples.early_return_world
  /\ files (world_of (main MoreExamples.sample_parser ["go-func-logger"; "-f"; "a.go"]
                        Examples.early_return_world)) !! "a.go"
     = Some Examples.early_return_lines.
Proof.
  split.
  - apply (main_changes_one_file MoreExamples.sample_parser
             ["go-func-logger"; "a.go"] Examples.early_return_world).
    simpl. lia.
  - pose proof (main_changes_one_file MoreExamples.sample_parser
                  ["go-func-logger"; "-f"; "a.go"] Examples.early_return_world)
      as (_ & _ & H & _).
    rewrite (H "a.go" "a.go" eq_refl (or_introl eq_refl)). reflexivity.
Defined.

(** ** The output path, applied twice *)

Section OutputPathAgain.
Import filepath.

Lemma is_file_path_join (d e : string) :
  e <> "" -> no_slash e = true -> is_file_path (d +:+ "/" +:+ e) = true.
Proof.
  intros He Hslash. unfold is_file_path. rewrite !rev_list_app, <- app_assoc.
  destruct (rev_list_nonempty e He) as (c & l & Hr).
  pose proof (no_slash_rev_list e Hslash) as Hall. rewrite Hr in *. simpl in *.
  by apply andb_true_iff in Hall as [? _].
Qed.

Lemma last_elem_join (d e : string) :
  e <> "" -> no_slash e = true -> last_elem (d +:+ "/" +:+ e) = e.
Proof.
  intros He Hslash. rewrite <- Base_file_path by (by apply is_file_path_join).
  by apply Base_join.
Qed.

Lemma Dir_join (q e : string) :
  no_slash e = true -> Dir (Clean q +:+ "/" +:+ e) = Clean q.
Proof.
  intros Hslash. rewrite Dir_dir_part, dir_part_join by done. apply Clean_again.
Qed.

(** Instrumenting the output of a run again stacks the marker: the second
    output path is again the path of a file, in the same directory, with the
    base name prefixed twice. *)
Theorem GetNewPath_twice (path : string) :
  is_file_path path = true ->
  is_file_path (GetNewPath path) = true
  /\ Dir (GetNewPath (GetNewPath path)) = Dir path
  /\ Base (GetNewPath (GetNewPath path)) = "debug_debug_" +:+ Base path.
Proof.
  intros Hfile. destruct (debug_elem path) as [Hne Hslash].
  assert (Hnew : GetNewPath path
                 = Clean (dir_part path) +:+ "/" +:+ ("debug_" +:+ last_elem path)).
  { by rewrite GetNewPath_file, Dir_dir_part. }
  assert (Hfile' : is_file_path (GetNewPath path) = true).
  { rewrite Hnew. by apply is_file_path_join. }
  assert (Hdir : Dir (GetNewPath path) = Clean (dir_part path)).
  { rewrite Hnew. by apply Dir_join. }
  assert (Hlast : last_elem (GetNewPath path) = "debug_" +:+ last_elem path).
  { rewrite Hnew. by apply last_elem_join. }
  assert (Hnew2 : GetNewPath (GetNewPath path)
                  = Clean (dir_part path) +:+ "/"
                      +:+ ("debug_" +:+ "debug_" +:+ last_elem path)).
  { by rewrite (GetNewPath_file (GetNewPath path)), Hdir, Hlast. }
  assert (Hslash2 : no_slash ("debug_" +:+ "debug_" +:+ last_elem path) = true).
  { by rewrite no_slash_app, Hslash. }
  split; [done |]. split.
  - rewrite Hnew2, Dir_join by done. by rewrite Dir_dir_part.
  - rewrite Hnew2, Base_join, Base_file_path by done. done.
Qed.

Lemma GetNewPath_twice_witness :
  GetNewPath (GetNewPath "src/a.go") = "src/debug_debug_a.go"
  /\ filepath.Base (GetNewPath (GetNewPath "src/a.go"))
     = "debug_debug_" +:+ filepath.Base "src/a.go".
Proof.
  split; [reflexivity |].
  exact (proj2 (proj2 (GetNewPath_twice "src/a.go" eq_refl))).
Defined.
End OutputPathAgain.

(** ** Where the traces land *)

Section Landing.
Import filepath.
Implicit Types (logs : gmap Z (list LogInfo)) (evs : list (Z * LogInfo))
  (contents : list string).

Lemma nondecreasing_cons x l :
  nondecreasing (x :: l) = true ->
  Forall (fun y => x <= y) l /\ nondecreasing l = true.
Proof.
  revert x. induction l as [|y l IH]; intros x; [by split |].
  change (nondecreasing (x :: y :: l)) with ((x <=? y) && nondecreasing (y :: l)).
  intros [Hxy Hrest]%andb_true_iff. apply Z.leb_le in Hxy.
  destruct (IH y Hrest) as [Hall _]. split; [| done].
  constructor; [done |]. eapply Forall_impl; [exact Hall |]. simpl. lia.
Qed.

Lemma numbered_from_lines render k ts :
  map fst (numbered_from render k ts) = map trace_line ts.
Proof. revert k. induction ts; intros k; simpl; [done | by f_equal]. Qed.

Lemma take_while_line n evs :
  Forall (fun e => e.1 = n) (take_while (fun e => e.1 =? n) evs).
Proof.
  induction evs as [|e evs IH]; simpl; [constructor |].
  destruct (e.1 =? n) eqn:He; [| constructor].
  constructor; [by apply Z.eqb_eq | done].
Qed.

(** In a sequence sorted by line whose lines start at [n], the events of
    line [n] come first and the rest belongs to later lines. *)
Lemma weave_split n evs :
  nondecreasing (map fst evs) = true ->
  Forall (fun e => n <= e.1) evs ->
  filter (fun e => e.1 = n) evs = take_while (fun e => e.1 =? n) evs
  /\ Forall (fun e => n + 1 <= e.1) (drop_while (fun e => e.1 =? n) evs)
  /\ nondecreasing (map fst (drop_while (fun e => e.1 =? n) evs)) = true.
Proof.
  induction evs as [|e evs IH]; intros Hsorted Hlow; [by repeat split |].
  cbn [map] in Hsorted. apply nondecreasing_cons in Hsorted as [Hall Hrest].
  apply Forall_cons in Hlow as [He Hlow]. cbn [take_while drop_while].
  destruct (e.1 =? n) eqn:Heq.
  - apply Z.eqb_eq in Heq. rewrite filter_cons_True by done.
    destruct (IH Hrest Hlow) as (H1 & H2 & H3). by rewrite H1.
  - apply Z.eqb_neq in Heq. rewrite filter_cons_False by done.
    assert (Hlater : Forall (fun e' => n + 1 <= e'.1) evs).
    { rewrite Forall_fmap in Hall. eapply Forall_impl; [exact Hall |].
      simpl. intros e' He'. lia. }
    split; [| split].
    + clear IH Hall Hrest Hlow. induction Hlater as [|e' evs He' _ IH]; [done |].
      rewrite filter_cons_False by lia. done.
    + constructor; [lia | done].
    + simpl. change (nondecreasing (map fst (e :: evs)) = true).
      clear IH. cbn [map]. destruct evs as [|e' evs]; [done |].
      cbn [map] in *. change ((e.1 <=? e'.1) && nondecreasing (e'.1 :: map fst evs) = true).
      apply Forall_cons in Hall as [Hle _]. rewrite Hrest, andb_true_r.
      by apply Z.leb_le.
Qed.

Lemma line_index_other n m evs :
  Forall (fun e => e.1 = n) evs -> n <> m -> line_index evs m = [].
Proof.
  unfold line_index. induction 1 as [|e evs He _ IH]; intros Hne; [done |].
  rewrite filter_cons_False by lia. by apply IH.
Qed.

(** The merged file is the sorted traces woven into the lines. *)
Lemma merged_from_weave logs contents n evs :
  nondecreasing (map fst evs) = true ->
  Forall (fun e => n <= e.1) evs ->
  (forall m, n <= m -> logs_at logs m = line_index evs m) ->
  merged_from logs n contents = weave n contents evs.
Proof.
  revert n evs. induction contents as [|line rest IH]; intros n evs Hsorted Hlow Hat;
    [done |].
  cbn [merged_from weave].
  destruct (weave_split n evs Hsorted Hlow) as (Hfilter & Hlater & Hsorted').
  rewrite (Hat n) by lia. unfold line_index at 1. rewrite Hfilter, map_map.
  f_equal. f_equal. apply IH; [done | done |].
  intros m Hm. rewrite (Hat m) by lia.
  rewrite <- (take_drop_while (fun e => e.1 =? n) evs) at 1.
  rewrite line_index_app.
  rewrite (line_index_other n m) by (apply take_while_line || lia). done.
Qed.

(** The [k]-th event of the sorted sequence is the line of the woven file
    that has the lines before its own and the [k] earlier events above it. *)
Lemma weave_lookup contents n evs (k : nat) e :
  nondecreasing (map fst evs) = true ->
  Forall (fun e => n <= e.1 < n + GoInt.len contents) evs ->
  evs !! k = Some e ->
  weave n contents evs !! (Z.to_nat (e.1 - n) + k)%nat = Some (indent_line e.2).
Proof.
  revert n evs k. induction contents as [|line rest IH]; intros n evs k Hsorted Hrange Hk.
  { apply list_elem_of_lookup_2 in Hk. rewrite Forall_forall in Hrange.
    apply Hrange in Hk. unfold GoInt.len in Hk. simpl in Hk. lia. }
  cbn [weave].
  assert (Hlow : Forall (fun e => n <= e.1) evs).
  { eapply Forall_impl; [exact Hrange |]. simpl. lia. }
  destruct (weave_split n evs Hsorted Hlow) as (_ & Hlater & Hsorted').
  pose proof (take_while_line n evs) as Hhere.
  pose proof (take_drop_while (fun e => e.1 =? n) evs) as Hsplit.
  set (A := take_while (fun e => e.1 =? n) evs) in *.
  set (B := drop_while (fun e => e.1 =? n) evs) in *.
  rewrite <- Hsplit in Hk.
  destruct (decide (k < length A)%nat) as [Hlt|Hge].
  - rewrite lookup_app_l in Hk by done.
    assert (e.1 = n) as Hline.
    { rewrite Forall_forall in Hhere. apply Hhere. by eapply list_elem_of_lookup_2. }
    rewrite Hline, Z.sub_diag. simpl.
    rewrite lookup_app_l by (by rewrite length_map).
    change (map (fun e0 => indent_line e0.2) A) with ((fun e0 => indent_line e0.2) <$> A).
    by rewrite list_lookup_fmap, Hk.
  - rewrite lookup_app_r in Hk by lia.
    assert (HB : Forall (fun e => n + 1 <= e.1 < n + 1 + GoInt.len rest) B).
    { apply Forall_forall. intros x Hx.
      rewrite Forall_forall in Hlater. specialize (Hlater x Hx).
      rewrite Forall_forall in Hrange.
      assert (x ∈ evs) as Hx' by (rewrite <- Hsplit; apply elem_of_app; by right).
      specialize (Hrange x Hx'). unfold GoInt.len in *. cbn [length] in Hrange. lia. }
    pose proof (IH (n + 1) B (k - length A)%nat Hsorted' HB Hk) as Hrec.
    assert (He : n + 1 <= e.1).
    { rewrite Forall_forall in Hlater. apply Hlater. by eapply list_elem_of_lookup_2. }
    rewrite lookup_app_r by (rewrite length_map; lia). rewrite length_map.
    replace (Z.to_nat (e.1 - n) + k - length A)%nat
      with (S (Z.to_nat (e.1 - (n + 1)) + (k - length A)))%nat by lia.
    exact Hrec.
Qed.

Lemma fits_from_bound (len : Z) k ts :
  Forall (fun t => 1 <= trace_line t <= len) ts ->
  len + Z.of_nat (k + length ts) <= GoInt.max_int ->
  fits_from k ts = true.
Proof.
  intros Hts. revert k. induction Hts as [|t ts Ht _ IH]; intros k Hbound; [done |].
  cbn [fits_from length] in *. rewrite IH by lia. rewrite andb_true_r.
  destruct t as [info|info p]; [done |]. simpl in Ht.
  apply is_intb_spec. unfold GoInt.is_int, GoInt.min_int, GoInt.max_int in *. lia.
Qed.

(** When the traces are generated in the order of their lines, as they are
    for positions that follow the source text, each trace lands in the
    output below the lines before its own and the traces generated before
    it.  So an exit trace that says "from line N" is itself the N-th line
    of the output file. *)
Theorem exit_trace_names_its_own_line (fnInfo : list FuncInfo)
    (contents : list string) :
  nondecreasing (map trace_line (generation_order fnInfo)) = true ->
  traces_in_file (GoInt.len contents) (generation_order fnInfo) = true ->
  GoInt.len contents + Z.of_nat (length (generation_order fnInfo)) <= GoInt.max_int ->
  exists logs out,
    GenerateLogs fnInfo = Ok logs
    /\ WriteLogsToFile_loop logs 0 contents [] = Done out
    /\ (forall k t,
          generation_order fnInfo !! k = Some t ->
          out !! (Z.to_nat (trace_line t - 1) + k)%nat
          = Some (indent_line (displayed k t)))
    /\ (forall k info p,
          generation_order fnInfo !! k = Some (ExitTrace info p) ->
          exists N : nat,
            Z.of_nat N = token.Line p + Z.of_nat k
            /\ out !! (N - 1)%nat
               = Some (strings.repeat_nat tab (Z.to_nat (token.Column p - 1))
                         +:+ exit_text (Name info) (Z.of_nat N))).
Proof.
  intros Hsorted Hin Hbound. unfold traces_in_file in Hin.
  rewrite forallb_forall in Hin.
  assert (Hlines : Forall (fun t => 1 <= trace_line t <= GoInt.len contents)
                          (generation_order fnInfo)).
  { apply Forall_forall. intros t Ht. apply list_elem_of_In, Hin in Ht.
    apply andb_true_iff in Ht as [[H1 H2]%andb_true_iff _].
    apply Z.leb_le in H1, H2. lia. }
  assert (Hcols : Forall (fun t => column_ok (trace_column t) = true)
                         (generation_order fnInfo)).
  { apply Forall_forall. intros t Ht. apply list_elem_of_In, Hin in Ht.
    by apply andb_true_iff in Ht as [_ ?]. }
  assert (Hfits : fits_from 0 (generation_order fnInfo) = true).
  { apply (fits_from_bound (GoInt.len contents)); [done | simpl; lia]. }
  set (evs := numbered displayed (generation_order fnInfo)).
  assert (Hevs : numbered (render_with GoInt.add) (generation_order fnInfo) = evs).
  { unfold evs, numbered. by apply fits_from_render. }
  assert (Hat : forall m, logs_at (index_into ∅ evs) m = line_index evs m).
  { intros m. rewrite logs_at_index_into.
    by assert (logs_at ∅ m = []) as -> by (unfold logs_at; by rewrite lookup_empty). }
  assert (Hloop : WriteLogsToFile_loop (index_into ∅ evs) 0 contents []
                  = Done (merged (index_into ∅ evs) contents)).
  { apply (WriteLogsToFile_loop_spec _ contents 0 []); [lia | lia |].
    apply cols_ok_from_all. intros m. rewrite Hat. apply forallb_forall.
    intros l Hl.
    assert (H : Forall (fun l => col_ok l = true) (line_index evs m)).
    { apply line_index_Forall. unfold evs, numbered, displayed.
      by apply numbered_columns. }
    rewrite Forall_forall in H. by apply H, list_elem_of_In. }
  assert (Hweave : merged (index_into ∅ evs) contents = weave 1 contents evs).
  { apply merged_from_weave.
    - unfold evs, numbered. by rewrite numbered_from_lines.
    - unfold evs, numbered. apply Forall_forall. intros e He.
      apply list_elem_of_lookup in He as [i Hi].
      rewrite numbered_from_lookup in Hi.
      destruct (generation_order fnInfo !! i) as [t|] eqn:Ht; [| done].
      simpl in Hi. injection Hi as <-. simpl.
      rewrite Forall_forall in Hlines.
      apply list_elem_of_lookup_2, Hlines in Ht. lia.
    - intros m _. apply Hat. }
  assert (Hland : forall k t,
             generation_order fnInfo !! k = Some t ->
             weave 1 contents evs !! (Z.to_nat (trace_line t - 1) + k)%nat
             = Some (indent_line (displayed k t))).
  { intros k t Ht.
    apply (weave_lookup contents 1 evs k (trace_line t, displayed k t)).
    - unfold evs, numbered. by rewrite numbered_from_lines.
    - unfold evs, numbered. apply Forall_forall. intros e He.
      apply list_elem_of_lookup in He as [i Hi].
      rewrite numbered_from_lookup in Hi.
      destruct (generation_order fnInfo !! i) as [t'|] eqn:Ht'; [| done].
      simpl in Hi. injection Hi as <-. simpl.
      rewrite Forall_forall in Hlines.
      apply list_elem_of_lookup_2, Hlines in Ht'. lia.
    - unfold evs, numbered. by rewrite numbered_from_lookup, Ht. }
  exists (index_into ∅ evs), (weave 1 contents evs).
  split; [by rewrite GenerateLogs_spec, Hevs |].
  split; [by rewrite Hloop, Hweave |].
  split; [exact Hland |].
  intros k info p Ht.
  rewrite Forall_forall in Hlines.
  pose proof (Hlines _ (list_elem_of_lookup_2 _ _ _ Ht)) as Hline. simpl in Hline.
  exists (Z.to_nat (token.Line p - 1) + k + 1)%nat. split; [lia |].
  replace (Z.to_nat (token.Line p - 1) + k + 1 - 1)%nat
    with (Z.to_nat (token.Line p - 1) + k)%nat by lia.
  pose proof (Hland k _ Ht) as Hk.
  change (trace_line (ExitTrace info p)) with (token.Line p) in Hk.
  rewrite Hk. unfold indent_line, displayed. simpl.
  do 3 f_equal. lia.
Qed.

Lemma exit_trace_names_its_own_line_witness :
  exists out,
    WriteLogsToFile_loop Examples.early_return_logs 0 Examples.early_return_lines []
    = Done out
    /\ out !! 5%nat = Some (tab +:+ tab +:+ exit_text "A" 6)
    /\ out !! 9%nat = Some (tab +:+ exit_text "A" 10).
Proof.
  destruct (exit_trace_names_its_own_line [Examples.early_return_info]
              Examples.early_return_lines)
    as (logs & out & H1 & H2 & H3 & _).
  - reflexivity.
  - vm_compute. reflexivity.
  - vm_compute. discriminate.
  - exists out. injection H1 as <-. split; [exact H2 |]. split.
    + exact (H3 1%nat _ eq_refl).
    + exact (H3 2%nat _ eq_refl).
Defined.
End Landing.
